(** * agent0: the [exec_ts] tool adapter ([executeTypeScript])

    A shallow embedding of [src/mastra/tools/exec_ts.ts].  The adapter talks
    to three collaborators that are not part of the repository: the E2B
    sandbox SDK, the host clock ([Date.now]) and the JSON built-ins.  The
    first and the last are interfaces (type classes) over which the adapter
    is defined; the clock is a function from the number of the reading to
    its value.  Module [JSON] gives a model of the built-ins and instance
    [Scripted] a sandbox that follows a script.

    The repository holds two copies of the adapter: the timing-instrumented
    one (module [Instrumented]) and the earlier one without timing (module
    [Plain]). *)

From Stdlib Require Import ZArith Lia Bool List Ascii String Sorted.
From Stdlib Require Import PrimFloat FloatOps SpecFloat.
From stdpp Require Import base option list strings gmap fin_maps pretty.

Set Warnings "-register-all".
Open Scope string_scope.
Open Scope Z_scope.

(** ** JavaScript values *)

(** The values that cross the tool boundary ([args] comes from a tool
    call, [result] from [JSON.parse]).  Numbers are the doubles.  The
    strings the adapter is given are sequences of 8-bit code units
    ([string]); the strings of a parsed value are sequences of 16-bit code
    units ([jsString]).  A list of members stands for the object that has
    them defined one after the other.  An optional parameter or field of
    the source is an [option]: [None] is [undefined]. *)
Inductive jsvalue (S : Type) : Type :=
| JNull
| JBool (b : bool)
| JNum (x : float)
| JStr (s : S)
| JArr (items : list (jsvalue S))
| JObj (members : list (S * jsvalue S)).
Arguments JNull {S}.
Arguments JBool {S} b.
Arguments JNum {S} x.
Arguments JStr {S} s.
Arguments JArr {S} items.
Arguments JObj {S} members.

Definition json : Type := jsvalue string.

(** A UTF-16 code unit: its high and its low byte. *)
Definition CodeUnit : Type := (ascii * ascii)%type.

Definition jsString : Type := list CodeUnit.

Definition codeUnit (c : ascii) : CodeUnit := (Ascii.zero, c).

(** An 8-bit string as a sequence of code units. *)
Fixpoint widen (s : string) : jsString :=
  match s with
  | EmptyString => []
  | String c s' => codeUnit c :: widen s'
  end.

(** A value of 8-bit strings among the values of 16-bit strings. *)
Fixpoint widenValue (v : json) : jsvalue jsString :=
  match v with
  | JNull => JNull
  | JBool b => JBool b
  | JNum x => JNum x
  | JStr s => JStr (widen s)
  | JArr items => JArr (List.map widenValue items)
  | JObj members =>
      JObj (List.map (fun kv => (widen (fst kv), widenValue (snd kv))) members)
  end.

(** ToBoolean on a string: only the empty string is falsy. *)
Definition js_string_truthy (s : string) : bool :=
  match s with
  | EmptyString => false
  | String _ _ => true
  end.

(** ToBoolean: [null], [false], the zeros, NaN and the empty string are
    falsy; every array and object is truthy. *)
Definition truthy (v : json) : bool :=
  match v with
  | JNull => false
  | JBool b => b
  | JNum x => negb (is_zero x || is_nan x)
  | JStr s => js_string_truthy s
  | JArr _ => true
  | JObj _ => true
  end.

(** [if (x)] for an optional value. *)
Definition js_if (x : option json) : bool :=
  match x with
  | Some v => truthy v
  | None => false
  end.

(** [value || fallback] on an optional string. *)
Definition js_or (value : option string) (fallback : string) : string :=
  match value with
  | Some s => if js_string_truthy s then s else fallback
  | None => fallback
  end.

(** [String.prototype.startsWith] and [endsWith]. *)
Fixpoint startsWith (s p : string) {struct p} : bool :=
  match p, s with
  | EmptyString, _ => true
  | String a p', String b s' => if Ascii.eqb a b then startsWith s' p' else false
  | String _ _, EmptyString => false
  end.

Fixpoint endsWith (s p : string) : bool :=
  if String.eqb s p then true
  else match s with
       | EmptyString => false
       | String _ s' => endsWith s' p
       end.

(** [Array.prototype.join]. *)
Fixpoint join (sep : string) (l : list string) : string :=
  match l with
  | [] => EmptyString
  | [x] => x
  | x :: rest => x ++ sep ++ join sep rest
  end.

(** [Array.prototype.includes] on an array of strings. *)
Definition includes (l : list string) (x : string) : bool :=
  existsb (String.eqb x) l.

(** ** The JSON built-ins *)

(** [JSON.stringify(v)], [JSON.stringify(v, null, 2)] and [JSON.parse(s)];
    [JSON_parse] gives [None] where the built-in throws a SyntaxError. *)
Class JSONBuiltins : Type := {
  JSON_stringify : json -> string;
  JSON_stringify_pretty : json -> string;
  JSON_parse : string -> option (jsvalue jsString);
}.

(** ** The regular expression [/\{[\s\S]*\}/] *)

(** [[\s\S]*\}] matched greedily against [s]: the longest prefix of [s]
    that ends in a closing brace. *)
Fixpoint greedy_any_then_close (s : string) : option string :=
  match s with
  | EmptyString => None
  | String c s' =>
      match greedy_any_then_close s' with
      | Some m => Some (String c m)
      | None => if Ascii.eqb c "}" then Some (String c EmptyString) else None
      end
  end.

(** [stdout.match(/\{[\s\S]*\}/)]: the start positions are tried from the
    left; [None] is the [null] of no match, [Some m] is [jsonMatch[0]]. *)
Fixpoint jsonMatch (s : string) : option string :=
  match s with
  | EmptyString => None
  | String c s' =>
      if Ascii.eqb c "{" then
        match greedy_any_then_close s' with
        | Some m => Some (String c m)
        | None => jsonMatch s'
        end
      else jsonMatch s'
  end.

(** ** Results, errors and the sandbox interface *)

(** A thrown value: an [Error] whose [message] may be missing. *)
Record JsError : Type := { message : option string }.

Inductive Outcome (A : Type) : Type :=
| Ok (a : A)
| Throw (e : JsError).
Arguments Ok {A} a.
Arguments Throw {A} e.

(** [interface ExecResult].  A [Record<string, string>] of the source
    ([files] here, [envVars] and [outputFiles] below) is a finite map from
    property names to values. *)
Record ExecResult : Type := {
  stdout : string;
  stderr : string;
  files : option (gmap string string);
  result : option (jsvalue jsString);
  error : option string;
}.

(** The SDK's [ExecutionError], and [Execution] as far as the adapter
    reads it: [logs.stdout], [logs.stderr] and [error]. *)
Record ExecutionError : Type := {
  ee_name : string;
  ee_value : string;
  ee_traceback : string;
}.

Definition json_of_ExecutionError (e : ExecutionError) : json :=
  JObj [("name", JStr (ee_name e)); ("value", JStr (ee_value e));
        ("traceback", JStr (ee_traceback e))].

Record Execution : Type := {
  logs_stdout : list string;
  logs_stderr : list string;
  execution_error : option ExecutionError;
}.

(** An entry of [sbx.files.list]: [type] is ["file"] or ["dir"]. *)
Inductive FileType : Type := TFile | TDir.

Record EntryInfo : Type := {
  entry_name : string;
  entry_type : FileType;
}.

Definition is_file (t : FileType) : bool :=
  match t with TFile => true | TDir => false end.

(** The sandbox provider: each call takes the provider's state and gives
    the call's outcome and the next state, so that a call may depend on
    everything that happened before it. *)
Class Provider : Type := {
  World : Type;
  Sandbox : Type;
  Sandbox_create : Z -> World -> Outcome Sandbox * World;
  commands_run : Sandbox -> string -> World -> Outcome unit * World;
  files_write : Sandbox -> string -> string -> World -> Outcome unit * World;
  runCode : Sandbox -> string -> string -> gmap string string -> World ->
            Outcome Execution * World;
  files_list : Sandbox -> string -> World -> Outcome (list EntryInfo) * World;
  files_read : Sandbox -> string -> World -> Outcome string * World;
  kill : Sandbox -> World -> Outcome unit * World;
}.

(** ** The adapter's monad: state, exceptions and [finally] *)

Definition M (S A : Type) : Type := S -> Outcome A * S.

Definition ret {S A : Type} (a : A) : M S A := fun s => (Ok a, s).

Definition bind {S A B : Type} (m : M S A) (k : A -> M S B) : M S B :=
  fun s =>
    match m s with
    | (Ok a, s') => k a s'
    | (Throw e, s') => (Throw e, s')
    end.

Declare Scope js_scope.
Delimit Scope js_scope with js.
Notation "x <- m ;; k" := (bind m (fun x => k))
  (at level 100, m at next level, right associativity) : js_scope.
Notation "m ;; k" := (bind m (fun _ => k))
  (at level 100, right associativity) : js_scope.
Open Scope js_scope.

(** [try { m } catch (err) { h err }]. *)
Definition try_catch {S A : Type} (m : M S A) (h : JsError -> M S A) : M S A :=
  fun s =>
    match m s with
    | (Ok a, s') => (Ok a, s')
    | (Throw e, s') => h e s'
    end.

(** [try { m } finally { f }]: [f] runs whether [m] returned or threw; an
    exception of [f] replaces the completion of [m]. *)
Definition try_finally {S A : Type} (m : M S A) (f : M S unit) : M S A :=
  fun s =>
    match m s with
    | (o, s') =>
        match f s' with
        | (Ok _, s'') => (o, s'')
        | (Throw e, s'') => (Throw e, s'')
        end
    end.

(** [for (const x of l) { body x }]. *)
Fixpoint for_of {S A : Type} (l : list A) (body : A -> M S unit) : M S unit :=
  match l with
  | [] => ret tt
  | x :: rest => body x ;; for_of rest body
  end.

(** An argument of [console.log]. *)
Inductive LogArg : Type :=
| LText (s : string)
| LKeys (l : list string)
| LValue (v : json).

Definition nl : string := String "010" EmptyString.

Section Runtime.
Context `{JB : JSONBuiltins} `{P : Provider}.

(** The calls made to the provider, each with its outcome. *)
Inductive Event : Type :=
| EvCreate (timeoutMs : Z) (r : Outcome Sandbox)
| EvCommand (cmd : string) (r : Outcome unit)
| EvWrite (path content : string) (r : Outcome unit)
| EvRunCode (code language : string) (envs : gmap string string)
            (r : Outcome Execution)
| EvList (path : string) (r : Outcome (list EntryInfo))
| EvRead (path : string) (r : Outcome string)
| EvKill (r : Outcome unit).

(** The state an invocation runs in: the provider's state, the number of
    clock readings taken, the provider calls and the console lines so far,
    and the two variables that outlive a [try] block ([sbx], assigned in the
    [try] and read in the [finally]; [outputFiles], filled inside the inner
    [try] and read after it). *)
Record St : Type := {
  world : World;
  ticks : nat;
  trace : list Event;
  console : list (list LogArg);
  sbx : option Sandbox;
  outputFiles : gmap string string;
}.

Definition initial (w : World) : St :=
  {| world := w; ticks := 0%nat; trace := []; console := [];
     sbx := None; outputFiles := ∅ |}.

(** A call to the provider: the outcome is recorded in the trace. *)
Definition call {A : Type} (op : World -> Outcome A * World)
    (ev : Outcome A -> Event) : M St A :=
  fun s =>
    match op (world s) with
    | (o, w') =>
        (o, {| world := w'; ticks := ticks s; trace := trace s ++ [ev o];
               console := console s; sbx := sbx s;
               outputFiles := outputFiles s |})
    end.

Definition Date_now (clock : nat -> Z) : M St Z :=
  fun s =>
    (Ok (clock (ticks s)),
     {| world := world s; ticks := S (ticks s); trace := trace s;
        console := console s; sbx := sbx s; outputFiles := outputFiles s |}).

Definition console_log (line : list LogArg) : M St unit :=
  fun s =>
    (Ok tt,
     {| world := world s; ticks := ticks s; trace := trace s;
        console := console s ++ [line]; sbx := sbx s;
        outputFiles := outputFiles s |}).

Definition set_sbx (h : Sandbox) : M St unit :=
  fun s =>
    (Ok tt,
     {| world := world s; ticks := ticks s; trace := trace s;
        console := console s; sbx := Some h; outputFiles := outputFiles s |}).

Definition get_sbx : M St (option Sandbox) := fun s => (Ok (sbx s), s).

Definition set_outputFiles (o : gmap string string) : M St unit :=
  fun s =>
    (Ok tt,
     {| world := world s; ticks := ticks s; trace := trace s;
        console := console s; sbx := sbx s; outputFiles := o |}).

Definition get_outputFiles : M St (gmap string string) :=
  fun s => (Ok (outputFiles s), s).

(** *** Environment forwarding (exec_ts.ts, lines 100-117) *)

Definition forwarded (key : string) : bool :=
  endsWith key "_API_KEY" || startsWith key "API_KEY_" ||
  startsWith key "BASE_URL_".

(** One turn of the loop over [Object.entries(process.env)], and the loop. *)
Definition passStep (envVars : gmap string string)
    (entry : string * option string) : gmap string string :=
  let '(key, value) := entry in
  if forwarded key then <[key := js_or value EmptyString]> envVars
  else envVars.

Definition passThrough (process_env : gmap string (option string))
    : gmap string string :=
  foldl passStep ∅ (map_to_list process_env).

(** [if (args) { envVars.ARGS_JSON = JSON.stringify(args); }]. *)
Definition injectArgs (args : option json) (envVars : gmap string string)
    : gmap string string :=
  match args with
  | Some v => if truthy v then <["ARGS_JSON" := JSON_stringify v]> envVars
              else envVars
  | None => envVars
  end.

Definition buildEnvVars (process_env : gmap string (option string))
    (args : option json) : gmap string string :=
  injectArgs args (passThrough process_env).

(** *** Result extraction (lines 132-146) *)

(** [execution.error ? JSON.stringify(execution.error, null, 2) : undefined]. *)
Definition errorOf (execution : Execution) : option string :=
  match execution_error execution with
  | Some e => Some (JSON_stringify_pretty (json_of_ExecutionError e))
  | None => None
  end.

(** The inner [try]: a SyntaxError of [JSON.parse] leaves [result]
    [undefined]. *)
Definition extractResult (stdout : string) : option (jsvalue jsString) :=
  match jsonMatch stdout with
  | Some m => match JSON_parse m with
              | Some v => Some v
              | None => None
              end
  | None => None
  end.

(** *** Output collection (lines 148-173) *)

Definition excludeFiles : list string :=
  [".bashrc"; ".bash_logout"; ".profile"; "package.json"; "package-lock.json"].

Definition collectable (file : EntryInfo) : bool :=
  is_file (entry_type file) && negb (endsWith (entry_name file) ".ts") &&
  negb (includes excludeFiles (entry_name file)).

(** [outputFiles[name] = content] on an object created by [{}]: the name
    [__proto__] is the accessor of [Object.prototype], whose setter
    ignores a string, so that assignment leaves the object as it is; every
    other name becomes an own property. *)
Definition assignProperty (name content : string) (o : gmap string string)
    : gmap string string :=
  if String.eqb name "__proto__" then o else <[name := content]> o.

(** The body of the loop over the listing. *)
Definition readOne (h : Sandbox) (file : EntryInfo) : M St unit :=
  if collectable file then
    content <- call (files_read h ("/home/user/" ++ entry_name file))
                    (EvRead ("/home/user/" ++ entry_name file)) ;;
    o <- get_outputFiles ;;
    set_outputFiles (assignProperty (entry_name file) content o)
  else ret tt.

(** The inner [try]: a failure of the listing or of a read is ignored. *)
Definition readBack (h : Sandbox) : M St unit :=
  try_catch
    (fileList <- call (files_list h "/home/user") (EvList "/home/user") ;;
     for_of fileList (readOne h))
    (fun _ => ret tt).

(** [Object.keys(outputFiles).length > 0 ? outputFiles : undefined]. *)
Definition filesOf (o : gmap string string) : option (gmap string string) :=
  if (0 <? Z.of_nat (size o)) then Some o else None.

(** [for (const [path, content] of Object.entries(files))]. *)
Definition writeFiles (h : Sandbox) (files : option (list (string * string)))
    : M St unit :=
  match files with
  | Some entries =>
      for_of entries (fun '(path, content) =>
        call (files_write h ("/home/user/" ++ path) content)
             (EvWrite ("/home/user/" ++ path) content))
  | None => ret tt
  end.

(** [finally { if (sbx) { await sbx.kill(); } }]. *)
Definition killSandbox : M St unit :=
  s <- get_sbx ;;
  match s with
  | Some h => call (kill h) EvKill
  | None => ret tt
  end.

(** The result of the [catch] block, for a given fallback text. *)
Definition caught (err : JsError) (fallback : string) : ExecResult :=
  {| stdout := EmptyString;
     stderr := js_or (message err) fallback;
     files := None;
     result := None;
     error := Some (js_or (message err) fallback) |}.

End Runtime.

(** What the summary lines print for the optional parameters. *)
Definition logDependencies (dependencies : option (list string)) : LogArg :=
  match dependencies with
  | Some d => LKeys d
  | None => LText "none"
  end.

Definition logFiles (files : option (list (string * string))) : LogArg :=
  match files with
  | Some entries => LKeys (map fst entries)
  | None => LText "none"
  end.

Definition logArgs (args : option json) : LogArg :=
  match args with
  | Some v => if truthy v then LValue v else LText "none"
  | None => LText "none"
  end.

(** [dependencies && dependencies.length > 0]. *)
Definition hasDependencies (dependencies : option (list string)) : bool :=
  match dependencies with
  | Some d => 0 <? Z.of_nat (length d)
  | None => false
  end.

Definition packagesOf (dependencies : option (list string)) : string :=
  match dependencies with
  | Some d => join " " d
  | None => EmptyString
  end.

(** ** The timing-instrumented adapter (exec_ts.ts, lines 59-200) *)
Module Instrumented.
Section Adapter.
Context `{JB : JSONBuiltins} `{P : Provider}.
Variable clock : nat -> Z.
Variable process_env : gmap string (option string).

(** Lines 84-91: one batched [npm install], if there are dependencies. *)
Definition installDependencies (h : Sandbox)
    (dependencies : option (list string)) : M St unit :=
  if hasDependencies dependencies then
    installStartTime <- Date_now clock ;;
    call (commands_run h ("npm install " ++ packagesOf dependencies))
         (EvCommand ("npm install " ++ packagesOf dependencies)) ;;
    installEnd <- Date_now clock ;;
    console_log [LText ("dependencies installed in " ++
                        pretty (installEnd - installStartTime) ++ "ms")]
  else ret tt.

Definition try_block (startTime : Z) (code : string)
    (dependencies : option (list string))
    (files : option (list (string * string))) (args : option json)
    : M St ExecResult :=
  sandboxStartTime <- Date_now clock ;;
  h <- call (Sandbox_create 30000) (EvCreate 30000) ;;
  set_sbx h ;;
  sandboxEnd <- Date_now clock ;;
  console_log [LText ("sandbox created in " ++
                      pretty (sandboxEnd - sandboxStartTime) ++ "ms")] ;;
  installDependencies h dependencies ;;
  writeFiles h files ;;
  let envVars := buildEnvVars process_env args in
  execStartTime <- Date_now clock ;;
  execution <- call (runCode h code "ts" envVars)
                    (EvRunCode code "ts" envVars) ;;
  execEnd <- Date_now clock ;;
  console_log [LText ("code executed in " ++
                      pretty (execEnd - execStartTime) ++ "ms")] ;;
  let stdout := join EmptyString (logs_stdout execution) in
  let stderr := join EmptyString (logs_stderr execution) in
  let result := extractResult stdout in
  let error := errorOf execution in
  set_outputFiles ∅ ;;
  readBack h ;;
  totalEnd <- Date_now clock ;;
  console_log [LText ("total execution time: " ++
                      pretty (totalEnd - startTime) ++ "ms" ++ nl)] ;;
  outputFiles <- get_outputFiles ;;
  ret {| stdout := stdout; stderr := stderr; files := filesOf outputFiles;
         result := result; error := error |}.

Definition catch_block (startTime : Z) (err : JsError) : M St ExecResult :=
  totalEnd <- Date_now clock ;;
  console_log [LText ("total execution time (error): " ++
                      pretty (totalEnd - startTime) ++ "ms" ++ nl)] ;;
  ret (caught err "unknown error").

Definition executeTypeScript (code : string)
    (dependencies : option (list string))
    (files : option (list (string * string))) (args : option json)
    : M St ExecResult :=
  startTime <- Date_now clock ;;
  console_log [LText (nl ++ "=== exec_ts call ===")] ;;
  console_log [LText "dependencies:"; logDependencies dependencies] ;;
  console_log [LText "files:"; logFiles files] ;;
  console_log [LText "args:"; logArgs args] ;;
  console_log [LText ("========================" ++ nl)] ;;
  try_finally
    (try_catch (try_block startTime code dependencies files args)
               (catch_block startTime))
    killSandbox.

End Adapter.
End Instrumented.

(** ** The adapter without timing (the second copy of exec_ts.ts) *)
Module Plain.
Section Adapter.
Context `{JB : JSONBuiltins} `{P : Provider}.
Variable process_env : gmap string (option string).

Definition installDependencies (h : Sandbox)
    (dependencies : option (list string)) : M St unit :=
  if hasDependencies dependencies then
    call (commands_run h ("npm install " ++ packagesOf dependencies))
         (EvCommand ("npm install " ++ packagesOf dependencies))
  else ret tt.

Definition try_block (code : string) (dependencies : option (list string))
    (files : option (list (string * string))) (args : option json)
    : M St ExecResult :=
  h <- call (Sandbox_create 30000) (EvCreate 30000) ;;
  set_sbx h ;;
  installDependencies h dependencies ;;
  writeFiles h files ;;
  let envVars := buildEnvVars process_env args in
  execution <- call (runCode h code "ts" envVars)
                    (EvRunCode code "ts" envVars) ;;
  let stdout := join EmptyString (logs_stdout execution) in
  let stderr := join EmptyString (logs_stderr execution) in
  let result := extractResult stdout in
  let error := errorOf execution in
  set_outputFiles ∅ ;;
  readBack h ;;
  outputFiles <- get_outputFiles ;;
  ret {| stdout := stdout; stderr := stderr; files := filesOf outputFiles;
         result := result; error := error |}.

Definition catch_block (err : JsError) : M St ExecResult :=
  ret (caught err "Unknown error").

Definition executeTypeScript (code : string)
    (dependencies : option (list string))
    (files : option (list (string * string))) (args : option json)
    : M St ExecResult :=
  console_log [LText (nl ++ "=== EXEC_TS TOOL CALL ===")] ;;
  console_log [LText "Dependencies:"; logDependencies dependencies] ;;
  console_log [LText "Files:"; logFiles files] ;;
  console_log [LText "Args:"; logArgs args] ;;
  console_log [LText ("Code:" ++ nl); LText code] ;;
  console_log [LText ("========================" ++ nl)] ;;
  try_finally
    (try_catch (try_block code dependencies files args) catch_block)
    killSandbox.

End Adapter.
End Plain.

(** ** A model of the number conversions *)

(** Number::toString and StringToNumber of ECMAScript on the doubles, by
    exact integer arithmetic. *)
Module Number.

(** The number of decimal digits of a positive integer. *)
Definition decimalLength (m : Z) : Z :=
  Z.of_nat (String.length (pretty (Z.to_N m))).

(** The Number value of the decimal [m * 10^e]: the nearest double, ties
    to even; past the range it is an infinity or a zero. *)
Definition ofDecimal (negative : bool) (m e : Z) : float :=
  match m with
  | Zpos p =>
      if 310 <? e + decimalLength m then
        if negative then neg_infinity else infinity
      else if e + decimalLength m <? -330 then
        if negative then neg_zero else zero
      else if 0 <=? e then
        SF2Prim (binary_round prec emax negative (Z.to_pos (m * 10 ^ e)) 0)
      else
        let '(q, e', l) := SFdiv_core_binary prec emax m 0 (10 ^ (- e)) 0 in
        SF2Prim (binary_round_aux prec emax negative q e' l)
  | _ => if negative then neg_zero else zero
  end.

(** [x * 10^q] as a fraction, for [x = m * 2^e]. *)
Definition scaled (m : positive) (e q : Z) : Z * Z :=
  (Zpos m * 2 ^ Z.max e 0 * 10 ^ Z.max q 0,
   2 ^ Z.max (- e) 0 * 10 ^ Z.max (- q) 0).

(** [x < 10^n]. *)
Definition below (m : positive) (e n : Z) : bool :=
  let '(num, den) := scaled m e (- n) in num <? den.

(** The [n] with [10^(n-1) <= x < 10^n]. *)
Definition magnitude (m : positive) (e : Z) : Z :=
  let estimate := (Zpos (digits2_pos m) + e) * 30103 / 100000 in
  match List.filter (below m e)
          [estimate - 2; estimate - 1; estimate; estimate + 1; estimate + 2;
           estimate + 3] with
  | n :: _ => n
  | [] => estimate
  end.

(** The decimals [s * 10^(n-k)] of [k] digits on either side of [x], the
    nearer one first (the even one on a tie). *)
Definition candidates (m : positive) (e n k : Z) : list (Z * Z) :=
  let '(num, den) := scaled m e (k - n) in
  let lower := num / den in
  let remainder := num - lower * den in
  let under := (lower, n) in
  let over :=
    if lower + 1 <? 10 ^ k then (lower + 1, n) else (10 ^ (k - 1), n + 1) in
  match 2 * remainder ?= den with
  | Lt => [under; over]
  | Gt => [over; under]
  | Eq => if Z.even lower then [under; over] else [over; under]
  end.

Definition roundsTo (x : float) (k : Z) (c : Z * Z) : bool :=
  PrimFloat.eqb (ofDecimal false (fst c) (snd c - k)) x.

(** The digits [s] and the exponent [n] of Number::toString: the fewest
    digits that read back as [x], and among those the nearest. *)
Fixpoint shortestFrom (fuel : nat) (x : float) (m : positive) (e n k : Z)
    : Z * Z :=
  match List.filter (roundsTo x k) (candidates m e n k) with
  | c :: _ => c
  | [] =>
      match fuel with
      | S fuel' => shortestFrom fuel' x m e n (k + 1)
      | O => (Zpos m * 2 ^ Z.max e 0, n)
      end
  end.

Definition shortest (x : float) (m : positive) (e : Z) : Z * Z :=
  shortestFrom 16 x m e (magnitude m e) 1.

Fixpoint zeros (n : nat) : string :=
  match n with
  | O => EmptyString
  | S n' => String "0" (zeros n')
  end.

Fixpoint takeChars (n : nat) (s : string) : string :=
  match n, s with
  | S n', String c s' => String c (takeChars n' s')
  | _, _ => EmptyString
  end.

Fixpoint dropChars (n : nat) (s : string) : string :=
  match n, s with
  | S n', String _ s' => dropChars n' s'
  | _, _ => s
  end.

(** The exponent part of the scientific form. *)
Definition exponentPart (n : Z) : string :=
  String "e" ((if n - 1 <? 0 then "-" else "+") ++
              pretty (Z.to_N (Z.abs (n - 1)))).

(** Number::toString, the steps that lay out the digits [d] for the
    exponent [n]. *)
Definition format (d : string) (n : Z) : string :=
  let k := Z.of_nat (String.length d) in
  if (k <=? n) && (n <=? 21) then d ++ zeros (Z.to_nat (n - k))
  else if (0 <? n) && (n <=? 21) then
    takeChars (Z.to_nat n) d ++ String "." (dropChars (Z.to_nat n) d)
  else if (-6 <? n) && (n <=? 0) then
    String "0" (String "." (zeros (Z.to_nat (- n)) ++ d))
  else
    match dropChars 1 d with
    | EmptyString => d ++ exponentPart n
    | String _ _ =>
        takeChars 1 d ++ String "." (dropChars 1 d ++ exponentPart n)
    end.

(** Number::toString of a finite number; [None] for NaN and the
    infinities. *)
Definition toString (x : float) : option string :=
  match Prim2SF x with
  | S754_zero _ => Some "0"
  | S754_finite negative m e =>
      let '(s, n) := shortest (abs x) m e in
      Some ((if negative then "-" else EmptyString) ++
            format (pretty (N.pos (Z.to_pos s))) n)
  | _ => None
  end.

End Number.

(** ** A model of the JSON built-ins *)

(** [JSON.stringify] and [JSON.parse] of ECMAScript.  The text is a string
    of 8-bit code units; the strings of a parsed value are sequences of
    16-bit code units, which the escapes of the text can denote. *)
Module JSON.

Definition dquote : ascii := "034"%char.
Definition backslash : ascii := "092"%char.

Definition hexDigit (n : N) : ascii :=
  if (n <? 10)%N then ascii_of_N (48 + n) else ascii_of_N (87 + n).

(** QuoteJSONString: the escapes of one character. *)
Definition quoteChar (c : ascii) : string :=
  let n := N_of_ascii c in
  if Ascii.eqb c dquote then String backslash (String dquote EmptyString)
  else if Ascii.eqb c backslash then String backslash (String backslash EmptyString)
  else if (n =? 8)%N then String backslash "b"
  else if (n =? 12)%N then String backslash "f"
  else if (n =? 10)%N then String backslash "n"
  else if (n =? 13)%N then String backslash "r"
  else if (n =? 9)%N then String backslash "t"
  else if (n <? 32)%N then
    String backslash
      ("u00" ++ String (hexDigit (n / 16)) (String (hexDigit (n mod 16)) EmptyString))
  else String c EmptyString.

Fixpoint quoteBody (s : string) : string :=
  match s with
  | EmptyString => EmptyString
  | String c s' => quoteChar c ++ quoteBody s'
  end.

Definition quote (s : string) : string :=
  String dquote (quoteBody s ++ String dquote EmptyString).

(** *** The own properties of an object *)

Definition isDigit (c : ascii) : bool :=
  let n := N_of_ascii c in (48 <=? n)%N && (n <=? 57)%N.

Definition digitValue (c : ascii) : Z := Z.of_N (N_of_ascii c) - 48.

Fixpoint allDigits (s : string) : bool :=
  match s with
  | EmptyString => true
  | String c s' => isDigit c && allDigits s'
  end.

(** The value of a sequence of decimal digits read after [acc]. *)
Fixpoint digitsValue (acc : Z) (s : string) : Z :=
  match s with
  | EmptyString => acc
  | String c s' => digitsValue (10 * acc + digitValue c) s'
  end.

(** An array index: the canonical decimal form of an integer from 0 to
    2^32 - 2. *)
Definition arrayIndex (s : string) : option Z :=
  match s with
  | EmptyString => None
  | String c rest =>
      if allDigits s && (String.length s <=? 10)%nat &&
         (negb (Ascii.eqb c "0") || String.eqb rest EmptyString) &&
         (digitsValue 0 s <=? 4294967294)
      then Some (digitsValue 0 s)
      else None
  end.

Fixpoint unitsEqb (a b : jsString) : bool :=
  match a, b with
  | [], [] => true
  | (h1, l1) :: a', (h2, l2) :: b' =>
      Ascii.eqb h1 h2 && Ascii.eqb l1 l2 && unitsEqb a' b'
  | _, _ => false
  end.

(** The 8-bit string with the code units of [k], if none is above 255. *)
Fixpoint narrow (k : jsString) : option string :=
  match k with
  | [] => Some EmptyString
  | (h, l) :: k' =>
      if Ascii.eqb h Ascii.zero then
        match narrow k' with
        | Some s => Some (String l s)
        | None => None
        end
      else None
  end.

Definition arrayIndexOfUnits (k : jsString) : option Z :=
  match narrow k with
  | Some s => arrayIndex s
  | None => None
  end.

Section Properties.
Context {K V : Type}.
Variable keyEqb : K -> K -> bool.
Variable indexOf : K -> option Z.

Definition hasMember (k : K) (members : list (K * V)) : bool :=
  existsb (fun kv => keyEqb k (fst kv)) members.

Fixpoint replaceMember (k : K) (v : V) (members : list (K * V))
    : list (K * V) :=
  match members with
  | [] => []
  | (k', v') :: rest =>
      if keyEqb k k' then (k, v) :: rest
      else (k', v') :: replaceMember k v rest
  end.

(** The place of a new array index [i]: after the smaller indices. *)
Fixpoint insertIndex (i : Z) (k : K) (v : V) (members : list (K * V))
    : list (K * V) :=
  match members with
  | [] => [(k, v)]
  | (k', v') :: rest =>
      match indexOf k' with
      | Some j =>
          if j <? i then (k', v') :: insertIndex i k v rest
          else (k, v) :: members
      | None => (k, v) :: members
      end
  end.

(** CreateDataProperty, with the members in the order of
    OrdinaryOwnPropertyKeys: the array indices ascending, then the other
    keys as they were created; a key that is there keeps its place and
    takes the new value. *)
Definition setMember (k : K) (v : V) (members : list (K * V))
    : list (K * V) :=
  if hasMember k members then replaceMember k v members
  else match indexOf k with
       | Some i => insertIndex i k v members
       | None => (members ++ [(k, v)])%list
       end.

(** The object that has the given members defined one after the other. *)
Definition ownProperties (members : list (K * V)) : list (K * V) :=
  fold_left (fun acc kv => setMember (fst kv) (snd kv) acc) members [].

End Properties.

(** *** [JSON.stringify] *)

(** SerializeJSONProperty with [gap] and the current [indent]; an empty
    [gap] gives the compact form.  A number that is not finite is printed
    as [null]. *)
Fixpoint serialize (gap indent : string) (v : json) : string :=
  let stepback := indent in
  let indent := indent ++ gap in
  let separator :=
    if js_string_truthy gap then "," ++ nl ++ indent else "," in
  let wrap (opening closing : string) (partial : list string) :=
    match partial with
    | [] => opening ++ closing
    | _ :: _ =>
        if js_string_truthy gap then
          opening ++ nl ++ indent ++ join separator partial ++ nl ++
          stepback ++ closing
        else opening ++ join separator partial ++ closing
    end in
  match v with
  | JNull => "null"
  | JBool true => "true"
  | JBool false => "false"
  | JNum x =>
      match Number.toString x with
      | Some text => text
      | None => "null"
      end
  | JStr s => quote s
  | JArr items => wrap "[" "]" (List.map (serialize gap indent) items)
  | JObj members =>
      wrap "{" "}"
        (List.map (fun kt =>
                     quote (fst kt) ++
                     (if js_string_truthy gap then ": " else ":") ++ snd kt)
           (ownProperties String.eqb arrayIndex
              (List.map (fun kv => (fst kv, serialize gap indent (snd kv)))
                 members)))
  end.

Definition stringify (v : json) : string := serialize EmptyString EmptyString v.

Definition stringify_pretty (v : json) : string := serialize "  " EmptyString v.

(** The text of one member of an object in the compact form. *)
Definition memberText (kv : string * json) : string :=
  quote (fst kv) ++ ":" ++ stringify (snd kv).

(** *** [JSON.parse] *)

Definition isWhitespace (c : ascii) : bool :=
  let n := N_of_ascii c in
  (n =? 32)%N || (n =? 9)%N || (n =? 10)%N || (n =? 13)%N.

Fixpoint skipWhitespace (s : string) : string :=
  match s with
  | String c s' => if isWhitespace c then skipWhitespace s' else s
  | EmptyString => s
  end.

Definition hexValue (c : ascii) : option N :=
  let n := N_of_ascii c in
  if (48 <=? n)%N && (n <=? 57)%N then Some (n - 48)%N
  else if (97 <=? n)%N && (n <=? 102)%N then Some (n - 87)%N
  else if (65 <=? n)%N && (n <=? 70)%N then Some (n - 55)%N
  else None.

(** The longest run of digits at the start of a text, and what follows
    it. *)
Fixpoint spanDigits (s : string) : string * string :=
  match s with
  | String c s' =>
      if isDigit c then
        let '(d, r) := spanDigits s' in (String c d, r)
      else (EmptyString, s)
  | EmptyString => (EmptyString, EmptyString)
  end.

(** The integer part of a number: a lone zero, or digits that start with
    a digit from 1 to 9. *)
Definition scanInteger (s : string) : option (string * string) :=
  match s with
  | String c s' =>
      if Ascii.eqb c "0" then Some ("0", s')
      else if isDigit c then Some (spanDigits s)
      else None
  | EmptyString => None
  end.

(** The optional fraction: a point and at least one digit. *)
Definition scanFraction (s : string) : option (string * string) :=
  match s with
  | String c s' =>
      if Ascii.eqb c "." then
        match spanDigits s' with
        | (EmptyString, _) => None
        | (d, r) => Some (d, r)
        end
      else Some (EmptyString, s)
  | EmptyString => Some (EmptyString, s)
  end.

(** The optional exponent: [e] or [E], a sign if any, at least one
    digit. *)
Definition scanExponent (s : string) : option (Z * string) :=
  match s with
  | String c s' =>
      if Ascii.eqb c "e" || Ascii.eqb c "E" then
        let '(negative, s'') :=
          match s' with
          | String sign t =>
              if Ascii.eqb sign "-" then (true, t)
              else if Ascii.eqb sign "+" then (false, t)
              else (false, s')
          | EmptyString => (false, s')
          end in
        match spanDigits s'' with
        | (EmptyString, _) => None
        | (d, r) =>
            Some (if negative then - digitsValue 0 d else digitsValue 0 d, r)
        end
      else Some (0, s)
  | EmptyString => Some (0, s)
  end.

(** The digits of a number without its sign: the integer they spell and
    the power of ten that goes with it. *)
Definition scanUnsigned (s : string) : option (Z * Z * string) :=
  match scanInteger s with
  | Some (int, s2) =>
      match scanFraction s2 with
      | Some (frac, s3) =>
          match scanExponent s3 with
          | Some (e, s4) =>
              Some (digitsValue 0 (int ++ frac),
                    e - Z.of_nat (String.length frac), s4)
          | None => None
          end
      | None => None
      end
  | None => None
  end.

(** A number of the JSON grammar and its Number value. *)
Definition parseNumber (s : string) : option (float * string) :=
  match s with
  | String c t =>
      if Ascii.eqb c "-" then
        match scanUnsigned t with
        | Some (m, e, r) => Some (Number.ofDecimal true m e, r)
        | None => None
        end
      else
        match scanUnsigned s with
        | Some (m, e, r) => Some (Number.ofDecimal false m e, r)
        | None => None
        end
  | EmptyString => None
  end.

(** The characters of a string literal after its opening quote. *)
Fixpoint parseChars (s : string) : option (jsString * string) :=
  match s with
  | EmptyString => None
  | String c s' =>
      if Ascii.eqb c dquote then Some ([], s')
      else if Ascii.eqb c backslash then
        match s' with
        | String e s'' =>
            let continue (u : CodeUnit) (rest : string) :=
              match parseChars rest with
              | Some (body, r) => Some (u :: body, r)
              | None => None
              end in
            if Ascii.eqb e dquote then continue (codeUnit dquote) s''
            else if Ascii.eqb e backslash then continue (codeUnit backslash) s''
            else if Ascii.eqb e "/" then continue (codeUnit "/") s''
            else if Ascii.eqb e "b" then continue (codeUnit "008") s''
            else if Ascii.eqb e "f" then continue (codeUnit "012") s''
            else if Ascii.eqb e "n" then continue (codeUnit "010") s''
            else if Ascii.eqb e "r" then continue (codeUnit "013") s''
            else if Ascii.eqb e "t" then continue (codeUnit "009") s''
            else if Ascii.eqb e "u" then
              match s'' with
              | String h1 (String h2 (String h3 (String h4 rest))) =>
                  match hexValue h1, hexValue h2, hexValue h3, hexValue h4 with
                  | Some a, Some b, Some c', Some d =>
                      continue (ascii_of_N (16 * a + b),
                                ascii_of_N (16 * c' + d)) rest
                  | _, _, _, _ => None
                  end
              | _ => None
              end
            else None
        | EmptyString => None
        end
      else if (N_of_ascii c <? 32)%N then None
      else
        match parseChars s' with
        | Some (body, r) => Some (codeUnit c :: body, r)
        | None => None
        end
  end.

(** What is left of [s] after the literal [lit], if [s] starts with it. *)
Fixpoint expect (lit : string) (s : string) : option string :=
  match lit, s with
  | EmptyString, _ => Some s
  | String a lit', String b s' =>
      if Ascii.eqb a b then expect lit' s' else None
  | String _ _, EmptyString => None
  end.

Definition defineMember (k : jsString) (v : jsvalue jsString)
    (members : list (jsString * jsvalue jsString))
    : list (jsString * jsvalue jsString) :=
  setMember unitsEqb arrayIndexOfUnits k v members.

Fixpoint parseValue (fuel : nat) (s : string)
    : option (jsvalue jsString * string) :=
  match fuel with
  | O => None
  | S fuel' =>
      match skipWhitespace s with
      | EmptyString => None
      | String c rest =>
          if Ascii.eqb c "n" then
            match expect "ull" rest with
            | Some r => Some (JNull, r) | None => None end
          else if Ascii.eqb c "t" then
            match expect "rue" rest with
            | Some r => Some (JBool true, r) | None => None end
          else if Ascii.eqb c "f" then
            match expect "alse" rest with
            | Some r => Some (JBool false, r) | None => None end
          else if Ascii.eqb c dquote then
            match parseChars rest with
            | Some (str, r) => Some (JStr str, r) | None => None end
          else if Ascii.eqb c "[" then
            match skipWhitespace rest with
            | String c' r' =>
                if Ascii.eqb c' "]" then Some (JArr [], r')
                else parseElements fuel' rest []
            | EmptyString => None
            end
          else if Ascii.eqb c "{" then
            match skipWhitespace rest with
            | String c' r' =>
                if Ascii.eqb c' "}" then Some (JObj [], r')
                else parseMembers fuel' rest []
            | EmptyString => None
            end
          else
            match parseNumber (String c rest) with
            | Some (x, r) => Some (JNum x, r) | None => None end
      end
  end
with parseElements (fuel : nat) (s : string) (acc : list (jsvalue jsString))
    : option (jsvalue jsString * string) :=
  match fuel with
  | O => None
  | S fuel' =>
      match parseValue fuel' s with
      | Some (v, r) =>
          match skipWhitespace r with
          | String c r' =>
              if Ascii.eqb c "," then parseElements fuel' r' (acc ++ [v])
              else if Ascii.eqb c "]" then Some (JArr (acc ++ [v]), r')
              else None
          | EmptyString => None
          end
      | None => None
      end
  end
with parseMembers (fuel : nat) (s : string)
    (acc : list (jsString * jsvalue jsString))
    : option (jsvalue jsString * string) :=
  match fuel with
  | O => None
  | S fuel' =>
      match skipWhitespace s with
      | String q afterQuote =>
          if Ascii.eqb q dquote then
            match parseChars afterQuote with
            | Some (k, afterKey) =>
                match skipWhitespace afterKey with
                | String colon afterColon =>
                    if Ascii.eqb colon ":" then
                      match parseValue fuel' afterColon with
                      | Some (v, r) =>
                          match skipWhitespace r with
                          | String c r' =>
                              if Ascii.eqb c "," then
                                parseMembers fuel' r' (defineMember k v acc)
                              else if Ascii.eqb c "}" then
                                Some (JObj (defineMember k v acc), r')
                              else None
                          | EmptyString => None
                          end
                      | None => None
                      end
                    else None
                | EmptyString => None
                end
            | None => None
            end
          else None
      | EmptyString => None
      end
  end.

(** [JSON.parse(text)]: one value, then only white space.  The fuel, one
    more than the length of the text, is never short: no value takes more
    fuel than it has characters. *)
Definition parse (text : string) : option (jsvalue jsString) :=
  match parseValue (S (String.length text)) text with
  | Some (v, rest) =>
      match skipWhitespace rest with
      | EmptyString => Some v
      | String _ _ => None
      end
  | None => None
  end.

(** *** What a printed value reads back as *)

(** What may follow a value: the end of the text, a comma or a closing
    bracket. *)
Definition delimited (rest : string) : bool :=
  match rest with
  | EmptyString => true
  | String c _ => Ascii.eqb c "," || Ascii.eqb c "]" || Ascii.eqb c "}"
  end.

(** The text [t] is read as the value [v], whatever delimiter follows
    it. *)
Definition readsAs (t : string) (v : jsvalue jsString) : Prop :=
  forall fuel rest,
    (String.length t < fuel)%nat ->
    delimited rest = true ->
    parseValue fuel (t ++ rest) = Some (v, rest).

(** The number that the printed form of [x] is read as. *)
Definition reread (x : float) : float :=
  match Number.toString x with
  | Some text =>
      match parseNumber text with
      | Some (y, _) => y
      | None => x
      end
  | None => x
  end.

(** The value that the compact text of [v] is read as. *)
Fixpoint reparse (v : json) : jsvalue jsString :=
  match v with
  | JNull => JNull
  | JBool b => JBool b
  | JNum x =>
      match Number.toString x with
      | Some _ => JNum (reread x)
      | None => JNull
      end
  | JStr s => JStr (widen s)
  | JArr items => JArr (List.map reparse items)
  | JObj members =>
      JObj (ownProperties unitsEqb arrayIndexOfUnits
              (List.map (fun kv => (widen (fst kv), snd kv))
                 (ownProperties String.eqb arrayIndex
                    (List.map (fun kv => (fst kv, reparse (snd kv)))
                       members))))
  end.

(** A value that comes back from its text as it is: its numbers are
    finite and read back as themselves, and the members of its objects are
    in the order of their keys' enumeration, each key once. *)
Fixpoint plain (v : json) : Prop :=
  match v with
  | JNum x => Number.toString x <> None /\ reread x = x
  | JArr items => fold_right (fun x rest => plain x /\ rest) True items
  | JObj members =>
      ownProperties String.eqb arrayIndex members = members /\
      fold_right (fun kv rest => plain (snd kv) /\ rest) True members
  | _ => True
  end.

End JSON.

#[export] Instance ECMAScript_JSON : JSONBuiltins := {
  JSON_stringify := JSON.stringify;
  JSON_stringify_pretty := JSON.stringify_pretty;
  JSON_parse := JSON.parse;
}.

(** ** One invocation *)

(** The canonical (instrumented) adapter, run from a fresh invocation
    state: the completion ([Ok r] when it returns [r], [Throw e] when its
    promise rejects with [e]) and the final state. *)
Definition invoke `{JB : JSONBuiltins} `{P : Provider} (clock : nat -> Z)
    (process_env : gmap string (option string)) (code : string)
    (dependencies : option (list string))
    (files : option (list (string * string))) (args : option json)
    (w : World) : Outcome ExecResult * St :=
  Instrumented.executeTypeScript clock process_env code dependencies files
    args (initial w).

Definition invoke_plain `{JB : JSONBuiltins} `{P : Provider}
    (process_env : gmap string (option string)) (code : string)
    (dependencies : option (list string))
    (files : option (list (string * string))) (args : option json)
    (w : World) : Outcome ExecResult * St :=
  Plain.executeTypeScript process_env code dependencies files args (initial w).

(** *** Reading a trace *)

Section Traces.
Context `{P : Provider}.

Definition failed {A : Type} (r : Outcome A) : option JsError :=
  match r with
  | Ok _ => None
  | Throw e => Some e
  end.

(** The exception a provider call ended in, if it did. *)
Definition failureOf (ev : Event) : option JsError :=
  match ev with
  | EvCreate _ r => failed r
  | EvCommand _ r => failed r
  | EvWrite _ _ r => failed r
  | EvRunCode _ _ _ r => failed r
  | EvList _ r => failed r
  | EvRead _ r => failed r
  | EvKill r => failed r
  end.

Definition isTeardown (ev : Event) : bool :=
  match ev with EvKill _ => true | _ => false end.

Definition isCollecting (ev : Event) : bool :=
  match ev with EvList _ _ | EvRead _ _ => true | _ => false end.

(** A call of provisioning, installation, staging or execution that threw. *)
Definition fatal (ev : Event) : bool :=
  match failureOf ev with
  | Some _ => negb (isCollecting ev) && negb (isTeardown ev)
  | None => false
  end.

Definition collectionFailed (ev : Event) : bool :=
  match failureOf ev with
  | Some _ => isCollecting ev
  | None => false
  end.

Definition teardownFailed (ev : Event) : bool :=
  match failureOf ev with
  | Some _ => isTeardown ev
  | None => false
  end.

(** How often teardown was attempted. *)
Definition teardowns (t : list Event) : nat :=
  length (List.filter isTeardown t).

End Traces.

(** ** A scripted sandbox *)

(** A provider whose answers are fixed in advance: the state is the script
    itself and no call changes it. *)
Record Script : Type := {
  on_create : Outcome unit;
  on_command : string -> Outcome unit;
  on_write : string -> string -> Outcome unit;
  on_runCode : string -> gmap string string -> Outcome Execution;
  on_list : Outcome (list EntryInfo);
  on_read : string -> Outcome string;
  on_kill : Outcome unit;
}.

#[export] Instance Scripted : Provider := {
  World := Script;
  Sandbox := unit;
  Sandbox_create := fun _ w => (on_create w, w);
  commands_run := fun _ cmd w => (on_command w cmd, w);
  files_write := fun _ path content w => (on_write w path content, w);
  runCode := fun _ code _ envs w => (on_runCode w code envs, w);
  files_list := fun _ _ w => (on_list w, w);
  files_read := fun _ path w => (on_read w path, w);
  kill := fun _ w => (on_kill w, w);
}.

Definition quoted (s : string) : string :=
  String JSON.dquote (s ++ String JSON.dquote EmptyString).

(** A run that prints one JSON object and leaves [report.csv] next to the
    files the sandbox image and npm put there. *)
Definition demo_stdout : string :=
  "log line" ++ nl ++ "{" ++ quoted "ok" ++ ":true," ++ quoted "data" ++
  ":5}" ++ nl ++ "trailing".

Definition demo_listing : list EntryInfo :=
  [ {| entry_name := "package.json"; entry_type := TFile |};
    {| entry_name := ".bashrc"; entry_type := TFile |};
    {| entry_name := "program.ts"; entry_type := TFile |};
    {| entry_name := "node_modules"; entry_type := TDir |};
    {| entry_name := "report.csv"; entry_type := TFile |} ].

Definition healthy_execution : Execution :=
  {| logs_stdout := ["log line" ++ nl; "{" ++ quoted "ok" ++ ":true,";
                     quoted "data" ++ ":5}" ++ nl; "trailing"];
     logs_stderr := [];
     execution_error := None |}.

Definition healthy : Script :=
  {| on_create := Ok tt;
     on_command := fun _ => Ok tt;
     on_write := fun _ _ => Ok tt;
     on_runCode := fun _ _ => Ok healthy_execution;
     on_list := Ok demo_listing;
     on_read := fun path => Ok ("contents of " ++ path);
     on_kill := Ok tt |}.

(** What the adapter returns for it. *)
Definition healthy_result : ExecResult :=
  {| stdout := demo_stdout;
     stderr := EmptyString;
     files := Some {["report.csv" := "contents of /home/user/report.csv"]};
     result := Some (widenValue (JObj [("ok", JBool true); ("data", JNum 5)]));
     error := None |}.

Definition boom : JsError := {| message := Some "boom" |}.

Definition silent_error : JsError := {| message := Some EmptyString |}.

(** Scripts that differ from [healthy] in one call. *)
Definition no_sandbox (e : JsError) : Script :=
  {| on_create := Throw e;
     on_command := on_command healthy; on_write := on_write healthy;
     on_runCode := on_runCode healthy; on_list := on_list healthy;
     on_read := on_read healthy; on_kill := on_kill healthy |}.

Definition write_fails : Script :=
  {| on_create := Ok tt;
     on_command := on_command healthy; on_write := fun _ _ => Throw boom;
     on_runCode := on_runCode healthy; on_list := on_list healthy;
     on_read := on_read healthy; on_kill := on_kill healthy |}.

Definition kill_fails : Script :=
  {| on_create := Ok tt;
     on_command := on_command healthy; on_write := on_write healthy;
     on_runCode := on_runCode healthy; on_list := on_list healthy;
     on_read := on_read healthy; on_kill := Throw boom |}.

Definition read_fails : Script :=
  {| on_create := Ok tt;
     on_command := on_command healthy; on_write := on_write healthy;
     on_runCode := on_runCode healthy; on_list := on_list healthy;
     on_read := fun _ => Throw boom; on_kill := on_kill healthy |}.

Definition list_fails : Script :=
  {| on_create := Ok tt;
     on_command := on_command healthy; on_write := on_write healthy;
     on_runCode := on_runCode healthy; on_list := Throw boom;
     on_read := on_read healthy; on_kill := on_kill healthy |}.

(** The program printed two JSON objects, one on each line. *)
Definition first_object : string := "{" ++ quoted "a" ++ ":1}".

Definition second_object : string := "{" ++ quoted "b" ++ ":2}".

Definition two_objects : Script :=
  {| on_create := Ok tt;
     on_command := on_command healthy; on_write := on_write healthy;
     on_runCode := fun _ _ =>
       Ok {| logs_stdout := [first_object ++ nl; second_object ++ nl];
             logs_stderr := [];
             execution_error := None |};
     on_list := on_list healthy;
     on_read := on_read healthy; on_kill := on_kill healthy |}.

(** The program left a file named [__proto__] next to [report.csv]. *)
Definition proto_listing : list EntryInfo :=
  [ {| entry_name := "__proto__"; entry_type := TFile |};
    {| entry_name := "report.csv"; entry_type := TFile |} ].

Definition proto_file : Script :=
  {| on_create := Ok tt;
     on_command := on_command healthy; on_write := on_write healthy;
     on_runCode := on_runCode healthy; on_list := Ok proto_listing;
     on_read := on_read healthy; on_kill := on_kill healthy |}.

(** The program printed a JSON object and then died: the sandbox reports
    the fault next to the output. *)
Definition late_fault : ExecutionError :=
  {| ee_name := "Error"; ee_value := "late"; ee_traceback := "at main" |}.

Definition faulted : Script :=
  {| on_create := Ok tt;
     on_command := on_command healthy; on_write := on_write healthy;
     on_runCode := fun _ _ =>
       Ok {| logs_stdout := ["{}"];
             logs_stderr := ["Error: late"];
             execution_error := Some late_fault |};
     on_list := on_list healthy;
     on_read := on_read healthy; on_kill := on_kill healthy |}.

Definition faulted_result : ExecResult :=
  {| stdout := "{}";
     stderr := "Error: late";
     files := Some {["report.csv" := "contents of /home/user/report.csv"]};
     result := Some (JObj []);
     error := Some (JSON.stringify_pretty (json_of_ExecutionError late_fault)) |}.

Definition wall_clock (i : nat) : Z := 1000 + 7 * Z.of_nat i.

Definition demo_env : gmap string (option string) :=
  <["SECRET_TOKEN" := Some "x"]>
    (<["MY_API_KEY" := Some "y"]>
       (<["API_KEY_FOO" := Some "z"]>
          (<["BASE_URL_BAR" := Some "w"]>
             (<["EMPTY_API_KEY" := None]> ∅)))).

Definition demo_args : json := JObj [("n", JNum 3); ("tag", JStr "x")].

(** ** The shape of a run, read off its trace *)

(** [occurs c s]: the character [c] occurs in [s]. *)
Fixpoint occurs (c : ascii) (s : string) : bool :=
  match s with
  | EmptyString => false
  | String a s' => Ascii.eqb a c || occurs c s'
  end.

(** [m] is the span of [out] from its first opening brace to its last
    closing brace. *)
Definition firstBraceSpan (out m : string) : Prop :=
  exists pre mid post,
    out = pre ++ m ++ post /\
    m = String "{" (mid ++ "}") /\
    occurs "{" pre = false /\
    occurs "}" post = false.

Section Shape.
Context `{JB : JSONBuiltins} `{P : Provider}.

(** An installation or staging call that returned. *)
Definition setupOk (ev : Event) : bool :=
  match ev with
  | EvCommand _ (Ok _) => true
  | EvWrite _ _ (Ok _) => true
  | _ => false
  end.

(** The call at which the [try] block was left for the [catch] block. *)
Definition abortsWith (code : string) (envs : gmap string string)
    (ev : Event) (e : JsError) : Prop :=
  match ev with
  | EvCommand _ (Throw e') => e' = e
  | EvWrite _ _ (Throw e') => e' = e
  | EvRunCode c l v (Throw e') => e' = e /\ c = code /\ l = "ts" /\ v = envs
  | _ => False
  end.

(** The read-back loop over a listing: the reads it makes and the
    [outputFiles] it leaves, from the [outputFiles] it starts with. *)
Inductive ReadLoop : list EntryInfo -> gmap string string -> list Event ->
    gmap string string -> Prop :=
| RL_done o : ReadLoop [] o [] o
| RL_skip f rest o evs o' :
    collectable f = false ->
    ReadLoop rest o evs o' ->
    ReadLoop (f :: rest) o evs o'
| RL_read f rest o content evs o' :
    collectable f = true ->
    ReadLoop rest (assignProperty (entry_name f) content o) evs o' ->
    ReadLoop (f :: rest) o
      (EvRead ("/home/user/" ++ entry_name f) (Ok content) :: evs) o'
| RL_fail f rest o e :
    collectable f = true ->
    ReadLoop (f :: rest) o
      [EvRead ("/home/user/" ++ entry_name f) (Throw e)] o.

Inductive Collected : Outcome (list EntryInfo) -> list Event ->
    gmap string string -> Prop :=
| Coll_unlisted e : Collected (Throw e) [] ∅
| Coll_listed fileList reads o :
    ReadLoop fileList ∅ reads o ->
    Collected (Ok fileList) reads o.

(** What the [try]/[catch] pair leaves behind: either the error that was
    caught, or the execution and the collected files. *)
Inductive Attempt (code : string) (envs : gmap string string) :
    list Event -> option Sandbox ->
    JsError + Execution * gmap string string -> Prop :=
| At_unprovisioned e :
    Attempt code envs [EvCreate 30000 (Throw e)] None (inl e)
| At_aborted h setup last e :
    forallb setupOk setup = true ->
    abortsWith code envs last e ->
    Attempt code envs (EvCreate 30000 (Ok h) :: setup ++ [last]) (Some h)
      (inl e)
| At_completed h setup execution listing reads o :
    forallb setupOk setup = true ->
    Collected listing reads o ->
    Attempt code envs
      (EvCreate 30000 (Ok h) :: setup ++
       EvRunCode code "ts" envs (Ok execution) ::
       EvList "/home/user" listing :: reads)
      (Some h) (inr (execution, o)).

(** The object the adapter returns after an attempt. *)
Definition resultOf (fallback : string)
    (a : JsError + Execution * gmap string string) : ExecResult :=
  match a with
  | inl e => caught e fallback
  | inr (execution, o) =>
      {| stdout := join EmptyString (logs_stdout execution);
         stderr := join EmptyString (logs_stderr execution);
         files := filesOf o;
         result := extractResult (join EmptyString (logs_stdout execution));
         error := errorOf execution |}
  end.

(** A whole invocation: the attempt, then the [finally] block. *)
Inductive Run (fallback code : string) (envs : gmap string string) :
    list Event -> Outcome ExecResult -> Prop :=
| Run_unprovisioned evs a :
    Attempt code envs evs None a ->
    Run fallback code envs evs (Ok (resultOf fallback a))
| Run_killed evs h a :
    Attempt code envs evs (Some h) a ->
    Run fallback code envs (evs ++ [EvKill (Ok tt)]) (Ok (resultOf fallback a))
| Run_kill_failed evs h a e :
    Attempt code envs evs (Some h) a ->
    Run fallback code envs (evs ++ [EvKill (Throw e)]) (Throw e).

(** The environment the program was started with, the execution it ended
    in and the listing that was read back, as the trace has them. *)
Definition eventEnvs (ev : Event) : option (gmap string string) :=
  match ev with
  | EvRunCode _ _ envs _ => Some envs
  | _ => None
  end.

Definition eventExecution (ev : Event) : option Execution :=
  match ev with
  | EvRunCode _ _ _ (Ok execution) => Some execution
  | _ => None
  end.

Definition eventListing (ev : Event) : option (list EntryInfo) :=
  match ev with
  | EvList _ (Ok fileList) => Some fileList
  | _ => None
  end.

Definition envsOf (t : list Event) : option (gmap string string) :=
  head (omap eventEnvs t).

Definition executionOf (t : list Event) : option Execution :=
  head (omap eventExecution t).

Definition listingOf (t : list Event) : option (list EntryInfo) :=
  head (omap eventListing t).

(** The contents successfully read back from [path]. *)
Definition readOk (t : list Event) (path content : string) : Prop :=
  EvRead path (Ok content) ∈ t.

(** The sandbox reported a runtime fault for the executed program. *)
Definition faultReported (t : list Event) : bool :=
  match executionOf t with
  | Some execution =>
      match execution_error execution with Some _ => true | None => false end
  | None => false
  end.

End Shape.

(** The names the forwarding rule selects, and the names the read-back
    keeps, in words. *)
Definition forwardedName (key : string) : Prop :=
  (exists stem, key = stem ++ "_API_KEY") \/
  (exists rest, key = "API_KEY_" ++ rest) \/
  (exists rest, key = "BASE_URL_" ++ rest).

Definition collectableEntry (f : EntryInfo) : Prop :=
  entry_type f = TFile /\
  (forall stem, entry_name f <> stem ++ ".ts") /\
  entry_name f ∉ excludeFiles.

(** Both copies agree up to the text reported for an error without a
    message. *)
Definition sameUpToFallback (a b : Outcome ExecResult) : Prop :=
  a = b \/
  exists e, js_or (message e) EmptyString = EmptyString /\
            a = Ok (caught e "unknown error") /\
            b = Ok (caught e "Unknown error").


(** ** Comparing the two copies *)

Section Comparison.
Context `{JB : JSONBuiltins} `{P : Provider}.

(** The part of the state that the sandbox and the result depend on:
    everything but the clock readings and the console. *)
Definition core (s : St)
    : World * list Event * option Sandbox * gmap string string :=
  (world s, trace s, sbx s, outputFiles s).

(** [m1] and [m2], started in states with the same core, complete in
    [R]-related ways and in states with the same core. *)
Definition sim {A B : Type} (R : Outcome A -> Outcome B -> Prop)
    (m1 : M St A) (m2 : M St B) : Prop :=
  forall s1 s2,
    core s1 = core s2 ->
    R (fst (m1 s1)) (fst (m2 s2)) /\ core (snd (m1 s1)) = core (snd (m2 s2)).

(** A step that returns and leaves the core alone (a clock reading, a
    console line). *)
Definition quiet {A : Type} (m : M St A) : Prop :=
  forall s, (exists a, fst (m s) = Ok a) /\ core (snd (m s)) = core s.

End Comparison.


(** ** The order of the provider calls *)

Section Timeline.
Context `{JB : JSONBuiltins} `{P : Provider}.

(** [Object.entries(files)], with no entry when [files] is [undefined]. *)
Definition entriesOf (files : option (list (string * string)))
    : list (string * string) :=
  match files with
  | Some entries => entries
  | None => []
  end.

(** The one command of the install step. *)
Definition installCommand (dependencies : option (list string)) : string :=
  "npm install " ++ packagesOf dependencies.

(** The path and content of every staged file, as [files.write] gets them. *)
Definition stagedFiles (files : option (list (string * string)))
    : list (string * string) :=
  List.map (fun entry => ("/home/user/" ++ fst entry, snd entry))
    (entriesOf files).

(** The writes of the staging loop, and the error it stopped at. *)
Inductive Staged : list (string * string) -> list Event ->
    option JsError -> Prop :=
| Staged_done : Staged [] [] None
| Staged_written path content rest evs stopped :
    Staged rest evs stopped ->
    Staged ((path, content) :: rest)
      (EvWrite ("/home/user/" ++ path) content (Ok tt) :: evs) stopped
| Staged_thrown path content rest e :
    Staged ((path, content) :: rest)
      [EvWrite ("/home/user/" ++ path) content (Throw e)] (Some e).

(** Installation and staging: the calls, and the error they stopped at. *)
Inductive Setup (dependencies : option (list string))
    (files : option (list (string * string))) :
    list Event -> option JsError -> Prop :=
| Setup_without_install writes stopped :
    hasDependencies dependencies = false ->
    Staged (entriesOf files) writes stopped ->
    Setup dependencies files writes stopped
| Setup_installed writes stopped :
    hasDependencies dependencies = true ->
    Staged (entriesOf files) writes stopped ->
    Setup dependencies files
      (EvCommand (installCommand dependencies) (Ok tt) :: writes) stopped
| Setup_install_thrown e :
    hasDependencies dependencies = true ->
    Setup dependencies files
      [EvCommand (installCommand dependencies) (Throw e)] (Some e).

(** The calls of the [try] block, the handle left in [sbx], the exception
    the [catch] block caught, if it ran, and the object that the [try] or
    the [catch] block returns. *)
Inductive Body (fallback : string) (dependencies : option (list string))
    (files : option (list (string * string))) (code : string)
    (envs : gmap string string) :
    list Event -> option Sandbox -> option JsError -> ExecResult -> Prop :=
| Body_unprovisioned e :
    Body fallback dependencies files code envs
      [EvCreate 30000 (Throw e)] None (Some e) (caught e fallback)
| Body_setup_thrown h setup e :
    Setup dependencies files setup (Some e) ->
    Body fallback dependencies files code envs
      (EvCreate 30000 (Ok h) :: setup) (Some h) (Some e) (caught e fallback)
| Body_run_thrown h setup e :
    Setup dependencies files setup None ->
    Body fallback dependencies files code envs
      (EvCreate 30000 (Ok h) :: setup ++
       [EvRunCode code "ts" envs (Throw e)])
      (Some h) (Some e) (caught e fallback)
| Body_completed h setup execution listing reads o :
    Setup dependencies files setup None ->
    Collected listing reads o ->
    Body fallback dependencies files code envs
      (EvCreate 30000 (Ok h) :: setup ++
       EvRunCode code "ts" envs (Ok execution) ::
       EvList "/home/user" listing :: reads)
      (Some h) None (resultOf fallback (inr (execution, o))).

(** What the adapter completes with after the [finally] block. *)
Definition settle (killed : Outcome unit) (r : ExecResult)
    : Outcome ExecResult :=
  match killed with
  | Ok _ => Ok r
  | Throw e => Throw e
  end.

Inductive Timeline (fallback : string) (dependencies : option (list string))
    (files : option (list (string * string))) (code : string)
    (envs : gmap string string) :
    option JsError -> list Event -> Outcome ExecResult -> Prop :=
| Timeline_no_sandbox body thrown r :
    Body fallback dependencies files code envs body None thrown r ->
    Timeline fallback dependencies files code envs thrown body (Ok r)
| Timeline_killed body h thrown r killed :
    Body fallback dependencies files code envs body (Some h) thrown r ->
    Timeline fallback dependencies files code envs thrown
      (body ++ [EvKill killed]) (settle killed r).

(** The lines of the call summary (exec_ts.ts, lines 69-73) and the line
    with the total time (lines 176 and 187). *)
Definition summaryLines (dependencies : option (list string))
    (files : option (list (string * string))) (args : option json)
    : list (list LogArg) :=
  [ [LText (nl ++ "=== exec_ts call ===")];
    [LText "dependencies:"; logDependencies dependencies];
    [LText "files:"; logFiles files];
    [LText "args:"; logArgs args];
    [LText ("========================" ++ nl)] ].

Definition totalLine (thrown : option JsError) (totalDuration : Z)
    : list LogArg :=
  match thrown with
  | Some _ =>
      [LText ("total execution time (error): " ++ pretty totalDuration ++
              "ms" ++ nl)]
  | None =>
      [LText ("total execution time: " ++ pretty totalDuration ++ "ms" ++
              nl)]
  end.

(** The arguments of the calls of each kind, in call order. *)
Definition eventTimeout (ev : Event) : option Z :=
  match ev with EvCreate timeoutMs _ => Some timeoutMs | _ => None end.

Definition eventCommand (ev : Event) : option string :=
  match ev with EvCommand cmd _ => Some cmd | _ => None end.

Definition eventWrite (ev : Event) : option (string * string) :=
  match ev with EvWrite path content _ => Some (path, content) | _ => None end.

Definition eventRun (ev : Event) : option (string * string) :=
  match ev with EvRunCode code language _ _ => Some (code, language) | _ => None end.

Definition eventRead (ev : Event) : option string :=
  match ev with EvRead path _ => Some path | _ => None end.

Definition eventListPath (ev : Event) : option string :=
  match ev with EvList path _ => Some path | _ => None end.

Definition createsOf (t : list Event) : list Z := omap eventTimeout t.
Definition listsOf (t : list Event) : list string := omap eventListPath t.
Definition commandsOf (t : list Event) : list string := omap eventCommand t.
Definition writesOf (t : list Event) : list (string * string) :=
  omap eventWrite t.
Definition runsOf (t : list Event) : list (string * string) := omap eventRun t.
Definition readsOf (t : list Event) : list string := omap eventRead t.

(** The error of the first provisioning, installation, staging or
    execution call that threw. *)
Definition eventThrown (ev : Event) : option JsError :=
  if fatal ev then failureOf ev else None.

Definition thrownOf (t : list Event) : option JsError :=
  head (omap eventThrown t).

(** A provisioning, installation or staging call that threw. *)
Definition setupFailed (ev : Event) : bool :=
  match ev with
  | EvCreate _ (Throw _) | EvCommand _ (Throw _) | EvWrite _ _ (Throw _) =>
      true
  | _ => false
  end.

(** The phase of the adapter a provider call belongs to. *)
Definition phase (ev : Event) : nat :=
  match ev with
  | EvCreate _ _ => 0
  | EvCommand _ _ => 1
  | EvWrite _ _ _ => 2
  | EvRunCode _ _ _ _ => 3
  | EvList _ _ => 4
  | EvRead _ _ => 5
  | EvKill _ => 6
  end.

Definition inOrder (ev1 ev2 : Event) : Prop := (phase ev1 <= phase ev2)%nat.

(** The paths the read-back loop reads for a listing. *)
Definition collectablePaths (fileList : list EntryInfo) : list string :=
  List.map (fun f => "/home/user/" ++ entry_name f)
    (List.filter collectable fileList).

End Timeline.

(** ** The agent's memory backend (agent0.ts, lines 15-42) *)

Module Agent0.

(** [process.env.NAME]: [undefined] when the variable is not set. *)
Definition env (process_env : gmap string (option string)) (name : string)
    : option string :=
  match process_env !! name with
  | Some value => value
  | None => None
  end.

Inductive Storage : Type :=
| PostgresStore (connectionString : option string)
| LibSQLStore (url : string).

Inductive Vector : Type :=
| PgVector (connectionString : option string)
| LibSQLVector (connectionUrl : string).

Record MemoryConfig : Type := {
  storage : Storage;
  vector : Vector;
  lastMessages : Z;
  semanticRecall : bool;
}.

(** [process.env.NODE_ENV === "production"]. *)
Definition isProduction (process_env : gmap string (option string)) : bool :=
  match env process_env "NODE_ENV" with
  | Some value => String.eqb value "production"
  | None => false
  end.

(** [process.env.DATABASE_URL && isProduction], as the conditional reads
    it. *)
Definition usePostgres (process_env : gmap string (option string)) : bool :=
  match env process_env "DATABASE_URL" with
  | Some value => js_string_truthy value && isProduction process_env
  | None => false
  end.

Definition memory (process_env : gmap string (option string))
    : MemoryConfig :=
  if usePostgres process_env then
    {| storage := PostgresStore (env process_env "DATABASE_URL");
       vector := PgVector (env process_env "DATABASE_URL");
       lastMessages := 10;
       semanticRecall := false |}
  else
    {| storage := LibSQLStore "file:./agent0-memory.db";
       vector := LibSQLVector "file:./agent0-memory.db";
       lastMessages := 10;
       semanticRecall := false |}.

End Agent0.

(** ** The skills module (skills/index.ts) *)

Module Skills.

Record SearchResult : Type := {
  title : string;
  url : string;
  snippet : string;
}.

Section Search.
(** The host's [fetch] followed by [response.text()],
    [encodeURIComponent], and the successive matches of [resultRegex] in a
    text, each with its two groups. *)
Variable fetchText : string -> Outcome string.
Variable encodeURIComponent : string -> string.
Variable resultMatches : string -> list (string * string).

(** [while ((match = resultRegex.exec(html)) && count < 10)]. *)
Fixpoint collectResults (matches : list (string * string)) (count : Z)
    (results : list SearchResult) : list SearchResult :=
  match matches with
  | [] => results
  | (group1, group2) :: rest =>
      if count <? 10 then
        collectResults rest (count + 1)
          (results ++ [{| title := group2; url := group1;
                          snippet := EmptyString |}])%list
      else results
  end.

Definition search_query (q : string) : Outcome (list SearchResult) :=
  match fetchText ("https://html.duckduckgo.com/html/?q=" ++
                   encodeURIComponent q) with
  | Ok html => Ok (collectResults (resultMatches html) 0 [])
  | Throw e => Throw e
  end.

End Search.

Section Stores.
(** The values of the key-value store, with [undefined] among them. *)
Variable Value : Type.
Variable undefined : Value.

(** The two module-level maps. *)
Record State : Type := {
  kvStore : gmap string Value;
  sessionFiles : gmap string string;
}.

Definition kv_get (key : string) : M State Value :=
  fun s => (Ok (default undefined (kvStore s !! key)), s).

Definition kv_put (key : string) (value : Value) : M State unit :=
  fun s =>
    (Ok tt, {| kvStore := <[key := value]> (kvStore s);
               sessionFiles := sessionFiles s |}).

Definition fs_readFile (path : string) : M State string :=
  fun s =>
    match sessionFiles s !! path with
    | Some content => (Ok content, s)
    | None => (Throw {| message := Some ("File not found: " ++ path) |}, s)
    end.

Definition fs_writeFile (path content : string) : M State unit :=
  fun s =>
    (Ok tt, {| kvStore := kvStore s;
               sessionFiles := <[path := content]> (sessionFiles s) |}).

(** [Object.fromEntries(sessionFiles)]. *)
Definition fs_getFiles : M State (gmap string string) :=
  fun s => (Ok (sessionFiles s), s).

Definition sessionFiles_clear : M State unit :=
  fun s => (Ok tt, {| kvStore := kvStore s; sessionFiles := ∅ |}).

Definition sessionFiles_set (entry : string * string) : M State unit :=
  fun s =>
    (Ok tt, {| kvStore := kvStore s;
               sessionFiles := <[fst entry := snd entry]> (sessionFiles s) |}).

Definition fs_setFiles (files : gmap string string) : M State unit :=
  sessionFiles_clear ;;
  for_of (map_to_list files) sessionFiles_set.

End Stores.

End Skills.

(** ** Inputs for the scripted sandbox *)

Definition demo_dependencies : list string := ["lodash"; "zod"].

Definition demo_files : list (string * string) :=
  [("input.csv", "a,b"); ("notes/readme.md", "hello")].

Definition demo_members : list (string * json) :=
  [("ok", JBool true); ("data", JNum 5)].

Definition faulted_execution : Execution :=
  {| logs_stdout := ["{}"];
     logs_stderr := ["Error: late"];
     execution_error := Some late_fault |}.

(** * Proofs *)

(** ** Strings and the forwarding rule *)

Lemma append_nil (r : string) : EmptyString ++ r = r.
Proof. reflexivity. Qed.

Lemma append_cons (a : ascii) (s r : string) :
  String a s ++ r = String a (s ++ r).
Proof. reflexivity. Qed.

Lemma append_nil_r (s : string) : s ++ EmptyString = s.
Proof.
  induction s as [|a s IH]; [reflexivity|].
  rewrite append_cons, IH. reflexivity.
Qed.

Lemma append_assoc (a b c : string) : (a ++ b) ++ c = a ++ (b ++ c).
Proof.
  induction a as [|x a IH]; [reflexivity|].
  rewrite !append_cons, IH. reflexivity.
Qed.

Lemma startsWith_spec (s p : string) :
  startsWith s p = true <-> exists r, s = p ++ r.
Proof.
  revert s. induction p as [|a p IH]; intros s; simpl.
  - split; [intros _; exists s; reflexivity | reflexivity].
  - destruct s as [|b s].
    + split; [discriminate | intros [r Hr]; rewrite append_cons in Hr; discriminate].
    + destruct (Ascii.eqb_spec a b) as [->|Hne].
      * rewrite IH. split; intros [r Hr]; exists r;
          rewrite append_cons in *; congruence.
      * split; [discriminate |].
        intros [r Hr]. rewrite append_cons in Hr. congruence.
Qed.

Lemma endsWith_unfold (s p : string) :
  endsWith s p =
  if String.eqb s p then true
  else match s with
       | EmptyString => false
       | String _ s' => endsWith s' p
       end.
Proof. destruct s; reflexivity. Qed.

Lemma endsWith_app (r p : string) : endsWith (r ++ p) p = true.
Proof.
  induction r as [|a r IH].
  - rewrite append_nil, endsWith_unfold, String.eqb_refl. reflexivity.
  - rewrite append_cons, endsWith_unfold, IH.
    destruct (String.eqb _ _); reflexivity.
Qed.

Lemma endsWith_spec (s p : string) :
  endsWith s p = true <-> exists r, s = r ++ p.
Proof.
  split.
  - induction s as [|a s IH]; rewrite endsWith_unfold.
    + destruct (String.eqb_spec EmptyString p) as [<-|_]; [|discriminate].
      intros _. exists EmptyString. reflexivity.
    + destruct (String.eqb_spec (String a s) p) as [<-|_].
      * intros _. exists EmptyString. reflexivity.
      * intros H. destruct (IH H) as [r ->]. exists (String a r). reflexivity.
  - intros [r ->]. apply endsWith_app.
Qed.

Lemma forwarded_spec (key : string) :
  forwarded key = true <-> forwardedName key.
Proof.
  unfold forwarded, forwardedName.
  rewrite !orb_true_iff, endsWith_spec, !startsWith_spec. tauto.
Qed.

Lemma includes_spec (l : list string) (x : string) :
  includes l x = true <-> x ∈ l.
Proof.
  unfold includes. rewrite existsb_exists, list_elem_of_In. split.
  - intros [y [Hy Heq]]. apply String.eqb_eq in Heq. congruence.
  - intros H. exists x. split; [assumption | apply String.eqb_refl].
Qed.

Lemma collectable_spec (f : EntryInfo) :
  collectable f = true <-> collectableEntry f.
Proof.
  unfold collectable, collectableEntry.
  rewrite !andb_true_iff, !negb_true_iff.
  split.
  - intros [[Ht Hts] Hex]. repeat split.
    + destruct (entry_type f); [reflexivity | discriminate].
    + intros stem Hstem.
      assert (endsWith (entry_name f) ".ts" = true) as Hends
        by (apply endsWith_spec; eauto).
      congruence.
    + intros Hin. apply includes_spec in Hin. congruence.
  - intros (Ht & Hts & Hex). repeat split.
    + rewrite Ht. reflexivity.
    + destruct (endsWith (entry_name f) ".ts") eqn:E; [|reflexivity].
      apply endsWith_spec in E. destruct E as [stem Hstem].
      exfalso. exact (Hts stem Hstem).
    + destruct (includes excludeFiles (entry_name f)) eqn:E; [|reflexivity].
      apply includes_spec in E. contradiction.
Qed.

(** ** The forwarded environment *)

Section Environment.
Context `{JB : JSONBuiltins}.

Lemma foldl_passStep_lookup (l : list (string * option string))
    (key : string) (x : string) :
  NoDup (l.*1) ->
  foldl passStep ∅ l !! key = Some x <->
  forwarded key = true /\
  exists value, (key, value) ∈ l /\ x = js_or value EmptyString.
Proof.
  induction l as [|[k v] l IH] using rev_ind; intros Hnd.
  - simpl. rewrite lookup_empty. split; [discriminate|].
    intros [_ [value [Hin _]]]. inversion Hin.
  - rewrite fmap_app in Hnd. apply NoDup_app in Hnd.
    destruct Hnd as (Hnd & Hfresh & _).
    rewrite foldl_app. simpl.
    destruct (forwarded k) eqn:Hk.
    + destruct (decide (k = key)) as [->|Hne].
      * rewrite lookup_insert_eq. split.
        -- intros [= <-]. split; [assumption|]. exists v.
           split; [|reflexivity].
           apply elem_of_app. right. apply list_elem_of_singleton. reflexivity.
        -- intros [_ [value [Hin ->]]]. f_equal.
           apply elem_of_app in Hin. destruct Hin as [Hin|Hin].
           ++ exfalso. apply (Hfresh key).
              ** apply list_elem_of_fmap. exists (key, value). auto.
              ** simpl. apply list_elem_of_singleton. reflexivity.
           ++ apply list_elem_of_singleton in Hin. congruence.
      * rewrite lookup_insert_ne by assumption. rewrite IH by assumption.
        split; intros [Hf [value [Hin ->]]]; (split; [assumption|]);
          exists value; (split; [|reflexivity]).
        -- apply elem_of_app. left. assumption.
        -- apply elem_of_app in Hin. destruct Hin as [Hin|Hin]; [assumption|].
           apply list_elem_of_singleton in Hin. congruence.
    + rewrite IH by assumption.
      split; intros [Hf [value [Hin ->]]]; (split; [assumption|]);
        exists value; (split; [|reflexivity]).
      * apply elem_of_app. left. assumption.
      * apply elem_of_app in Hin. destruct Hin as [Hin|Hin]; [assumption|].
        apply list_elem_of_singleton in Hin. congruence.
Qed.

(** The loop over the host environment keeps the forwarded names, with
    [""] for a value that is [undefined] or empty. *)
Lemma passThrough_lookup (process_env : gmap string (option string))
    (key : string) :
  passThrough process_env !! key =
  if forwarded key
  then (fun value => js_or value EmptyString) <$> process_env !! key
  else None.
Proof.
  unfold passThrough.
  pose proof (foldl_passStep_lookup (map_to_list process_env) key) as H.
  specialize (fun x => H x (NoDup_fst_map_to_list process_env)).
  destruct (foldl passStep ∅ (map_to_list process_env) !! key) as [x|] eqn:E.
  - destruct (proj1 (H x) eq_refl) as [Hf [value [Hin ->]]].
    rewrite Hf. apply elem_of_map_to_list in Hin. rewrite Hin. reflexivity.
  - destruct (forwarded key) eqn:Hf; [|reflexivity].
    destruct (process_env !! key) as [value|] eqn:Hv; [|reflexivity].
    exfalso. apply elem_of_map_to_list in Hv.
    assert (None = Some (js_or value EmptyString)) as Habs; [|discriminate].
    apply H. split; [reflexivity|]. exists value. auto.
Qed.

Lemma buildEnvVars_lookup (process_env : gmap string (option string))
    (args : option json) (key : string) :
  buildEnvVars process_env args !! key =
  match args with
  | Some v =>
      if truthy v && String.eqb key "ARGS_JSON" then Some (JSON_stringify v)
      else passThrough process_env !! key
  | None => passThrough process_env !! key
  end.
Proof.
  unfold buildEnvVars, injectArgs.
  destruct args as [v|]; [|reflexivity].
  destruct (truthy v); [|reflexivity]. simpl.
  destruct (String.eqb_spec key "ARGS_JSON") as [->|Hne].
  - apply lookup_insert_eq.
  - apply lookup_insert_ne. congruence.
Qed.

Lemma ARGS_JSON_not_forwarded : forwarded "ARGS_JSON" = false.
Proof. reflexivity. Qed.

End Environment.

(** ** The result pattern *)

Lemma greedy_None (s : string) :
  greedy_any_then_close s = None <-> occurs "}" s = false.
Proof.
  induction s as [|c s IH]; simpl.
  - tauto.
  - destruct (greedy_any_then_close s) as [m|].
    + split; [discriminate|]. intros H. apply orb_false_iff in H.
      destruct H as [_ H]. apply IH in H. discriminate.
    + destruct (Ascii.eqb c "}"); simpl.
      * split; discriminate.
      * split; intros _; [apply IH|]; reflexivity.
Qed.

Lemma greedy_Some (s m : string) :
  greedy_any_then_close s = Some m <->
  exists mid post,
    s = mid ++ String "}" post /\ m = mid ++ "}" /\ occurs "}" post = false.
Proof.
  split.
  - revert m. induction s as [|c s IH]; intros m; simpl; [discriminate|].
    destruct (greedy_any_then_close s) as [m'|] eqn:E.
    + intros [= <-]. destruct (IH m' eq_refl) as (mid & post & -> & -> & Hp).
      exists (String c mid), post. auto.
    + destruct (Ascii.eqb_spec c "}") as [->|_]; [|discriminate].
      intros [= <-]. exists EmptyString, s.
      repeat split. apply greedy_None. assumption.
  - intros (mid & post & -> & -> & Hp).
    induction mid as [|c mid IH].
    + rewrite !append_nil. simpl.
      apply greedy_None in Hp. rewrite Hp. reflexivity.
    + rewrite !append_cons. simpl. rewrite IH. reflexivity.
Qed.

Lemma jsonMatch_no_close (s : string) :
  occurs "}" s = false -> jsonMatch s = None.
Proof.
  induction s as [|c s IH]; simpl; [reflexivity|].
  intros H. apply orb_false_iff in H. destruct H as [_ H].
  rewrite (proj2 (greedy_None s) H), (IH H).
  destruct (Ascii.eqb c "{"); reflexivity.
Qed.

(** The match of [/\{[\s\S]*\}/] runs from the first opening brace to the
    last closing brace. *)
Lemma jsonMatch_spec (out m : string) :
  jsonMatch out = Some m <-> firstBraceSpan out m.
Proof.
  unfold firstBraceSpan. split.
  - revert m. induction out as [|c s IH]; intros m; simpl; [discriminate|].
    destruct (Ascii.eqb_spec c "{") as [->|Hc].
    + destruct (greedy_any_then_close s) as [m'|] eqn:E.
      * intros [= <-]. apply greedy_Some in E.
        destruct E as (mid & post & -> & -> & Hp).
        exists EmptyString, mid, post. rewrite append_nil, append_cons.
        rewrite append_assoc. auto.
      * intros H. apply greedy_None in E.
        rewrite (jsonMatch_no_close s E) in H. discriminate.
    + intros H. destruct (IH m H) as (pre & mid & post & -> & -> & Hpre & Hp).
      exists (String c pre), mid, post. repeat split; try assumption.
      simpl. rewrite Hpre.
      destruct (Ascii.eqb_spec c "{"); [contradiction | reflexivity].
  - intros (pre & mid & post & -> & -> & Hpre & Hp).
    induction pre as [|c pre IH].
    + rewrite append_nil, append_cons. simpl.
      assert (greedy_any_then_close ((mid ++ "}") ++ post) = Some (mid ++ "}"))
        as ->; [|reflexivity].
      apply greedy_Some. exists mid, post. rewrite append_assoc. auto.
    + simpl in Hpre. apply orb_false_iff in Hpre. destruct Hpre as [Hc Hpre].
      rewrite append_cons. simpl. rewrite Hc. apply IH. assumption.
Qed.

(** ** The blocks of the adapter *)

Section Blocks.
Context `{JB : JSONBuiltins} `{P : Provider}.

(** Staging makes only [files.write] calls and stops at the first one
    that throws. *)
Lemma writeFiles_run (h : Sandbox) (files : option (list (string * string)))
    (s s' : St) (r : Outcome unit) :
  writeFiles h files s = (r, s') ->
  exists evs,
    trace s' = (trace s ++ evs)%list /\
    sbx s' = sbx s /\
    match r with
    | Ok _ => forallb setupOk evs = true
    | Throw e =>
        exists pre path content,
          evs = (pre ++ [EvWrite path content (Throw e)])%list /\
          forallb setupOk pre = true
    end.
Proof.
  destruct files as [entries|]; simpl.
  2:{ intros [= <- <-]. exists []. rewrite app_nil_r. auto. }
  revert s. induction entries as [|[path content] rest IH]; intros s; simpl.
  - intros [= <- <-]. exists []. rewrite app_nil_r. auto.
  - unfold bind at 1, call at 1.
    destruct (files_write h ("/home/user/" ++ path) content (world s))
      as [[[]|e] w'] eqn:E.
    + intros Hrest. apply IH in Hrest.
      destruct Hrest as (evs & Ht & Hs & Ho). simpl in Ht, Hs.
      exists (EvWrite ("/home/user/" ++ path) content (Ok tt) :: evs).
      rewrite Ht, Hs, <- app_assoc. repeat split.
      destruct r as [[]|e].
      * simpl. assumption.
      * destruct Ho as (pre & p & c & -> & Hpre).
        exists (EvWrite ("/home/user/" ++ path) content (Ok tt) :: pre), p, c.
        auto.
    + intros [= <- <-]. simpl.
      exists [EvWrite ("/home/user/" ++ path) content (Throw e)].
      repeat split. exists [], ("/home/user/" ++ path), content. auto.
Qed.

(** The read-back loop follows [ReadLoop], whether it ends or throws. *)
Lemma readLoop_run (h : Sandbox) (fileList : list EntryInfo) (s s' : St)
    (r : Outcome unit) :
  for_of fileList (readOne h) s = (r, s') ->
  exists evs,
    trace s' = (trace s ++ evs)%list /\
    sbx s' = sbx s /\
    ReadLoop fileList (outputFiles s) evs (outputFiles s').
Proof.
  revert s. induction fileList as [|f rest IH]; intros s; simpl.
  - intros [= <- <-]. exists []. rewrite app_nil_r. repeat split. constructor.
  - unfold bind at 1, readOne at 1. destruct (collectable f) eqn:Hc.
    + unfold bind at 1, call at 1.
      destruct (files_read h ("/home/user/" ++ entry_name f) (world s))
        as [[content|e] w'] eqn:E; simpl.
      * intros Hrest. apply IH in Hrest.
        destruct Hrest as (evs & Ht & Hs & Ho). simpl in Ht, Hs, Ho.
        exists (EvRead ("/home/user/" ++ entry_name f) (Ok content) :: evs).
        rewrite Ht, Hs, <- app_assoc. repeat split.
        apply RL_read; assumption.
      * intros [= <- <-]. simpl.
        exists [EvRead ("/home/user/" ++ entry_name f) (Throw e)].
        repeat split. apply RL_fail. assumption.
    + simpl. intros Hrest. apply IH in Hrest.
      destruct Hrest as (evs & Ht & Hs & Ho).
      exists evs. repeat split; try assumption.
      apply RL_skip; assumption.
Qed.

(** Collection never throws: one listing, then the reads. *)
Lemma readBack_run (h : Sandbox) (s s' : St) (r : Outcome unit) :
  outputFiles s = ∅ ->
  readBack h s = (r, s') ->
  r = Ok tt /\
  exists listing reads,
    trace s' = (trace s ++ EvList "/home/user" listing :: reads)%list /\
    sbx s' = sbx s /\
    Collected listing reads (outputFiles s').
Proof.
  intros Hempty. unfold readBack, try_catch.
  unfold bind at 1, call at 1.
  destruct (files_list h "/home/user" (world s)) as [[fileList|e] w'] eqn:E.
  - match goal with |- context [for_of fileList ?b ?s0] =>
      destruct (for_of fileList b s0) as [[[]|e] s''] eqn:Eloop end;
      apply readLoop_run in Eloop;
      destruct Eloop as (evs & Ht & Hs & Ho); simpl in Ht, Hs, Ho;
      intros [= <- <-]; (split; [reflexivity|]);
      exists (Ok fileList), evs;
      rewrite Ht, <- app_assoc; (repeat split; try assumption);
      constructor; rewrite Hempty in Ho; assumption.
  - intros [= <- <-]. simpl. split; [reflexivity|]. exists (Throw e), [].
    repeat split. rewrite Hempty. constructor.
Qed.

End Blocks.

(** ** The whole adapter *)

Section Whole.
Context `{JB : JSONBuiltins} `{P : Provider}.

Ltac quiet_step :=
  cbv beta iota; unfold bind at 1;
  cbn [Date_now console_log set_sbx set_outputFiles get_outputFiles get_sbx
       ret world ticks trace console sbx outputFiles].

Lemma install_run (clock : nat -> Z) (h : Sandbox)
    (dependencies : option (list string)) (s s' : St) (r : Outcome unit) :
  Instrumented.installDependencies clock h dependencies s = (r, s') ->
  exists evs,
    trace s' = (trace s ++ evs)%list /\
    sbx s' = sbx s /\
    match r with
    | Ok _ => forallb setupOk evs = true
    | Throw e => exists cmd, evs = [EvCommand cmd (Throw e)]
    end.
Proof.
  unfold Instrumented.installDependencies.
  destruct (hasDependencies dependencies).
  - quiet_step. unfold bind at 1, call at 1.
    cbn [world ticks trace console sbx outputFiles].
    destruct (commands_run h _ (world s)) as [[[]|e] w'].
    + quiet_step. intros [= <- <-]. cbn.
      eexists [_]. repeat split.
    + intros [= <- <-]. cbn. eexists [_]. repeat split. eexists. reflexivity.
  - intros [= <- <-]. exists []. rewrite app_nil_r. auto.
Qed.

Lemma attempt_run (clock : nat -> Z)
    (process_env : gmap string (option string)) (startTime : Z)
    (code : string) (dependencies : option (list string))
    (files : option (list (string * string))) (args : option json)
    (s s' : St) (r : Outcome ExecResult) :
  sbx s = None ->
  try_catch
    (Instrumented.try_block clock process_env startTime code dependencies
       files args)
    (Instrumented.catch_block clock startTime) s = (r, s') ->
  exists evs a,
    r = Ok (resultOf "unknown error" a) /\
    trace s' = (trace s ++ evs)%list /\
    head evs = Some (EvCreate 30000 (fst (Sandbox_create 30000 (world s)))) /\
    Attempt code (buildEnvVars process_env args) evs (sbx s') a.
Proof.
  intros Hsbx. unfold try_catch, Instrumented.try_block, Instrumented.catch_block.
  quiet_step. unfold bind at 1, call at 1.
  cbn [world ticks trace console sbx outputFiles].
  destruct (Sandbox_create 30000 (world s)) as [[h|e] w1] eqn:Ecreate.
  2:{ do 2 quiet_step. intros [= <- <-]. cbn [trace sbx].
      exists [EvCreate 30000 (Throw e)], (inl e).
      rewrite Hsbx. repeat split. constructor. }
  do 3 quiet_step. unfold bind at 1.
  match goal with |- context [Instrumented.installDependencies clock h dependencies ?s0] =>
    destruct (Instrumented.installDependencies clock h dependencies s0)
      as [[[]|e] s1] eqn:Einstall;
    apply install_run in Einstall;
    destruct Einstall as (ev1 & Ht1 & Hs1 & Ho1);
    cbn [world ticks trace console sbx outputFiles] in Ht1, Hs1
  end.
  2:{ do 2 quiet_step. intros [= <- <-]. cbn [trace sbx].
      destruct Ho1 as [cmd ->].
      exists (EvCreate 30000 (Ok h) :: [] ++ [EvCommand cmd (Throw e)]), (inl e).
      split; [reflexivity|]. split.
      { rewrite Ht1, <- !app_assoc. reflexivity. }
      split; [reflexivity|].
      rewrite Hs1. apply At_aborted; [reflexivity | exact eq_refl]. }
  unfold bind at 1.
  destruct (writeFiles h files s1) as [[[]|e] s2] eqn:Ewrite;
    apply writeFiles_run in Ewrite;
    destruct Ewrite as (ev2 & Ht2 & Hs2 & Ho2).
  2:{ do 2 quiet_step. intros [= <- <-]. cbn [trace sbx].
      destruct Ho2 as (pre & path & content & -> & Hpre).
      exists (EvCreate 30000 (Ok h) ::
              (ev1 ++ pre) ++ [EvWrite path content (Throw e)]), (inl e).
      split; [reflexivity|]. split.
      { rewrite Ht2, Ht1, <- !app_assoc. reflexivity. }
      split; [reflexivity|].
      rewrite Hs2, Hs1. apply At_aborted; [|exact eq_refl].
      rewrite forallb_app, Ho1, Hpre. reflexivity. }
  quiet_step. unfold bind at 1, call at 1.
  cbn [world ticks trace console sbx outputFiles].
  destruct (runCode h code "ts" (buildEnvVars process_env args) (world s2))
    as [[execution|e] w3] eqn:Erun.
  2:{ do 2 quiet_step. intros [= <- <-]. cbn [trace sbx].
      exists (EvCreate 30000 (Ok h) :: (ev1 ++ ev2) ++
              [EvRunCode code "ts" (buildEnvVars process_env args) (Throw e)]),
        (inl e).
      split; [reflexivity|]. split.
      { rewrite Ht2, Ht1, <- !app_assoc. reflexivity. }
      split; [reflexivity|].
      rewrite Hs2, Hs1. apply At_aborted; [|repeat split].
      rewrite forallb_app, Ho1, Ho2. reflexivity. }
  do 3 quiet_step. unfold bind at 1.
  match goal with |- context [readBack h ?s0] =>
    destruct (readBack h s0) as [rb s4] eqn:Eback;
    apply readBack_run in Eback; [|reflexivity];
    destruct Eback as (-> & listing & reads & Ht4 & Hs4 & Hcoll);
    cbn [world ticks trace console sbx outputFiles] in Ht4, Hs4
  end.
  do 3 quiet_step. intros [= <- <-]. cbn [trace sbx outputFiles].
  exists (EvCreate 30000 (Ok h) :: (ev1 ++ ev2) ++
          EvRunCode code "ts" (buildEnvVars process_env args) (Ok execution) ::
          EvList "/home/user" listing :: reads),
    (inr (execution, outputFiles s4)).
  split; [reflexivity|]. split.
  { rewrite Ht4, Ht2, Ht1, <- !app_assoc. reflexivity. }
  split; [reflexivity|].
  rewrite Hs4, Hs2, Hs1. apply At_completed; [|assumption].
  rewrite forallb_app, Ho1, Ho2. reflexivity.
Qed.

(** Every invocation of the instrumented adapter is a [Run], and its first
    provider call is the provisioning. *)
Lemma invoke_run (clock : nat -> Z)
    (process_env : gmap string (option string)) (code : string)
    (dependencies : option (list string))
    (files : option (list (string * string))) (args : option json)
    (w : World) (r : Outcome ExecResult) (st : St) :
  invoke clock process_env code dependencies files args w = (r, st) ->
  Run "unknown error" code (buildEnvVars process_env args) (trace st) r /\
  head (trace st) = Some (EvCreate 30000 (fst (Sandbox_create 30000 w))).
Proof.
  unfold invoke, Instrumented.executeTypeScript.
  do 6 quiet_step. unfold try_finally.
  match goal with |- context [try_catch ?m ?c ?s0] =>
    destruct (try_catch m c s0) as [r1 s1] eqn:Etry;
    apply attempt_run in Etry; [|reflexivity];
    destruct Etry as (evs & a & -> & Ht & Hhead & Hat);
    cbn [world ticks trace console sbx outputFiles initial app] in Ht, Hhead
  end.
  unfold killSandbox. quiet_step.
  destruct (sbx s1) as [h|] eqn:Hsbx.
  - unfold call. destruct (kill h (world s1)) as [[[]|e] w'];
      intros [= <- <-]; cbn [trace]; rewrite Ht;
      (split; [|destruct evs; [discriminate | exact Hhead]]).
    + eapply Run_killed. eassumption.
    + eapply Run_kill_failed. eassumption.
  - intros [= <- <-]. rewrite Ht. split; [|assumption].
    apply Run_unprovisioned. assumption.
Qed.

End Whole.

(** ** Reading the trace of a run *)

Section Reading.
Context `{JB : JSONBuiltins} `{P : Provider}.

Lemma setup_readers (setup : list Event) :
  forallb setupOk setup = true ->
  omap eventEnvs setup = [] /\
  omap eventExecution setup = [] /\
  omap eventListing setup = [] /\
  existsb fatal setup = false /\
  existsb collectionFailed setup = false /\
  existsb teardownFailed setup = false /\
  List.filter isTeardown setup = [] /\
  (forall path content, EvRead path (Ok content) ∉ setup).
Proof.
  induction setup as [|ev setup IH]; simpl.
  - intros _. repeat split. intros path content Hin. inversion Hin.
  - intros H. apply andb_true_iff in H. destruct H as [Hev H].
    destruct (IH H) as (H1 & H2 & H3 & H4 & H5 & H6 & H7 & H8).
    destruct ev as [? ?|? [[]|?]|? ? [[]|?]|? ? ? ?|? ?|? ?|?];
      try discriminate Hev; simpl;
      rewrite ?H4, ?H5, ?H6, ?H7; repeat split; try assumption;
      intros path' content' Hin; apply elem_of_cons in Hin;
      destruct Hin as [Hin|Hin]; try discriminate Hin; exact (H8 _ _ Hin).
Qed.

Lemma reads_readers (fileList : list EntryInfo) (o o' : gmap string string)
    (reads : list Event) :
  ReadLoop fileList o reads o' ->
  omap eventEnvs reads = [] /\
  omap eventExecution reads = [] /\
  omap eventListing reads = [] /\
  existsb fatal reads = false /\
  existsb teardownFailed reads = false /\
  List.filter isTeardown reads = [].
Proof.
  induction 1 as [o|f rest o evs o' Hc _ IH|f rest o content evs o' Hc _ IH
                 |f rest o e Hc]; simpl; auto 10.
Qed.

(** What the loop leaves in [outputFiles] was there before or was read
    back from a collectable entry of the listing. *)
Lemma readLoop_sound (fileList : list EntryInfo) (o o' : gmap string string)
    (reads : list Event) (name content : string) :
  ReadLoop fileList o reads o' ->
  o' !! name = Some content ->
  o !! name = Some content \/
  exists f, f ∈ fileList /\ collectable f = true /\ entry_name f = name /\
            EvRead ("/home/user/" ++ name) (Ok content) ∈ reads.
Proof.
  induction 1 as [o|f rest o evs o' Hc _ IH|f rest o c evs o' Hc _ IH
                 |f rest o e Hc]; intros Hl.
  - left. assumption.
  - destruct (IH Hl) as [Ho|(g & Hg & Hcg & Hn & Hr)]; [left; assumption|].
    right. exists g. split; [apply elem_of_cons; right; assumption|]. auto.
  - destruct (IH Hl) as [Ho|(g & Hg & Hcg & Hn & Hr)].
    + unfold assignProperty in Ho.
      destruct (String.eqb (entry_name f) "__proto__"); [left; assumption|].
      destruct (decide (entry_name f = name)) as [<-|Hne].
      * rewrite lookup_insert_eq in Ho. injection Ho as <-.
        right. exists f. split; [apply elem_of_cons; left; reflexivity|].
        repeat split; try assumption. apply elem_of_cons. left. reflexivity.
      * rewrite lookup_insert_ne in Ho by assumption. left. assumption.
    + right. exists g. split; [apply elem_of_cons; right; assumption|].
      repeat split; try assumption. apply elem_of_cons. right. assumption.
  - left. assumption.
Qed.

Lemma readLoop_mono (fileList : list EntryInfo) (o o' : gmap string string)
    (reads : list Event) (name : string) :
  ReadLoop fileList o reads o' ->
  is_Some (o !! name) -> is_Some (o' !! name).
Proof.
  induction 1 as [o|f rest o evs o' Hc _ IH|f rest o c evs o' Hc _ IH
                 |f rest o e Hc]; intros Hs; auto.
  apply IH. unfold assignProperty.
  destruct (String.eqb (entry_name f) "__proto__"); [assumption|].
  destruct (decide (entry_name f = name)) as [<-|Hne].
  - rewrite lookup_insert_eq. eauto.
  - rewrite lookup_insert_ne by assumption. assumption.
Qed.

(** When no read throws, every collectable entry that is not named
    [__proto__] is read back. *)
Lemma readLoop_complete (fileList : list EntryInfo)
    (o o' : gmap string string) (reads : list Event) (f : EntryInfo) :
  ReadLoop fileList o reads o' ->
  existsb collectionFailed reads = false ->
  f ∈ fileList -> collectable f = true ->
  entry_name f <> "__proto__" ->
  is_Some (o' !! entry_name f).
Proof.
  induction 1 as [o|g rest o evs o' Hc Hloop IH|g rest o c evs o' Hc Hloop IH
                 |g rest o e Hc]; intros Hok Hin Hcf Hname.
  - inversion Hin.
  - apply elem_of_cons in Hin. destruct Hin as [->|Hin]; [congruence|].
    apply IH; assumption.
  - apply elem_of_cons in Hin. destruct Hin as [->|Hin].
    + eapply readLoop_mono; [eassumption|]. unfold assignProperty.
      apply String.eqb_neq in Hname. rewrite Hname.
      rewrite lookup_insert_eq. eauto.
    + apply IH; assumption.
  - discriminate Hok.
Qed.

(** The loop never stores anything under the name [__proto__]. *)
Lemma readLoop_proto (fileList : list EntryInfo) (o o' : gmap string string)
    (reads : list Event) :
  ReadLoop fileList o reads o' ->
  o !! "__proto__" = None -> o' !! "__proto__" = None.
Proof.
  induction 1 as [o|f rest o evs o' Hc _ IH|f rest o c evs o' Hc _ IH
                 |f rest o e Hc]; intros Hnone; auto.
  apply IH. unfold assignProperty.
  destruct (String.eqb (entry_name f) "__proto__") eqn:Hname;
    [assumption|].
  apply String.eqb_neq in Hname. rewrite lookup_insert_ne; assumption.
Qed.

Lemma filesOf_lookup (o : gmap string string) (name : string) :
  filesOf o ≫= (fun m => m !! name) = o !! name.
Proof.
  unfold filesOf. destruct (size o) eqn:E; simpl; [|reflexivity].
  apply map_size_empty_iff in E. subst o. rewrite lookup_empty. reflexivity.
Qed.

Lemma filesOf_nonempty (o : gmap string string) : filesOf o <> Some ∅.
Proof.
  unfold filesOf. destruct (size o) eqn:E; simpl; [discriminate|].
  intros [= ->]. rewrite map_size_empty in E. discriminate.
Qed.

Lemma filesOf_None (o : gmap string string) :
  filesOf o = None <-> o = ∅.
Proof.
  unfold filesOf. destruct (size o) eqn:E; simpl.
  - apply map_size_empty_iff in E. tauto.
  - split; [discriminate|]. intros ->. rewrite map_size_empty in E.
    discriminate.
Qed.

End Reading.

Section Summary.
Context `{JB : JSONBuiltins} `{P : Provider}.

Lemma attempt_readers (code : string) (envs : gmap string string)
    (evs : list Event) (sb : option Sandbox)
    (a : JsError + Execution * gmap string string) :
  Attempt code envs evs sb a ->
  List.filter isTeardown evs = [] /\
  existsb teardownFailed evs = false /\
  (forall v, envsOf evs = Some v -> v = envs) /\
  match a with
  | inl e =>
      existsb fatal evs = true /\ executionOf evs = None /\
      listingOf evs = None /\ existsb collectionFailed evs = false
  | inr (execution, o) =>
      existsb fatal evs = false /\
      executionOf evs = Some execution /\
      envsOf evs = Some envs /\
      exists listing reads,
        Collected listing reads o /\
        listingOf evs = eventListing (EvList "/home/user" listing) /\
        existsb collectionFailed evs =
          collectionFailed (EvList "/home/user" listing) ||
          existsb collectionFailed reads /\
        (forall path content,
           readOk evs path content <-> EvRead path (Ok content) ∈ reads)
  end.
Proof.
  intros Hat. unfold envsOf, executionOf, listingOf, readOk.
  destruct Hat as [e|h setup last e Hsetup Hlast
                  |h setup execution listing reads o Hsetup Hcoll].
  - simpl. repeat split; try reflexivity. discriminate.
  - destruct (setup_readers setup Hsetup)
      as (H1 & H2 & H3 & H4 & H5 & H6 & H7 & H8).
    cbn [omap list_omap eventEnvs eventExecution eventListing List.filter
         existsb isTeardown].
    change (list_omap Event) with (@omap list _ Event).
    rewrite !omap_app, List.filter_app, !existsb_app, H1, H2, H3, H4, H5, H6,
      H7.
    destruct last as [? ?|? [[]|?]|? ? [[]|?]|? ? ? [?|?]|? ?|? ?|?];
      try contradiction; simpl in Hlast; simpl.
    + repeat split; try reflexivity. discriminate.
    + repeat split; try reflexivity. discriminate.
    + destruct Hlast as (-> & -> & -> & ->).
      repeat split; try reflexivity. intros v [= <-]. reflexivity.
  - destruct (setup_readers setup Hsetup)
      as (H1 & H2 & H3 & H4 & H5 & H6 & H7 & H8).
    assert (exists fl o0, ReadLoop fl o0 reads o \/ reads = []) as Hreads.
    { destruct Hcoll as [e|fl reads o Hloop].
      - exists [], ∅. right. reflexivity.
      - exists fl, ∅. left. assumption. }
    destruct Hreads as (fl & o0 & Hreads).
    assert (omap eventEnvs reads = [] /\ omap eventExecution reads = [] /\
            omap eventListing reads = [] /\ existsb fatal reads = false /\
            existsb teardownFailed reads = false /\
            List.filter isTeardown reads = []) as (R1 & R2 & R3 & R4 & R5 & R6).
    { destruct Hreads as [Hloop| ->].
      - exact (reads_readers _ _ _ _ Hloop).
      - repeat split. }
    cbn [omap list_omap eventEnvs eventExecution eventListing List.filter
         existsb isTeardown].
    change (list_omap Event) with (@omap list _ Event).
    rewrite !omap_app, List.filter_app, !existsb_app, H1, H2, H3, H4, H5, H6,
      H7.
    cbn [omap list_omap eventEnvs eventExecution eventListing List.filter
         existsb isTeardown app head].
    change (list_omap Event) with (@omap list _ Event).
    rewrite R4, R5, R6.
    assert (fatal (EvList "/home/user" listing) = false) as ->
      by (destruct listing; reflexivity).
    assert (teardownFailed (EvList "/home/user" listing) = false) as ->
      by (destruct listing; reflexivity).
    repeat split; try reflexivity.
    + intros v [= <-]. reflexivity.
    + exists listing, reads. split; [assumption|]. split.
      { destruct listing; simpl; [reflexivity|]. rewrite R3. reflexivity. }
      split; [reflexivity|].
      intros path content. split.
      * intros Hin. apply elem_of_cons in Hin.
        destruct Hin as [Hin|Hin]; [discriminate|].
        apply elem_of_app in Hin. destruct Hin as [Hin|Hin].
        { exfalso. exact (H8 _ _ Hin). }
        apply elem_of_cons in Hin. destruct Hin as [Hin|Hin]; [discriminate|].
        apply elem_of_cons in Hin. destruct Hin as [Hin|Hin]; [discriminate|].
        assumption.
      * intros Hin. apply elem_of_cons. right. apply elem_of_app. right.
        apply elem_of_cons. right. apply elem_of_cons. right. assumption.
Qed.

Lemma readers_snoc_kill (evs : list Event) (rk : Outcome unit) :
  envsOf (evs ++ [EvKill rk]) = envsOf evs /\
  executionOf (evs ++ [EvKill rk]) = executionOf evs /\
  listingOf (evs ++ [EvKill rk]) = listingOf evs /\
  existsb fatal (evs ++ [EvKill rk]) = existsb fatal evs /\
  existsb collectionFailed (evs ++ [EvKill rk]) =
    existsb collectionFailed evs /\
  (forall path content,
     readOk (evs ++ [EvKill rk]) path content <-> readOk evs path content).
Proof.
  unfold envsOf, executionOf, listingOf, readOk.
  rewrite !omap_app, !existsb_app. simpl. rewrite !app_nil_r.
  assert (fatal (EvKill rk) = false) as -> by (destruct rk; reflexivity).
  assert (collectionFailed (EvKill rk) = false) as ->
    by (destruct rk; reflexivity).
  rewrite !orb_false_r. repeat split.
  - intros Hin. apply elem_of_app in Hin. destruct Hin as [Hin|Hin];
      [assumption|]. apply list_elem_of_singleton in Hin. discriminate.
  - intros Hin. apply elem_of_app. left. assumption.
Qed.

(** A run is an attempt followed by at most one teardown; only the
    teardown can make the adapter throw. *)
Lemma run_summary (fallback code : string) (envs : gmap string string)
    (t : list Event) (r : Outcome ExecResult) :
  Run fallback code envs t r ->
  exists evs sb a,
    Attempt code envs evs sb a /\
    head t = head evs /\
    envsOf t = envsOf evs /\
    executionOf t = executionOf evs /\
    listingOf t = listingOf evs /\
    existsb fatal t = existsb fatal evs /\
    existsb collectionFailed t = existsb collectionFailed evs /\
    (forall path content, readOk t path content <-> readOk evs path content) /\
    teardowns t = match sb with Some _ => 1%nat | None => 0%nat end /\
    (existsb teardownFailed t = false -> r = Ok (resultOf fallback a)) /\
    (forall r', r = Ok r' -> r' = resultOf fallback a).
Proof.
  intros [evs a Hat|evs h a Hat|evs h a e Hat];
    destruct (attempt_readers _ _ _ _ _ Hat) as (Hk & Htf & _).
  - exists evs, None, a. unfold teardowns. rewrite Hk.
    repeat split; try reflexivity; try assumption; try tauto. congruence.
  - exists evs, (Some h), a.
    destruct (readers_snoc_kill evs (Ok tt)) as (H1 & H2 & H3 & H4 & H5 & H6).
    unfold teardowns.
    rewrite List.filter_app, Hk, H1, H2, H3, H4, H5.
    repeat split; try reflexivity; try assumption; try apply H6;
      [destruct Hat; reflexivity | congruence].
  - exists evs, (Some h), a.
    destruct (readers_snoc_kill evs (Throw e))
      as (H1 & H2 & H3 & H4 & H5 & H6).
    unfold teardowns.
    rewrite List.filter_app, Hk, H1, H2, H3, H4, H5, existsb_app, Htf.
    repeat split; try reflexivity; try assumption; try apply H6;
      [destruct Hat; reflexivity | discriminate..].
Qed.

Lemma attempt_provisioned (code : string) (envs : gmap string string)
    (evs : list Event) (sb : option Sandbox)
    (a : JsError + Execution * gmap string string) (r : Outcome Sandbox) :
  Attempt code envs evs sb a ->
  head evs = Some (EvCreate 30000 r) ->
  match r with Ok _ => is_Some sb | Throw _ => sb = None end.
Proof.
  intros [e|h setup lst e _ _|h setup execution listing reads o _ _];
    simpl; intros [= <-]; eauto.
Qed.

End Summary.

(** ** The claims about one invocation *)

Section Claims.
Context `{JB : JSONBuiltins} `{P : Provider}.
Variable clock : nat -> Z.
Variable process_env : gmap string (option string).
Variable code : string.
Variable dependencies : option (list string).
Variable inputFiles : option (list (string * string)).
Variable args : option json.
Variable w : World.

Local Notation "'run'" :=
  (invoke clock process_env code dependencies inputFiles args w).

Ltac analyse :=
  destruct (invoke clock process_env code dependencies inputFiles args w)
    as [o st] eqn:Einvoke;
  apply invoke_run in Einvoke; destruct Einvoke as [HRun Hhead];
  destruct (run_summary _ _ _ _ _ HRun)
    as (evs & sb & a & Hat & Hhd & Henvs & Hexec & Hlist & Hfatal & Hcoll &
        Hread & Hkills & Hquiet & Hres);
  destruct (attempt_readers _ _ _ _ _ Hat) as (_ & _ & Henv & Hcase);
  cbn [fst snd] in *.

(** C1 (as amended).  When teardown does not throw, the adapter returns a
    result and does not raise; and if provisioning, the dependency install,
    the staging of a file or the execution threw, that result has
    [error] set and an empty [stdout]. *)
Theorem C1_failures_folded_when_teardown_succeeds :
  existsb teardownFailed (trace (snd run)) = false ->
  exists r,
    fst run = Ok r /\
    (existsb fatal (trace (snd run)) = true ->
     is_Some (error r) /\ stdout r = EmptyString /\
     result r = None /\ files r = None).
Proof.
  analyse. intros Hteardown. specialize (Hquiet Hteardown). subst o.
  eexists. split; [reflexivity|].
  rewrite Hfatal. destruct a as [e|[execution outs]].
  - intros _. simpl. eauto.
  - destruct Hcase as (Hnf & _). congruence.
Qed.

(** C3 (as amended).  If [error] is set and the sandbox reported no
    runtime fault for the executed program, then [result] is absent. *)
Theorem C3_error_without_fault_excludes_result (r : ExecResult) :
  fst run = Ok r ->
  is_Some (error r) ->
  faultReported (trace (snd run)) = false ->
  result r = None.
Proof.
  analyse. intros Ho Herr Hfault. apply Hres in Ho. subst r.
  destruct a as [e|[execution outs]]; [reflexivity|].
  destruct Hcase as (_ & Hex & _).
  unfold faultReported in Hfault. rewrite Hexec, Hex in Hfault.
  simpl in Herr. unfold errorOf in Herr.
  destruct (execution_error execution); [discriminate|].
  destruct Herr as [x Hx]. discriminate.
Qed.

(** C4 (as amended).  Teardown is attempted exactly once when provisioning
    succeeded, whichever later phase fails, and not at all when
    provisioning itself failed. *)
Theorem C4_teardown_once_if_provisioned :
  teardowns (trace (snd run)) =
  match fst (Sandbox_create 30000 w) with
  | Ok _ => 1%nat
  | Throw _ => 0%nat
  end.
Proof.
  analyse. rewrite Hkills. rewrite Hhd in Hhead.
  pose proof (attempt_provisioned _ _ _ _ _ _ Hat Hhead) as Hp.
  destruct (fst (Sandbox_create 30000 w)).
  - destruct Hp as [h ->]. reflexivity.
  - rewrite Hp. reflexivity.
Qed.

(** C5 (as amended).  After an execution, [result] is the parse of the one
    match of the pattern in [stdout], which runs from the first opening
    brace to the last closing brace, whatever lies between them; it is
    absent when there is no match or the parse fails, and [error] depends
    on the reported fault alone. *)
Theorem C5_result_is_parse_of_greedy_span (r : ExecResult)
    (execution : Execution) :
  fst run = Ok r ->
  executionOf (trace (snd run)) = Some execution ->
  stdout r = join EmptyString (logs_stdout execution) /\
  result r = match jsonMatch (stdout r) with
             | Some m => JSON_parse m
             | None => None
             end /\
  (forall m, jsonMatch (stdout r) = Some m <-> firstBraceSpan (stdout r) m) /\
  error r = errorOf execution.
Proof.
  analyse. intros Ho Hex. apply Hres in Ho. subst r.
  rewrite Hexec in Hex.
  destruct a as [e|[execution' outs]].
  - destruct Hcase as (_ & Hnone & _). congruence.
  - destruct Hcase as (_ & Hsome & _).
    assert (execution' = execution) as -> by congruence.
    simpl. repeat split.
    + unfold extractResult.
      destruct (jsonMatch (join EmptyString (logs_stdout execution)));
        [|reflexivity].
      destruct (JSON_parse s); reflexivity.
    + apply jsonMatch_spec.
    + apply jsonMatch_spec.
Qed.

(** C6 (as amended).  When the listing and every read succeed, [files]
    holds exactly the listed regular files that are neither a shell
    dotfile, nor [package.json] or [package-lock.json], nor named [*.ts],
    each with the contents read back (nothing is said of a file named
    [__proto__]); and [files] is never an empty mapping: without such a
    file it is absent. *)
Theorem C6_output_files_exactly_collectable (r : ExecResult)
    (fileList : list EntryInfo) :
  fst run = Ok r ->
  listingOf (trace (snd run)) = Some fileList ->
  existsb collectionFailed (trace (snd run)) = false ->
  (forall name,
     name <> "__proto__" ->
     is_Some (files r ≫= (fun m => m !! name)) <->
     exists f, f ∈ fileList /\ collectableEntry f /\ entry_name f = name) /\
  (forall name content,
     files r ≫= (fun m => m !! name) = Some content ->
     readOk (trace (snd run)) ("/home/user/" ++ name) content) /\
  files r <> Some ∅ /\
  ((forall f, f ∈ fileList -> ~ collectableEntry f) -> files r = None).
Proof.
  analyse. intros Ho Hl Hc. apply Hres in Ho. subst r.
  rewrite Hlist in Hl. rewrite Hcoll in Hc.
  destruct a as [e|[execution outs]].
  { destruct Hcase as (_ & _ & Hnone & _). congruence. }
  destruct Hcase as (_ & _ & _ & listing & reads & Hcollected & Hl' & Hc' &
                     Hreads).
  rewrite Hl' in Hl. rewrite Hc' in Hc.
  destruct Hcollected as [e|fl reads outs Hloop]; [discriminate|].
  injection Hl as ->. simpl in Hc.
  assert (forall name,
            is_Some (outs !! name) ->
            exists f, f ∈ fileList /\ collectableEntry f /\
                      entry_name f = name) as Hsound.
  { intros name [content Hcontent].
    destruct (readLoop_sound _ _ _ _ _ _ Hloop Hcontent)
      as [Hempty|(f & Hf & Hcf & Hn & _)].
    - rewrite lookup_empty in Hempty. discriminate.
    - exists f. rewrite <- collectable_spec. auto. }
  simpl. repeat split.
  - rewrite filesOf_lookup. apply Hsound.
  - rewrite filesOf_lookup. intros (f & Hf & Hcf & <-).
    apply collectable_spec in Hcf.
    eapply readLoop_complete; eassumption.
  - intros name content. rewrite filesOf_lookup. intros Hcontent.
    apply Hread, Hreads.
    destruct (readLoop_sound _ _ _ _ _ _ Hloop Hcontent)
      as [Hempty|(f & _ & _ & _ & Hr)]; [|assumption].
    rewrite lookup_empty in Hempty. discriminate.
  - apply filesOf_nonempty.
  - intros Hnone. apply filesOf_None. apply map_eq. intros name.
    rewrite lookup_empty. destruct (outs !! name) as [content|] eqn:E;
      [|reflexivity].
    exfalso. destruct (Hsound name) as (f & Hf & Hcf & _); [eauto|].
    exact (Hnone f Hf Hcf).
Qed.

(** X28.  A file named [__proto__] is never among the [files]: the
    assignment [outputFiles[file.name] = content] adds no property under
    that name. *)
Theorem proto_file_never_returned (r : ExecResult) :
  fst run = Ok r -> files r ≫= (fun m => m !! "__proto__") = None.
Proof.
  analyse. intros Ho. apply Hres in Ho. subst r.
  destruct a as [e|[execution outs]]; [reflexivity|].
  destruct Hcase as (_ & _ & _ & listing & reads & Hcollected & _).
  simpl. rewrite filesOf_lookup.
  destruct Hcollected as [e|fl reads outs Hloop]; [apply lookup_empty|].
  eapply readLoop_proto; [eassumption|]. apply lookup_empty.
Qed.

(** C8.  A failure of the listing or of a read is swallowed: the program
    was executed, any result the adapter returns has the [error] of that
    execution alone and holds only files that were read back, and the
    adapter does return unless teardown throws. *)
Theorem C8_collection_failure_swallowed :
  existsb collectionFailed (trace (snd run)) = true ->
  exists execution,
    executionOf (trace (snd run)) = Some execution /\
    (existsb teardownFailed (trace (snd run)) = false ->
     exists r, fst run = Ok r) /\
    (forall r,
       fst run = Ok r ->
       error r = errorOf execution /\
       stdout r = join EmptyString (logs_stdout execution) /\
       stderr r = join EmptyString (logs_stderr execution) /\
       result r = extractResult (stdout r) /\
       (forall name content,
          files r ≫= (fun m => m !! name) = Some content ->
          readOk (trace (snd run)) ("/home/user/" ++ name) content)).
Proof.
  analyse. intros Hc. rewrite Hcoll in Hc.
  destruct a as [e|[execution outs]].
  { destruct Hcase as (_ & _ & _ & Hnone). congruence. }
  destruct Hcase as (_ & Hex & _ & listing & reads & Hcollected & _ & _ &
                     Hreads).
  exists execution. rewrite Hexec. split; [assumption|]. split.
  { intros Hteardown. rewrite (Hquiet Hteardown). eauto. }
  intros r Ho. apply Hres in Ho. subst r. simpl.
  repeat split.
  intros name content. rewrite filesOf_lookup. intros Hcontent.
  apply Hread, Hreads.
  destruct Hcollected as [e|fl reads outs Hloop].
  - rewrite lookup_empty in Hcontent. discriminate.
  - destruct (readLoop_sound _ _ _ _ _ _ Hloop Hcontent)
      as [Hempty|(f & _ & _ & _ & Hr)]; [|assumption].
    rewrite lookup_empty in Hempty. discriminate.
Qed.

Lemma forwardedName_not_ARGS_JSON (key : string) :
  forwardedName key -> key <> "ARGS_JSON".
Proof.
  intros Hf ->. apply forwarded_spec in Hf.
  rewrite ARGS_JSON_not_forwarded in Hf. discriminate.
Qed.

Lemma run_envs (envs : gmap string string) :
  envsOf (trace (snd run)) = Some envs ->
  envs = buildEnvVars process_env args.
Proof. analyse. rewrite Henvs. apply Henv. Qed.

(** X26.  The environment the program is started with holds exactly the
    host variables whose name ends with [_API_KEY] or begins with
    [API_KEY_] or [BASE_URL_], and in addition [ARGS_JSON] exactly when the
    test [if (args)] passes. *)
Theorem forwarded_environment (envs : gmap string string) :
  envsOf (trace (snd run)) = Some envs ->
  forall key,
    is_Some (envs !! key) <->
    (is_Some (process_env !! key) /\ forwardedName key) \/
    (key = "ARGS_JSON" /\ js_if args = true).
Proof.
  intros Henvs key. apply run_envs in Henvs. subst envs.
  rewrite buildEnvVars_lookup.
  assert (is_Some (passThrough process_env !! key) <->
          is_Some (process_env !! key) /\ forwardedName key) as Hpass.
  { rewrite passThrough_lookup, <- forwarded_spec.
    destruct (forwarded key).
    - rewrite fmap_is_Some. tauto.
    - split; [intros [x Hx]; discriminate | intros [_ Hf]; discriminate]. }
  destruct args as [v|]; simpl.
  - destruct (truthy v); simpl.
    + destruct (String.eqb_spec key "ARGS_JSON") as [->|Hne].
      * split; [auto | eauto].
      * rewrite Hpass. split; [auto | intros [H|[H _]]; [assumption | contradiction]].
    + rewrite Hpass. split; [auto | intros [H|[_ H]]; [assumption | discriminate]].
  - rewrite Hpass. split; [auto | intros [H|[_ H]]; [assumption | discriminate]].
Qed.

(** Truthy arguments reach the program as the text of [ARGS_JSON]; parsing
    it gives what the built-ins read that text as. *)
Lemma arguments_round_trip_of_builtins (v : json)
    (back : jsvalue jsString) (envs : gmap string string) :
  args = Some v ->
  truthy v = true ->
  JSON_parse (JSON_stringify v) = Some back ->
  envsOf (trace (snd run)) = Some envs ->
  exists text,
    envs !! "ARGS_JSON" = Some text /\
    text = JSON_stringify v /\
    JSON_parse text = Some back.
Proof.
  intros Hargs Htruthy Hround Henvs. apply run_envs in Henvs. subst envs.
  exists (JSON_stringify v). rewrite buildEnvVars_lookup, Hargs, Htruthy.
  simpl. auto.
Qed.

(** C10.  A host variable whose name matches a forwarding rule and whose
    value is [undefined] is forwarded with the empty string as its value. *)
Theorem C10_undefined_value_forwarded_as_empty (envs : gmap string string)
    (key : string) :
  envsOf (trace (snd run)) = Some envs ->
  process_env !! key = Some None ->
  forwardedName key ->
  envs !! key = Some EmptyString.
Proof.
  intros Henvs Hkey Hf. apply run_envs in Henvs. subst envs.
  pose proof (forwardedName_not_ARGS_JSON key Hf) as Hne.
  apply forwarded_spec in Hf.
  rewrite buildEnvVars_lookup.
  assert (passThrough process_env !! key = Some EmptyString) as Hpass
    by (rewrite passThrough_lookup, Hf, Hkey; reflexivity).
  destruct args as [v|]; [|assumption].
  destruct (String.eqb_spec key "ARGS_JSON") as [->|_]; [contradiction|].
  rewrite andb_false_r. assumption.
Qed.

End Claims.

(** ** The two copies of the adapter *)

Section Copies.
Context `{JB : JSONBuiltins} `{P : Provider}.

Lemma quiet_Date_now (clock : nat -> Z) : quiet (Date_now clock).
Proof. intros s. split; [eexists|]; reflexivity. Qed.

Lemma quiet_console_log (line : list LogArg) : quiet (console_log line).
Proof. intros s. split; [eexists|]; reflexivity. Qed.

Lemma sim_quiet_l {A B C : Type} (R : Outcome B -> Outcome C -> Prop)
    (m : M St A) (k : A -> M St B) (m2 : M St C) :
  quiet m -> (forall a, sim R (k a) m2) -> sim R (bind m k) m2.
Proof.
  intros Hq Hk s1 s2 Hcore. unfold bind.
  destruct (Hq s1) as [[a Ha] Hc]. destruct (m s1) as [o s1'].
  simpl in Ha, Hc. subst o. apply Hk. congruence.
Qed.

Lemma sim_quiet_r {A B C : Type} (R : Outcome B -> Outcome C -> Prop)
    (m1 : M St B) (m : M St A) (k : A -> M St C) :
  quiet m -> (forall a, sim R m1 (k a)) -> sim R m1 (bind m k).
Proof.
  intros Hq Hk s1 s2 Hcore. unfold bind.
  destruct (Hq s2) as [[a Ha] Hc]. destruct (m s2) as [o s2'].
  simpl in Ha, Hc. subst o. apply Hk. congruence.
Qed.

Lemma sim_bind {A B : Type} (R : Outcome B -> Outcome B -> Prop)
    (m1 m2 : M St A) (k1 k2 : A -> M St B) :
  sim eq m1 m2 ->
  (forall a, sim R (k1 a) (k2 a)) ->
  (forall e, R (Throw e) (Throw e)) ->
  sim R (bind m1 k1) (bind m2 k2).
Proof.
  intros Hm Hk HR s1 s2 Hcore. unfold bind.
  destruct (Hm s1 s2 Hcore) as [Ho Hc].
  destruct (m1 s1) as [o1 s1'], (m2 s2) as [o2 s2']. simpl in Ho, Hc.
  subst o2. destruct o1 as [a|e].
  - apply Hk. assumption.
  - split; [apply HR | assumption].
Qed.

Lemma sim_ret {A : Type} (R : Outcome A -> Outcome A -> Prop) (a b : A) :
  R (Ok a) (Ok b) -> sim R (ret a) (ret b).
Proof. intros HR s1 s2 Hcore. split; assumption. Qed.

Lemma sim_try_catch {A : Type} (R : Outcome A -> Outcome A -> Prop)
    (m1 m2 : M St A) (h1 h2 : JsError -> M St A) :
  sim eq m1 m2 ->
  (forall e, sim R (h1 e) (h2 e)) ->
  (forall a, R (Ok a) (Ok a)) ->
  sim R (try_catch m1 h1) (try_catch m2 h2).
Proof.
  intros Hm Hh HR s1 s2 Hcore. unfold try_catch.
  destruct (Hm s1 s2 Hcore) as [Ho Hc].
  destruct (m1 s1) as [o1 s1'], (m2 s2) as [o2 s2']. simpl in Ho, Hc.
  subst o2. destruct o1 as [a|e].
  - split; [apply HR | assumption].
  - apply Hh. assumption.
Qed.

Lemma sim_try_finally {A : Type} (R : Outcome A -> Outcome A -> Prop)
    (m1 m2 : M St A) (f1 f2 : M St unit) :
  sim R m1 m2 ->
  sim eq f1 f2 ->
  (forall e, R (Throw e) (Throw e)) ->
  sim R (try_finally m1 f1) (try_finally m2 f2).
Proof.
  intros Hm Hf HR s1 s2 Hcore. unfold try_finally.
  destruct (Hm s1 s2 Hcore) as [Ho Hc].
  destruct (m1 s1) as [o1 s1'], (m2 s2) as [o2 s2']. simpl in Ho, Hc.
  destruct (Hf s1' s2' Hc) as [Hfo Hfc].
  destruct (f1 s1') as [fo1 t1], (f2 s2') as [fo2 t2]. simpl in Hfo, Hfc.
  subst fo2. destruct fo1 as [[]|e].
  - split; assumption.
  - split; [apply HR | assumption].
Qed.

(** The shared blocks depend on the core alone. *)
Lemma sim_call {A : Type} (op : World -> Outcome A * World)
    (ev : Outcome A -> Event) :
  sim eq (call op ev) (call op ev).
Proof.
  intros s1 s2 Hcore. unfold call, core in *.
  injection Hcore as Hw Ht Hs Ho. rewrite Hw.
  destruct (op (world s2)) as [o w']. simpl. split; congruence.
Qed.

Lemma sim_set_sbx (h : Sandbox) : sim eq (set_sbx h) (set_sbx h).
Proof.
  intros s1 s2 Hcore. unfold core in *. injection Hcore as Hw Ht Hs Ho.
  simpl. split; congruence.
Qed.

Lemma sim_get_sbx : sim eq get_sbx get_sbx.
Proof.
  intros s1 s2 Hcore. split; [|assumption]. unfold core in *. simpl.
  congruence.
Qed.

Lemma sim_set_outputFiles (o : gmap string string) :
  sim eq (set_outputFiles o) (set_outputFiles o).
Proof.
  intros s1 s2 Hcore. unfold core in *. injection Hcore as Hw Ht Hs Ho.
  simpl. split; congruence.
Qed.

Lemma sim_get_outputFiles : sim eq get_outputFiles get_outputFiles.
Proof.
  intros s1 s2 Hcore. split; [|assumption]. unfold core in *. simpl.
  congruence.
Qed.

Lemma sim_for_of {A : Type} (l : list A) (body : A -> M St unit) :
  (forall x, sim eq (body x) (body x)) ->
  sim eq (for_of l body) (for_of l body).
Proof.
  intros Hbody. induction l as [|x l IH]; simpl.
  - apply sim_ret. reflexivity.
  - apply sim_bind; auto.
Qed.

Lemma sim_writeFiles (h : Sandbox) (files : option (list (string * string))) :
  sim eq (writeFiles h files) (writeFiles h files).
Proof.
  destruct files as [entries|]; simpl.
  - apply sim_for_of. intros [path content]. apply sim_call.
  - apply sim_ret. reflexivity.
Qed.

Lemma sim_readOne (h : Sandbox) (file : EntryInfo) :
  sim eq (readOne h file) (readOne h file).
Proof.
  unfold readOne. destruct (collectable file).
  - apply sim_bind; [apply sim_call | | reflexivity]. intros content.
    apply sim_bind; [apply sim_get_outputFiles | | reflexivity]. intros o.
    apply sim_set_outputFiles.
  - apply sim_ret. reflexivity.
Qed.

Lemma sim_readBack (h : Sandbox) : sim eq (readBack h) (readBack h).
Proof.
  unfold readBack. apply sim_try_catch.
  - apply sim_bind; [apply sim_call | | reflexivity]. intros fileList.
    apply sim_for_of. apply sim_readOne.
  - intros e. apply sim_ret. reflexivity.
  - reflexivity.
Qed.

Lemma sim_killSandbox : sim eq killSandbox killSandbox.
Proof.
  unfold killSandbox. apply sim_bind; [apply sim_get_sbx | | reflexivity].
  intros [h|]; [apply sim_call | apply sim_ret; reflexivity].
Qed.

Lemma sim_then_quiet {A : Type} (m1 m2 : M St A) (k : A -> M St A) :
  sim eq m1 m2 ->
  (forall a s, fst (k a s) = Ok a /\ core (snd (k a s)) = core s) ->
  sim eq (bind m1 k) m2.
Proof.
  intros Hm Hk s1 s2 Hcore. unfold bind.
  destruct (Hm s1 s2 Hcore) as [Ho Hc].
  destruct (m1 s1) as [o1 s1'], (m2 s2) as [o2 s2']. simpl in Ho, Hc.
  subst o2. destruct o1 as [a|e]; [|split; auto].
  destruct (Hk a s1') as [Hka Hkc]. simpl. split; congruence.
Qed.

(** The timing around [npm install] does not change it. *)
Lemma sim_installDependencies (clock : nat -> Z) (h : Sandbox)
    (dependencies : option (list string)) :
  sim eq (Instrumented.installDependencies clock h dependencies)
         (Plain.installDependencies h dependencies).
Proof.
  unfold Instrumented.installDependencies, Plain.installDependencies.
  destruct (hasDependencies dependencies); [|apply sim_ret; reflexivity].
  apply sim_quiet_l; [apply quiet_Date_now|]. intros installStartTime.
  apply sim_then_quiet; [apply sim_call|].
  intros [] s. split; reflexivity.
Qed.

Lemma sameUpToFallback_caught (e : JsError) :
  sameUpToFallback (Ok (caught e "unknown error"))
                   (Ok (caught e "Unknown error")).
Proof.
  destruct e as [[[|c s]|]].
  - right. exists {| message := Some EmptyString |}. repeat split.
  - left. reflexivity.
  - right. exists {| message := None |}. repeat split.
Qed.

Lemma sim_try_block (clock : nat -> Z)
    (process_env : gmap string (option string)) (startTime : Z)
    (code : string) (dependencies : option (list string))
    (files : option (list (string * string))) (args : option json) :
  sim eq
    (Instrumented.try_block clock process_env startTime code dependencies
       files args)
    (Plain.try_block process_env code dependencies files args).
Proof.
  unfold Instrumented.try_block, Plain.try_block.
  apply sim_quiet_l; [apply quiet_Date_now|]. intros sandboxStartTime.
  apply sim_bind; [apply sim_call | | reflexivity]. intros h.
  apply sim_bind; [apply sim_set_sbx | | reflexivity]. intros _.
  apply sim_quiet_l; [apply quiet_Date_now|]. intros sandboxEnd.
  apply sim_quiet_l; [apply quiet_console_log|]. intros _.
  apply sim_bind; [apply sim_installDependencies | | reflexivity]. intros _.
  apply sim_bind; [apply sim_writeFiles | | reflexivity]. intros _.
  apply sim_quiet_l; [apply quiet_Date_now|]. intros execStartTime.
  apply sim_bind; [apply sim_call | | reflexivity]. intros execution.
  apply sim_quiet_l; [apply quiet_Date_now|]. intros execEnd.
  apply sim_quiet_l; [apply quiet_console_log|]. intros _.
  apply sim_bind; [apply sim_set_outputFiles | | reflexivity]. intros _.
  apply sim_bind; [apply sim_readBack | | reflexivity]. intros _.
  apply sim_quiet_l; [apply quiet_Date_now|]. intros totalEnd.
  apply sim_quiet_l; [apply quiet_console_log|]. intros _.
  apply sim_bind; [apply sim_get_outputFiles | | reflexivity].
  intros outputFiles. apply sim_ret. reflexivity.
Qed.

Lemma sim_executeTypeScript (clock : nat -> Z)
    (process_env : gmap string (option string)) (code : string)
    (dependencies : option (list string))
    (files : option (list (string * string))) (args : option json) :
  sim sameUpToFallback
    (Instrumented.executeTypeScript clock process_env code dependencies
       files args)
    (Plain.executeTypeScript process_env code dependencies files args).
Proof.
  unfold Instrumented.executeTypeScript, Plain.executeTypeScript.
  apply sim_quiet_l; [apply quiet_Date_now|]. intros startTime.
  do 5 (apply sim_quiet_l; [apply quiet_console_log|]; intros _).
  do 6 (apply sim_quiet_r; [apply quiet_console_log|]; intros _).
  apply sim_try_finally.
  - apply sim_try_catch.
    + apply sim_try_block.
    + intros e. unfold Instrumented.catch_block, Plain.catch_block.
      apply sim_quiet_l; [apply quiet_Date_now|]. intros totalEnd.
      apply sim_quiet_l; [apply quiet_console_log|]. intros _.
      apply sim_ret. apply sameUpToFallback_caught.
    + intros a. left. reflexivity.
  - apply sim_killSandbox.
  - intros e. left. reflexivity.
Qed.

(** C9 (as amended).  On the same input and the same sandbox, whatever the
    clock shows, both copies make the same provider calls and complete in
    the same way, except that for a thrown error without a message the
    instrumented copy reports ["unknown error"] and the other one
    ["Unknown error"]. *)
Theorem C9_copies_agree_up_to_fallback_text (clock : nat -> Z)
    (process_env : gmap string (option string)) (code : string)
    (dependencies : option (list string))
    (inputFiles : option (list (string * string))) (args : option json)
    (w : World) :
  sameUpToFallback
    (fst (invoke clock process_env code dependencies inputFiles args w))
    (fst (invoke_plain process_env code dependencies inputFiles args w)) /\
  trace (snd (invoke clock process_env code dependencies inputFiles args w)) =
  trace (snd (invoke_plain process_env code dependencies inputFiles args w)) /\
  world (snd (invoke clock process_env code dependencies inputFiles args w)) =
  world (snd (invoke_plain process_env code dependencies inputFiles args w)).
Proof.
  destruct (sim_executeTypeScript clock process_env code dependencies
              inputFiles args (initial w) (initial w) eq_refl) as [Ho Hc].
  unfold invoke, invoke_plain. split; [exact Ho|].
  unfold core in Hc. injection Hc as Hw Ht _ _. auto.
Qed.

End Copies.

(** ** What the model of the JSON built-ins reads back *)

Module JSONFacts.
Import JSON.

(** *** Decimal digits *)

Lemma pretty_N_go_app (x : N) (s rest : string) :
  pretty_N_go x s ++ rest = pretty_N_go x (s ++ rest).
Proof.
  revert s. induction (N.lt_wf_0 x) as [x _ IH]; intros s.
  destruct (decide (x = 0)%N) as [->|Hx].
  - rewrite !pretty_N_go_0. reflexivity.
  - rewrite (pretty_N_go_step x s), (pretty_N_go_step x (s ++ rest)) by lia.
    rewrite IH by (apply N.div_lt; lia). reflexivity.
Qed.

Lemma isDigit_pretty_N_char (d : N) :
  (d < 10)%N -> isDigit (pretty_N_char d) = true.
Proof.
  intros Hd.
  assert (d = 0 \/ d = 1 \/ d = 2 \/ d = 3 \/ d = 4 \/ d = 5 \/ d = 6 \/
          d = 7 \/ d = 8 \/ d = 9)%N as Hcases by lia.
  repeat (destruct Hcases as [->|Hcases]; [reflexivity|]).
  subst d. reflexivity.
Qed.

Lemma allDigits_pretty_N_go (x : N) (s : string) :
  allDigits (pretty_N_go x s) = allDigits s.
Proof.
  revert s. induction (N.lt_wf_0 x) as [x _ IH]; intros s.
  destruct (decide (x = 0)%N) as [->|Hx].
  - rewrite pretty_N_go_0. reflexivity.
  - rewrite pretty_N_go_step by lia. rewrite IH by (apply N.div_lt; lia).
    cbn [allDigits]. rewrite isDigit_pretty_N_char; [reflexivity|].
    apply N.mod_lt. lia.
Qed.

Lemma pretty_N_go_head (x : N) (s : string) :
  (0 < x)%N ->
  exists c s', pretty_N_go x s = String c s' /\
               isDigit c = true /\ Ascii.eqb c "0" = false.
Proof.
  revert s. induction (N.lt_wf_0 x) as [x _ IH]; intros s Hx.
  rewrite pretty_N_go_step by assumption.
  destruct (decide (x `div` 10 = 0)%N) as [Hz|Hnz].
  - rewrite Hz, pretty_N_go_0. eexists _, _. split; [reflexivity|].
    assert (x < 10)%N as Hlt.
    { pose proof (N.div_mod x 10 ltac:(lia)) as Hdm.
      pose proof (N.mod_lt x 10 ltac:(lia)) as Hm. lia. }
    rewrite N.mod_small by assumption.
    assert (x = 1 \/ x = 2 \/ x = 3 \/ x = 4 \/ x = 5 \/ x = 6 \/
            x = 7 \/ x = 8 \/ x = 9)%N as Hcases by lia.
    repeat (destruct Hcases as [->|Hcases]; [split; reflexivity|]).
    subst x. split; reflexivity.
  - apply IH; [apply N.div_lt; lia | apply N.neq_0_lt_0; assumption].
Qed.

Lemma allDigits_pretty (x : N) : allDigits (pretty x) = true.
Proof.
  destruct x as [|p]; [reflexivity|].
  change (pretty (N.pos p)) with (pretty_N_go (N.pos p) EmptyString).
  apply allDigits_pretty_N_go.
Qed.

Lemma pretty_pos_head (p : positive) :
  exists c s', pretty (N.pos p) = String c s' /\
               isDigit c = true /\ Ascii.eqb c "0" = false.
Proof.
  change (pretty (N.pos p)) with (pretty_N_go (N.pos p) EmptyString).
  apply pretty_N_go_head. lia.
Qed.

Lemma pretty_head (x : N) :
  exists c s', pretty x = String c s' /\ isDigit c = true.
Proof.
  destruct x as [|p].
  - exists "0"%char, EmptyString. split; reflexivity.
  - destruct (pretty_pos_head p) as (c & s' & H & Hd & _). eauto.
Qed.

Lemma allDigits_app (a b : string) :
  allDigits (a ++ b) = allDigits a && allDigits b.
Proof.
  induction a as [|c a IH]; [reflexivity|].
  rewrite append_cons. cbn [allDigits]. rewrite IH, andb_assoc. reflexivity.
Qed.

Lemma allDigits_zeros (n : nat) : allDigits (Number.zeros n) = true.
Proof. induction n as [|n IH]; [reflexivity|]. exact IH. Qed.

Lemma allDigits_takeChars (n : nat) (d : string) :
  allDigits d = true -> allDigits (Number.takeChars n d) = true.
Proof.
  revert d. induction n as [|n IH]; intros [|c d]; try reflexivity.
  cbn [allDigits Number.takeChars]. intros H.
  apply andb_true_iff in H. destruct H as [-> H]. apply IH. assumption.
Qed.

Lemma allDigits_dropChars (n : nat) (d : string) :
  allDigits d = true -> allDigits (Number.dropChars n d) = true.
Proof.
  revert d. induction n as [|n IH]; intros [|c d]; try reflexivity;
    try (intros H; exact H).
  cbn [allDigits Number.dropChars]. intros H.
  apply andb_true_iff in H. destruct H as [_ H]. apply IH. assumption.
Qed.

Lemma dropChars_nonempty (n : nat) (d : string) :
  (n < String.length d)%nat -> Number.dropChars n d <> EmptyString.
Proof.
  revert d. induction n as [|n IH]; intros [|c d]; cbn; try lia.
  - discriminate.
  - intros H. apply IH. lia.
Qed.

(** A run of digits is taken whole when no digit follows it. *)
Lemma spanDigits_app (d tail : string) :
  allDigits d = true ->
  spanDigits tail = (EmptyString, tail) ->
  spanDigits (d ++ tail) = (d, tail).
Proof.
  intros Hd Htail. induction d as [|c d IH].
  - rewrite append_nil. assumption.
  - cbn [allDigits] in Hd. apply andb_true_iff in Hd. destruct Hd as [Hc Hd].
    rewrite append_cons. cbn [spanDigits]. rewrite Hc, (IH Hd). reflexivity.
Qed.

Lemma spanDigits_head (c : ascii) (s : string) :
  isDigit c = false -> spanDigits (String c s) = (EmptyString, String c s).
Proof. intros H. cbn [spanDigits]. rewrite H. reflexivity. Qed.

Lemma delimited_cases (rest : string) :
  delimited rest = true ->
  rest = EmptyString \/
  exists c s, rest = String c s /\ (c = "," \/ c = "]" \/ c = "}")%char.
Proof.
  destruct rest as [|c s]; [auto|]. cbn [delimited]. intros H. right.
  exists c, s. split; [reflexivity|].
  destruct (Ascii.eqb_spec c ",") as [->|_]; [auto|].
  destruct (Ascii.eqb_spec c "]") as [->|_]; [auto|].
  destruct (Ascii.eqb_spec c "}") as [->|_]; [auto|discriminate].
Qed.

Lemma delimited_spanDigits (rest : string) :
  delimited rest = true -> spanDigits rest = (EmptyString, rest).
Proof.
  intros H. destruct (delimited_cases rest H)
    as [-> | (c & s & -> & [-> | [-> | ->]])]; reflexivity.
Qed.

Lemma delimited_scanFraction (rest : string) :
  delimited rest = true -> scanFraction rest = Some (EmptyString, rest).
Proof.
  intros H. destruct (delimited_cases rest H)
    as [-> | (c & s & -> & [-> | [-> | ->]])]; reflexivity.
Qed.

Lemma delimited_scanExponent (rest : string) :
  delimited rest = true -> scanExponent rest = Some (0, rest).
Proof.
  intros H. destruct (delimited_cases rest H)
    as [-> | (c & s & -> & [-> | [-> | ->]])]; reflexivity.
Qed.

(** *** The printed form of a number is a number of the grammar *)

Lemma scanInteger_digits (c : ascii) (d tail : string) :
  isDigit c = true -> Ascii.eqb c "0" = false ->
  allDigits d = true ->
  spanDigits tail = (EmptyString, tail) ->
  scanInteger (String c (d ++ tail)) = Some (String c d, tail).
Proof.
  intros Hc Hz Hd Htail. unfold scanInteger.
  rewrite Hz, Hc. rewrite <- append_cons.
  rewrite spanDigits_app; [reflexivity| |assumption].
  cbn [allDigits]. rewrite Hc, Hd. reflexivity.
Qed.

Lemma scanFraction_point (f tail : string) :
  f <> EmptyString -> allDigits f = true ->
  spanDigits tail = (EmptyString, tail) ->
  scanFraction (String "." (f ++ tail)) = Some (f, tail).
Proof.
  intros Hne Hf Htail. cbn [scanFraction].
  change (Ascii.eqb "." ".") with true. cbv iota.
  rewrite spanDigits_app by assumption.
  destruct f; [contradiction|reflexivity].
Qed.

Lemma scanFraction_none (c : ascii) (s : string) :
  Ascii.eqb c "." = false ->
  scanFraction (String c s) = Some (EmptyString, String c s).
Proof. intros H. cbn [scanFraction]. rewrite H. reflexivity. Qed.

Lemma scanExponent_part (n : Z) :
  exists e, forall rest,
    delimited rest = true ->
    scanExponent (Number.exponentPart n ++ rest) = Some (e, rest).
Proof.
  unfold Number.exponentPart.
  destruct (pretty_head (Z.to_N (Z.abs (n - 1)))) as (c & s' & Hp & Hc).
  pose proof (allDigits_pretty (Z.to_N (Z.abs (n - 1)))) as Hall.
  rewrite Hp in *.
  destruct (n - 1 <? 0);
    [exists (- digitsValue 0 (String c s'))
    |exists (digitsValue 0 (String c s'))];
    intros rest Hrest;
    rewrite !append_cons, ?append_nil; cbn [scanExponent];
    change (Ascii.eqb "e" "e") with true; cbn [orb];
    [change (Ascii.eqb "-" "-") with true
    |change (Ascii.eqb "+" "-") with false;
     change (Ascii.eqb "+" "+") with true]; cbv iota;
    rewrite spanDigits_app by (auto using delimited_spanDigits);
    reflexivity.
Qed.

Ltac normalize_append :=
  repeat (progress (rewrite ?append_assoc, ?append_cons, ?append_nil)).

(** Whatever the digits and the exponent, the layout of Number::toString
    is a number of the JSON grammar, and it is read whole. *)
Lemma scanUnsigned_format (c : ascii) (d : string) (n : Z) :
  isDigit c = true -> Ascii.eqb c "0" = false -> allDigits d = true ->
  exists m e, forall rest,
    delimited rest = true ->
    scanUnsigned (Number.format (String c d) n ++ rest) = Some (m, e, rest).
Proof.
  intros Hc Hz Hd. unfold Number.format.
  destruct (scanExponent_part n) as [ex Hex].
  set (k := Z.of_nat (String.length (String c d))).
  assert (0 < k) as Hk by (unfold k; cbn [String.length]; lia).
  destruct ((k <=? n) && (n <=? 21)) eqn:Hfirst.
  { eexists _, _. intros rest Hrest. unfold scanUnsigned.
    rewrite !append_cons.
    rewrite scanInteger_digits; try assumption.
    - cbv beta iota.
      rewrite delimited_scanFraction by assumption. cbv beta iota.
      rewrite delimited_scanExponent by assumption. reflexivity.
    - rewrite allDigits_app, Hd, allDigits_zeros. reflexivity.
    - apply delimited_spanDigits. assumption. }
  destruct ((0 <? n) && (n <=? 21)) eqn:Hsecond.
  { apply andb_true_iff in Hsecond. destruct Hsecond as [Hpos Hmax].
    apply Z.ltb_lt in Hpos. rewrite Hmax, andb_true_r in Hfirst.
    apply Z.leb_gt in Hfirst.
    destruct (Z.to_nat n) as [|n'] eqn:Hn; [lia|].
    cbn [Number.takeChars Number.dropChars].
    eexists _, _. intros rest Hrest. unfold scanUnsigned. normalize_append.
    rewrite scanInteger_digits; try assumption.
    - cbv beta iota. rewrite scanFraction_point.
      + cbv beta iota.
        rewrite delimited_scanExponent by assumption. reflexivity.
      + apply dropChars_nonempty. unfold k in Hfirst.
        cbn [String.length] in Hfirst. lia.
      + apply allDigits_dropChars. assumption.
      + apply delimited_spanDigits. assumption.
    - apply allDigits_takeChars. assumption.
    - reflexivity. }
  destruct ((-6 <? n) && (n <=? 0)) eqn:Hthird.
  { eexists _, _. intros rest Hrest. unfold scanUnsigned.
    rewrite !append_cons.
    cbn [scanInteger]. change (Ascii.eqb "0" "0") with true. cbv iota.
    rewrite scanFraction_point.
    - cbv beta iota.
      rewrite delimited_scanExponent by assumption. reflexivity.
    - destruct (Number.zeros (Z.to_nat (- n))); discriminate.
    - rewrite allDigits_app, allDigits_zeros. cbn [allDigits].
      rewrite Hc, Hd. reflexivity.
    - apply delimited_spanDigits. assumption. }
  cbn [Number.dropChars Number.takeChars].
  destruct d as [|c' d'].
  - eexists _, _. intros rest Hrest. unfold scanUnsigned.
    rewrite !append_cons, append_nil.
    rewrite <- (append_nil (Number.exponentPart n ++ rest)).
    rewrite scanInteger_digits; try assumption; try reflexivity.
    cbv beta iota.
    unfold Number.exponentPart at 1. rewrite append_cons.
    rewrite scanFraction_none by reflexivity. cbv beta iota.
    rewrite <- append_cons. fold (Number.exponentPart n).
    rewrite (Hex rest Hrest). reflexivity.
  - eexists _, _. intros rest Hrest. unfold scanUnsigned.
    normalize_append.
    change (String c (String "." (String c' (d' ++ Number.exponentPart n ++ rest))))
      with (String c (EmptyString ++
              String "." (String c' d' ++ Number.exponentPart n ++ rest))).
    rewrite scanInteger_digits; try assumption; try reflexivity.
    cbv beta iota.
    rewrite scanFraction_point.
    + cbv beta iota. rewrite (Hex rest Hrest). reflexivity.
    + discriminate.
    + assumption.
    + unfold Number.exponentPart. rewrite append_cons. reflexivity.
Qed.

(** The layout starts with a digit. *)
Lemma format_head (c : ascii) (d : string) (n : Z) :
  isDigit c = true ->
  exists c0 t, Number.format (String c d) n = String c0 t /\
               isDigit c0 = true.
Proof.
  intros Hc. unfold Number.format.
  destruct ((Z.of_nat (String.length (String c d)) <=? n) && (n <=? 21)).
  { rewrite append_cons. eauto. }
  destruct ((0 <? n) && (n <=? 21)) eqn:Hsecond.
  { apply andb_true_iff in Hsecond. destruct Hsecond as [Hpos _].
    apply Z.ltb_lt in Hpos.
    destruct (Z.to_nat n) as [|n'] eqn:Hn; [lia|].
    cbn [Number.takeChars]. rewrite append_cons. eauto. }
  destruct ((-6 <? n) && (n <=? 0)).
  { exists "0"%char. eexists. split; reflexivity. }
  cbn [Number.dropChars Number.takeChars].
  destruct d; rewrite append_cons; eauto.
Qed.

(** The printed form of a finite number is read whole, as one number
    whatever delimiter follows. *)
Lemma parseNumber_toString (x : float) (text : string) :
  Number.toString x = Some text ->
  (exists c t, text = String c t /\
               (isDigit c = true \/ c = "-"%char)) /\
  forall rest,
    delimited rest = true ->
    parseNumber (text ++ rest) = Some (reread x, rest).
Proof.
  intros Htext.
  assert ((exists c t, text = String c t /\
                       (isDigit c = true \/ c = "-"%char)) /\
          exists y, forall rest,
            delimited rest = true ->
            parseNumber (text ++ rest) = Some (y, rest)) as [Hhead [y Hy]].
  { revert Htext. unfold Number.toString.
    destruct (Prim2SF x) as [sign|sign| |negative m e]; try discriminate.
    - intros [= <-]. split.
      + exists "0"%char, EmptyString. auto.
      + eexists. intros rest Hrest. rewrite append_cons, append_nil.
        unfold parseNumber. change (Ascii.eqb "0" "-") with false.
        cbv iota. unfold scanUnsigned.
        cbn [scanInteger]. change (Ascii.eqb "0" "0") with true. cbv iota.
        rewrite delimited_scanFraction by assumption. cbv beta iota.
        rewrite delimited_scanExponent by assumption. reflexivity.
    - destruct (Number.shortest (abs x) m e) as [s n].
      destruct (pretty_pos_head (Z.to_pos s)) as (c & d & Hp & Hc & Hz).
      pose proof (allDigits_pretty (N.pos (Z.to_pos s))) as Hall.
      rewrite Hp in *. cbn [allDigits] in Hall.
      apply andb_true_iff in Hall. destruct Hall as [_ Hd].
      destruct (scanUnsigned_format c d n Hc Hz Hd) as (mm & ee & Hscan).
      destruct (format_head c d n Hc) as (c0 & t & Hf & Hc0).
      intros [= <-]. destruct negative.
      + split; [exists "-"%char; eexists; split; [reflexivity|auto]|].
        eexists. intros rest Hrest. rewrite !append_cons, append_nil.
        unfold parseNumber. change (Ascii.eqb "-" "-") with true. cbv iota.
        rewrite (Hscan rest Hrest). reflexivity.
      + rewrite append_nil. split; [rewrite Hf; eauto|].
        eexists. intros rest Hrest. unfold parseNumber.
        pose proof (Hscan rest Hrest) as Hs. rewrite Hf in *.
        rewrite append_cons in *.
        assert (Ascii.eqb c0 "-" = false) as ->.
        { destruct (Ascii.eqb_spec c0 "-") as [->|]; [discriminate Hc0|].
          reflexivity. }
        rewrite Hs. reflexivity. }
  split; [assumption|].
  assert (reread x = y) as ->; [|assumption].
  unfold reread. rewrite Htext.
  pose proof (Hy EmptyString eq_refl) as H0. rewrite append_nil_r in H0.
  rewrite H0. reflexivity.
Qed.

(** *** Strings *)

(** Every character survives quoting and reading back. *)
Lemma parseChars_quoteChar (c : ascii) (tail : string) :
  parseChars (quoteChar c ++ tail) =
  match parseChars tail with
  | Some (body, r) => Some (codeUnit c :: body, r)
  | None => None
  end.
Proof.
  destruct c as [[] [] [] [] [] [] [] []];
    match goal with
    | |- context [quoteChar ?c] =>
        let q := eval vm_compute in (quoteChar c) in
        change (quoteChar c) with q
    end;
    rewrite ?append_cons, ?append_nil; reflexivity.
Qed.

Lemma parseChars_quoteBody (s rest : string) :
  parseChars (quoteBody s ++ String dquote rest) = Some (widen s, rest).
Proof.
  induction s as [|c s IH].
  - reflexivity.
  - change (quoteBody (String c s)) with (quoteChar c ++ quoteBody s).
    rewrite append_assoc, parseChars_quoteChar, IH. reflexivity.
Qed.

Lemma quote_app (s rest : string) :
  quote s ++ rest = String dquote (quoteBody s ++ String dquote rest).
Proof.
  unfold quote. rewrite append_cons, append_assoc, append_cons, append_nil.
  reflexivity.
Qed.

Lemma unitsEqb_widen (a b : string) :
  unitsEqb (widen a) (widen b) = String.eqb a b.
Proof.
  revert b. induction a as [|c a IH]; intros [|c' b]; try reflexivity.
  cbn [widen unitsEqb codeUnit String.eqb]. rewrite IH.
  destruct (Ascii.eqb c c'); reflexivity.
Qed.

Lemma narrow_widen (k : string) : narrow (widen k) = Some k.
Proof.
  induction k as [|c k IH]; [reflexivity|].
  cbn [widen narrow codeUnit]. rewrite IH. reflexivity.
Qed.

Lemma arrayIndexOfUnits_widen (k : string) :
  arrayIndexOfUnits (widen k) = arrayIndex k.
Proof. unfold arrayIndexOfUnits. rewrite narrow_widen. reflexivity. Qed.

(** *** The own properties of an object *)

Section PropertiesFacts.
Context {K V K' V' : Type}.
Variable keyEqb : K -> K -> bool.
Variable indexOf : K -> option Z.
Variable keyEqb' : K' -> K' -> bool.
Variable indexOf' : K' -> option Z.
Variable g : K -> K'.
Variable f : V -> V'.
Hypothesis g_eqb : forall a b, keyEqb' (g a) (g b) = keyEqb a b.
Hypothesis g_index : forall a, indexOf' (g a) = indexOf a.

Lemma hasMember_map (k : K) (l : list (K * V)) :
  hasMember keyEqb' (g k)
    (List.map (fun kv => (g (fst kv), f (snd kv))) l)
  = hasMember keyEqb k l.
Proof.
  unfold hasMember. induction l as [|[k' v'] l IH]; [reflexivity|].
  cbn [List.map existsb fst snd]. rewrite g_eqb, IH. reflexivity.
Qed.

Lemma replaceMember_map (k : K) (v : V) (l : list (K * V)) :
  replaceMember keyEqb' (g k) (f v)
    (List.map (fun kv => (g (fst kv), f (snd kv))) l)
  = List.map (fun kv => (g (fst kv), f (snd kv)))
      (replaceMember keyEqb k v l).
Proof.
  induction l as [|[k' v'] l IH]; [reflexivity|].
  cbn [List.map replaceMember fst snd]. rewrite g_eqb.
  destruct (keyEqb k k'); [reflexivity|].
  cbn [List.map fst snd]. rewrite IH. reflexivity.
Qed.

Lemma insertIndex_map (i : Z) (k : K) (v : V) (l : list (K * V)) :
  insertIndex indexOf' i (g k) (f v)
    (List.map (fun kv => (g (fst kv), f (snd kv))) l)
  = List.map (fun kv => (g (fst kv), f (snd kv)))
      (insertIndex indexOf i k v l).
Proof.
  induction l as [|[k' v'] l IH]; [reflexivity|].
  cbn [List.map insertIndex fst snd]. rewrite g_index.
  destruct (indexOf k') as [j|]; [|reflexivity].
  destruct (j <? i); [|reflexivity].
  cbn [List.map fst snd]. rewrite IH. reflexivity.
Qed.

Lemma setMember_map (k : K) (v : V) (l : list (K * V)) :
  setMember keyEqb' indexOf' (g k) (f v)
    (List.map (fun kv => (g (fst kv), f (snd kv))) l)
  = List.map (fun kv => (g (fst kv), f (snd kv)))
      (setMember keyEqb indexOf k v l).
Proof.
  unfold setMember. rewrite hasMember_map, g_index.
  destruct (hasMember keyEqb k l); [apply replaceMember_map|].
  destruct (indexOf k) as [i|]; [apply insertIndex_map|].
  rewrite List.map_app. reflexivity.
Qed.

Lemma fold_setMember_map (l acc : list (K * V)) :
  fold_left (fun a kv => setMember keyEqb' indexOf' (fst kv) (snd kv) a)
    (List.map (fun kv => (g (fst kv), f (snd kv))) l)
    (List.map (fun kv => (g (fst kv), f (snd kv))) acc)
  = List.map (fun kv => (g (fst kv), f (snd kv)))
      (fold_left (fun a kv => setMember keyEqb indexOf (fst kv) (snd kv) a)
         l acc).
Proof.
  revert acc. induction l as [|[k v] l IH]; intros acc; [reflexivity|].
  cbn [List.map fold_left fst snd]. rewrite setMember_map. apply IH.
Qed.

(** Renaming the keys, in a way that keeps their comparison and their
    array indices, and mapping the values commute with the definition of
    the properties. *)
Lemma ownProperties_map (l : list (K * V)) :
  ownProperties keyEqb' indexOf'
    (List.map (fun kv => (g (fst kv), f (snd kv))) l)
  = List.map (fun kv => (g (fst kv), f (snd kv)))
      (ownProperties keyEqb indexOf l).
Proof. exact (fold_setMember_map l []). Qed.

End PropertiesFacts.

Section PropertiesForall.
Context {K V : Type}.
Variable keyEqb : K -> K -> bool.
Variable indexOf : K -> option Z.
Variable Q : K * V -> Prop.

Lemma Forall_replaceMember (k : K) (v : V) (l : list (K * V)) :
  Q (k, v) -> Forall Q l -> Forall Q (replaceMember keyEqb k v l).
Proof.
  intros Hkv Hl. induction Hl as [|[k' v'] l Hx Hl IH]; [constructor|].
  cbn [replaceMember]. destruct (keyEqb k k'); constructor; assumption.
Qed.

Lemma Forall_insertIndex (i : Z) (k : K) (v : V) (l : list (K * V)) :
  Q (k, v) -> Forall Q l -> Forall Q (insertIndex indexOf i k v l).
Proof.
  intros Hkv Hl. induction Hl as [|[k' v'] l Hx Hl IH];
    [repeat constructor; assumption|].
  cbn [insertIndex].
  destruct (indexOf k') as [j|]; [destruct (j <? i)|];
    repeat (constructor; try assumption).
Qed.

Lemma Forall_setMember (k : K) (v : V) (l : list (K * V)) :
  Q (k, v) -> Forall Q l -> Forall Q (setMember keyEqb indexOf k v l).
Proof.
  intros Hkv Hl. unfold setMember.
  destruct (hasMember keyEqb k l); [apply Forall_replaceMember; assumption|].
  destruct (indexOf k); [apply Forall_insertIndex; assumption|].
  apply Forall_app. split; [assumption|]. repeat constructor. assumption.
Qed.

(** The properties of an object are among the members that define it. *)
Lemma Forall_ownProperties (l : list (K * V)) :
  Forall Q l -> Forall Q (ownProperties keyEqb indexOf l).
Proof.
  unfold ownProperties. intros Hl.
  assert (Forall Q (@nil (K * V))) as Hacc by constructor.
  revert Hacc. generalize (@nil (K * V)) as acc.
  induction Hl as [|[k v] l Hx Hl IH]; intros acc Hacc; [exact Hacc|].
  cbn [fold_left fst snd]. apply IH. apply Forall_setMember; assumption.
Qed.

End PropertiesForall.

(** *** Values *)

Lemma json_nested_ind (Q : json -> Prop) :
  Q JNull ->
  (forall b, Q (JBool b)) ->
  (forall x, Q (JNum x)) ->
  (forall s, Q (JStr s)) ->
  (forall items, Forall Q items -> Q (JArr items)) ->
  (forall members, Forall (fun kv => Q (snd kv)) members -> Q (JObj members)) ->
  forall v, Q v.
Proof.
  intros Hnull Hbool Hnum Hstr Harr Hobj.
  fix IH 1. intros [|b|x|s|items|members].
  - exact Hnull.
  - apply Hbool.
  - apply Hnum.
  - apply Hstr.
  - apply Harr. revert items. fix IHitems 1.
    intros [|x items]; constructor; [apply IH | apply IHitems].
  - apply Hobj. revert members. fix IHmembers 1.
    intros [|kv members]; constructor; [apply IH | apply IHmembers].
Qed.

Lemma stringify_JNum (x : float) :
  stringify (JNum x) =
  match Number.toString x with
  | Some text => text
  | None => "null"
  end.
Proof. reflexivity. Qed.

Lemma stringify_JArr (items : list json) :
  stringify (JArr items) =
  match items with
  | [] => "[]"
  | _ :: _ => String "[" (join "," (List.map stringify items) ++ "]")
  end.
Proof. destruct items; reflexivity. Qed.

Lemma stringify_JObj (members : list (string * json)) :
  stringify (JObj members) =
  match ownProperties String.eqb arrayIndex members with
  | [] => "{}"
  | m :: ms => String "{" (join "," (List.map memberText (m :: ms)) ++ "}")
  end.
Proof.
  pose proof (ownProperties_map String.eqb arrayIndex String.eqb arrayIndex
                (fun k => k) stringify (fun _ _ => eq_refl)
                (fun _ => eq_refl) members) as Hmap.
  cbv beta in Hmap.
  change (stringify (JObj members)) with
    (let partial :=
       List.map (fun kt => quote (fst kt) ++ ":" ++ snd kt)
         (ownProperties String.eqb arrayIndex
            (List.map (fun kv => (fst kv, stringify (snd kv))) members)) in
     match partial with
     | [] => "{}"
     | _ :: _ => String "{" (join "," partial ++ "}")
     end).
  rewrite Hmap, List.map_map. cbv zeta.
  destruct (ownProperties String.eqb arrayIndex members); reflexivity.
Qed.

(** What the text of an object is read as: its properties, their keys
    widened, their values read back. *)
Lemma reparse_JObj (members : list (string * json)) :
  reparse (JObj members) =
  JObj (ownProperties unitsEqb arrayIndexOfUnits
          (List.map (fun kv => (widen (fst kv), reparse (snd kv)))
             (ownProperties String.eqb arrayIndex members))).
Proof.
  pose proof (ownProperties_map String.eqb arrayIndex String.eqb arrayIndex
                (fun k => k) reparse (fun _ _ => eq_refl)
                (fun _ => eq_refl) members) as Hmap.
  cbv beta in Hmap.
  change (reparse (JObj members)) with
    (JObj (ownProperties unitsEqb arrayIndexOfUnits
             (List.map (fun kv => (widen (fst kv), snd kv))
                (ownProperties String.eqb arrayIndex
                   (List.map (fun kv => (fst kv, reparse (snd kv)))
                      members))))).
  rewrite Hmap, List.map_map. reflexivity.
Qed.

Lemma join_cons (sep x : string) (y : string) (rest : list string) :
  join sep (x :: y :: rest) = x ++ sep ++ join sep (y :: rest).
Proof. reflexivity. Qed.

Lemma length_append (a b : string) :
  String.length (a ++ b) = (String.length a + String.length b)%nat.
Proof.
  induction a as [|c a IH]; [reflexivity|].
  rewrite append_cons. simpl. rewrite IH. reflexivity.
Qed.

Lemma length_memberText (kv : string * json) :
  (String.length (stringify (snd kv)) + 3 <= String.length (memberText kv))%nat.
Proof.
  unfold memberText. rewrite !length_append. unfold quote.
  cbn [String.length]. rewrite length_append. cbn [String.length]. lia.
Qed.

Lemma member_app (k : string) (v : json) (tail : string) :
  memberText (k, v) ++ tail =
  String dquote (quoteBody k ++ String dquote (String ":" (stringify v ++ tail))).
Proof.
  unfold memberText, quote. cbn [fst snd].
  repeat (progress (rewrite ?append_assoc, ?append_cons, ?append_nil)).
  reflexivity.
Qed.

Lemma skipWhitespace_head (c : ascii) (s : string) :
  isWhitespace c = false -> skipWhitespace (String c s) = String c s.
Proof. intros H. simpl. rewrite H. reflexivity. Qed.

(** The first character of a number decides the branch of the parser. *)
Lemma number_head_dispatch (c : ascii) :
  isDigit c = true \/ c = "-"%char ->
  isWhitespace c = false /\
  Ascii.eqb c "n" = false /\ Ascii.eqb c "t" = false /\
  Ascii.eqb c "f" = false /\ Ascii.eqb c dquote = false /\
  Ascii.eqb c "[" = false /\ Ascii.eqb c "{" = false /\
  Ascii.eqb c "]" = false /\ Ascii.eqb c "}" = false.
Proof.
  intros [H| ->]; [|repeat split].
  destruct c as [[] [] [] [] [] [] [] []]; try discriminate H; repeat split.
Qed.

(** A printed value starts with a character that is neither white space
    nor a closing bracket. *)
Lemma stringify_head (v : json) :
  exists c s', stringify v = String c s' /\
               isWhitespace c = false /\ Ascii.eqb c "]" = false.
Proof.
  destruct v as [|[]|x|s|items|members].
  - eexists _, _. split; [reflexivity | split; reflexivity].
  - eexists _, _. split; [reflexivity | split; reflexivity].
  - eexists _, _. split; [reflexivity | split; reflexivity].
  - rewrite stringify_JNum.
    destruct (Number.toString x) as [text|] eqn:Htext.
    + destruct (parseNumber_toString x text Htext)
        as [(c & t & -> & Hc) _].
      destruct (number_head_dispatch c Hc)
        as (Hws & _ & _ & _ & _ & _ & _ & Hca & _).
      eauto.
    + eexists _, _. split; [reflexivity | split; reflexivity].
  - eexists _, _. split; [reflexivity | split; reflexivity].
  - rewrite stringify_JArr. destruct items;
      eexists _, _; (split; [reflexivity | split; reflexivity]).
  - rewrite stringify_JObj.
    match goal with
    | |- context [match ?l with [] => _ | _ :: _ => _ end] => destruct l
    end;
      eexists _, _; (split; [reflexivity | split; reflexivity]).
Qed.

Lemma parseElements_join (x : json) (xs : list json) :
  Forall (fun v => readsAs (stringify v) (reparse v)) (x :: xs) ->
  forall fuel acc rest,
    (String.length (join "," (List.map stringify (x :: xs))) + 1 < fuel)%nat ->
    parseElements fuel
      (join "," (List.map stringify (x :: xs)) ++ String "]" rest) acc
    = Some (JArr (acc ++ List.map reparse (x :: xs)), rest).
Proof.
  revert x. induction xs as [|y ys IH]; intros x Hall fuel acc rest Hfuel;
    apply Forall_cons in Hall; destruct Hall as [Hx Hall];
    (destruct fuel as [|fuel]; [lia|]); cbn [parseElements].
  - cbn [List.map join] in Hfuel |- *.
    rewrite (Hx fuel (String "]" rest)); [|lia|reflexivity].
    rewrite skipWhitespace_head by reflexivity.
    cbn [Ascii.eqb Bool.eqb andb]. reflexivity.
  - change (List.map stringify (x :: y :: ys))
      with (stringify x :: List.map stringify (y :: ys)) in Hfuel |- *.
    change (List.map stringify (y :: ys))
      with (stringify y :: List.map stringify ys) in Hfuel |- * at 1.
    rewrite join_cons in Hfuel |- *.
    change (stringify y :: List.map stringify ys)
      with (List.map stringify (y :: ys)) in Hfuel |- *.
    rewrite !length_append in Hfuel. cbn [String.length] in Hfuel.
    rewrite !append_assoc, append_cons, append_nil.
    rewrite (Hx fuel); [|lia|reflexivity].
    rewrite skipWhitespace_head by reflexivity.
    cbn [Ascii.eqb Bool.eqb andb].
    rewrite (IH y Hall fuel (acc ++ [reparse x])%list rest); [|lia].
    rewrite <- app_assoc. reflexivity.
Qed.

Lemma parseMembers_join (m : string * json) (ms : list (string * json)) :
  Forall (fun kv => readsAs (stringify (snd kv)) (reparse (snd kv)))
    (m :: ms) ->
  forall fuel acc rest,
    (String.length (join "," (List.map memberText (m :: ms))) + 1 < fuel)%nat ->
    parseMembers fuel
      (join "," (List.map memberText (m :: ms)) ++ String "}" rest) acc
    = Some (JObj (fold_left
                    (fun a kv => defineMember (fst kv) (snd kv) a)
                    (List.map (fun kv => (widen (fst kv), reparse (snd kv)))
                       (m :: ms)) acc), rest).
Proof.
  revert m. induction ms as [|m' ms IH];
    intros [k v] Hall fuel acc rest Hfuel;
    apply Forall_cons in Hall; destruct Hall as [Hv Hall];
    pose proof (length_memberText (k, v)) as Hlen;
    (destruct fuel as [|fuel]; [lia|]);
    cbn [fst snd] in Hv, Hlen; cbn [parseMembers List.map].
  - cbn [join List.map] in Hfuel |- *. rewrite member_app.
    rewrite skipWhitespace_head by reflexivity.
    rewrite Ascii.eqb_refl, parseChars_quoteBody.
    rewrite skipWhitespace_head by reflexivity.
    cbn [Ascii.eqb Bool.eqb andb].
    rewrite (Hv fuel (String "}" rest)); [|lia|reflexivity].
    rewrite skipWhitespace_head by reflexivity.
    cbn [Ascii.eqb Bool.eqb andb]. reflexivity.
  - change (List.map memberText ((k, v) :: m' :: ms))
      with (memberText (k, v) :: memberText m' :: List.map memberText ms)
      in Hfuel |- *.
    rewrite join_cons in Hfuel |- *.
    change (memberText m' :: List.map memberText ms) with
      (List.map memberText (m' :: ms)) in Hfuel |- *.
    rewrite !length_append in Hfuel. cbn [String.length] in Hfuel.
    rewrite !append_assoc, member_app.
    rewrite skipWhitespace_head by reflexivity.
    rewrite Ascii.eqb_refl, parseChars_quoteBody.
    rewrite skipWhitespace_head by reflexivity.
    cbn [Ascii.eqb Bool.eqb andb].
    rewrite append_cons, append_nil.
    rewrite (Hv fuel); [|lia|reflexivity].
    rewrite skipWhitespace_head by reflexivity.
    cbn [Ascii.eqb Bool.eqb andb].
    rewrite (IH m' Hall fuel (defineMember (widen k) (reparse v) acc) rest);
      [|lia].
    reflexivity.
Qed.

(** An array is read back whatever follows its closing bracket. *)
Lemma parseValue_array_any (items : list json) (fuel : nat) (rest : string) :
  Forall (fun v => readsAs (stringify v) (reparse v)) items ->
  (String.length (stringify (JArr items)) < fuel)%nat ->
  parseValue fuel (stringify (JArr items) ++ rest)
  = Some (reparse (JArr items), rest).
Proof.
  intros Hall Hfuel. destruct fuel as [|fuel]; [lia|].
  rewrite stringify_JArr in *. destruct items as [|x xs]; [reflexivity|].
  cbn [String.length] in Hfuel. rewrite length_append in Hfuel.
  cbn [String.length] in Hfuel.
  rewrite append_cons, append_assoc, append_cons, append_nil.
  cbn [parseValue]. rewrite skipWhitespace_head by reflexivity.
  cbn [Ascii.eqb Bool.eqb andb].
  pose proof (parseElements_join x xs Hall fuel [] rest ltac:(lia)) as Hparse.
  destruct (stringify_head x) as (c & s' & Hhead & Hws & Hclose).
  assert (exists tail,
            join "," (List.map stringify (x :: xs)) ++ String "]" rest
            = String c tail) as [tail Htext].
  { destruct xs as [|y ys].
    - cbn [List.map join]. rewrite Hhead, append_cons. eauto.
    - cbn [List.map]. rewrite join_cons, Hhead, !append_cons. eauto. }
  rewrite Htext in *. rewrite skipWhitespace_head by assumption.
  rewrite Hclose. exact Hparse.
Qed.

(** An object is read back whatever follows its closing brace. *)
Lemma parseValue_object_any (members : list (string * json)) (fuel : nat)
    (rest : string) :
  Forall (fun kv => readsAs (stringify (snd kv)) (reparse (snd kv)))
    members ->
  (String.length (stringify (JObj members)) < fuel)%nat ->
  parseValue fuel (stringify (JObj members) ++ rest)
  = Some (reparse (JObj members), rest).
Proof.
  intros Hall Hfuel. destruct fuel as [|fuel]; [lia|].
  rewrite reparse_JObj. rewrite stringify_JObj in *.
  apply (Forall_ownProperties String.eqb arrayIndex) in Hall.
  destruct (ownProperties String.eqb arrayIndex members) as [|[k x] ms];
    [reflexivity|].
  cbn [String.length] in Hfuel. rewrite length_append in Hfuel.
  cbn [String.length] in Hfuel.
  rewrite append_cons, append_assoc, append_cons, append_nil.
  cbn [parseValue]. rewrite skipWhitespace_head by reflexivity.
  cbn [Ascii.eqb Bool.eqb andb].
  pose proof (parseMembers_join (k, x) ms Hall fuel [] rest ltac:(lia))
    as Hparse.
  assert (exists s', join "," (List.map memberText ((k, x) :: ms)) ++
                     String "}" rest = String dquote s') as [s' Htext].
  { destruct ms as [|m' ms].
    - cbn [List.map join]. rewrite member_app. eauto.
    - cbn [List.map]. rewrite join_cons, !append_assoc, member_app. eauto. }
  rewrite Htext in *. rewrite skipWhitespace_head by reflexivity.
  unfold dquote at 1. cbn [Ascii.eqb Bool.eqb andb].
  exact Hparse.
Qed.

(** Every value is read back from its compact text, as [reparse] says. *)
Theorem stringify_readsAs (v : json) : readsAs (stringify v) (reparse v).
Proof.
  induction v as [|b|x|s|items IH|members IH] using json_nested_ind.
  - intros fuel rest Hfuel _. destruct fuel as [|fuel]; [lia|]. reflexivity.
  - intros fuel rest Hfuel _. destruct fuel as [|fuel]; [lia|].
    destruct b; reflexivity.
  - intros fuel rest Hfuel Hrest. destruct fuel as [|fuel]; [lia|].
    rewrite stringify_JNum. cbn [reparse].
    destruct (Number.toString x) as [text|] eqn:Htext; [|reflexivity].
    destruct (parseNumber_toString x text Htext)
      as [(c & t & -> & Hc) Hnum].
    specialize (Hnum rest Hrest). rewrite append_cons in *.
    destruct (number_head_dispatch c Hc)
      as (Hws & Hn & Ht & Hf & Hq & Ha & Ho & _).
    cbn [parseValue]. rewrite skipWhitespace_head by assumption.
    rewrite Hn, Ht, Hf, Hq, Ha, Ho, Hnum. reflexivity.
  - intros fuel rest Hfuel _. destruct fuel as [|fuel]; [lia|].
    change (stringify (JStr s)) with (quote s). rewrite quote_app.
    cbn [parseValue]. rewrite skipWhitespace_head by reflexivity.
    unfold dquote at 1 2 3 4 5. cbn [Ascii.eqb Bool.eqb andb].
    fold dquote. rewrite parseChars_quoteBody. reflexivity.
  - intros fuel rest Hfuel _. apply parseValue_array_any; assumption.
  - intros fuel rest Hfuel _. apply parseValue_object_any; assumption.
Qed.

(** [JSON.parse(JSON.stringify(v))] is [reparse v]. *)
Theorem parse_stringify (v : json) : parse (stringify v) = Some (reparse v).
Proof.
  unfold parse.
  pose proof (stringify_readsAs v (S (String.length (stringify v)))
                EmptyString ltac:(lia) eq_refl) as Hparse.
  rewrite append_nil_r in Hparse. rewrite Hparse. reflexivity.
Qed.

(** A plain value is read back as it is. *)
Theorem reparse_plain (v : json) : plain v -> reparse v = widenValue v.
Proof.
  induction v as [|b|x|s|items IH|members IH] using json_nested_ind;
    intros Hplain; try reflexivity.
  - cbn [plain] in Hplain. destruct Hplain as [Hfinite Hsame].
    cbn [reparse widenValue].
    destruct (Number.toString x); [|congruence]. rewrite Hsame. reflexivity.
  - cbn [reparse widenValue]. f_equal.
    cbn [plain] in Hplain. induction IH as [|y ys Hy _ IHys]; [reflexivity|].
    destruct Hplain as [Hpy Hpys]. cbn [List.map].
    rewrite (Hy Hpy), (IHys Hpys). reflexivity.
  - rewrite reparse_JObj. cbn [plain] in Hplain.
    destruct Hplain as [Horder Hvalues].
    pose proof (ownProperties_map String.eqb arrayIndex unitsEqb
                  arrayIndexOfUnits widen reparse unitsEqb_widen
                  arrayIndexOfUnits_widen members) as Hmap.
    unfold json in *. rewrite Horder, Hmap, Horder.
    cbn [widenValue]. f_equal.
    clear Horder Hmap. induction IH as [|[k y] ys Hy _ IHys]; [reflexivity|].
    destruct Hvalues as [Hpy Hpys]. cbn [List.map fst snd] in *.
    rewrite (Hy Hpy), (IHys Hpys). reflexivity.
Qed.

(** A plain value comes back from its text as it is. *)
Lemma parse_stringify_plain (v : json) :
  plain v -> parse (stringify v) = Some (widenValue v).
Proof. intros Hplain. rewrite parse_stringify, reparse_plain; auto. Qed.

(** *** The fuel of the parser is never short *)

Lemma length_skipWhitespace (s : string) :
  (String.length (skipWhitespace s) <= String.length s)%nat.
Proof.
  induction s as [|c s IH]; [reflexivity|]. cbn [skipWhitespace].
  destruct (isWhitespace c); cbn [String.length]; lia.
Qed.

Lemma length_expect (lit s r : string) :
  expect lit s = Some r -> (String.length r <= String.length s)%nat.
Proof.
  revert s. induction lit as [|a lit IH]; intros [|b s]; cbn [expect];
    try discriminate; try (intros [= <-]; lia).
  destruct (Ascii.eqb a b); [|discriminate].
  intros H. apply IH in H. cbn [String.length]. lia.
Qed.

Lemma length_spanDigits (s d r : string) :
  spanDigits s = (d, r) -> (String.length r <= String.length s)%nat.
Proof.
  revert d r. induction s as [|c s IH]; intros d r; cbn [spanDigits].
  - intros [= <- <-]. reflexivity.
  - destruct (isDigit c).
    + destruct (spanDigits s) as [d' r'] eqn:E. intros [= <- <-].
      specialize (IH _ _ eq_refl). cbn [String.length]. lia.
    + intros [= <- <-]. lia.
Qed.

Lemma length_scanInteger (s i r : string) :
  scanInteger s = Some (i, r) -> (String.length r < String.length s)%nat.
Proof.
  destruct s as [|c s]; [discriminate|]. unfold scanInteger.
  destruct (Ascii.eqb c "0").
  - intros [= <- <-]. cbn [String.length]. lia.
  - destruct (isDigit c) eqn:Hc; [|discriminate].
    cbn [spanDigits]. rewrite Hc.
    destruct (spanDigits s) as [d' r'] eqn:E. intros [= <- <-].
    apply length_spanDigits in E. cbn [String.length]. lia.
Qed.

Lemma length_scanFraction (s f r : string) :
  scanFraction s = Some (f, r) -> (String.length r <= String.length s)%nat.
Proof.
  destruct s as [|c s]; [intros [= <- <-]; reflexivity|]. unfold scanFraction.
  destruct (Ascii.eqb c "."); [|intros [= <- <-]; lia].
  destruct (spanDigits s) as [d' r'] eqn:E. apply length_spanDigits in E.
  destruct d'; [discriminate|]. intros [= <- <-]. cbn [String.length]. lia.
Qed.

Lemma length_scanExponent (s : string) (e : Z) (r : string) :
  scanExponent s = Some (e, r) -> (String.length r <= String.length s)%nat.
Proof.
  destruct s as [|c s]; [intros [= <- <-]; reflexivity|]. unfold scanExponent.
  destruct (Ascii.eqb c "e" || Ascii.eqb c "E"); [|intros [= <- <-]; lia].
  assert (forall (h : Z -> Z) t,
            (String.length t <= String.length s)%nat ->
            match spanDigits t with
            | (EmptyString, _) => None
            | (d, r0) => Some (h (digitsValue 0 d), r0)
            end = Some (e, r) ->
            (String.length r <= String.length (String c s))%nat) as Hspan.
  { intros h t Ht. destruct (spanDigits t) as [d' r'] eqn:E.
    apply length_spanDigits in E. destruct d'; [discriminate|].
    intros [= <- <-]. cbn [String.length]. lia. }
  destruct s as [|sign t]; [apply (Hspan (fun z => z)); reflexivity|].
  destruct (Ascii.eqb sign "-");
    [apply (Hspan Z.opp); cbn [String.length]; lia|].
  destruct (Ascii.eqb sign "+");
    apply (Hspan (fun z => z)); cbn [String.length]; lia.
Qed.

Lemma length_scanUnsigned (s : string) (m e : Z) (r : string) :
  scanUnsigned s = Some (m, e, r) -> (String.length r < String.length s)%nat.
Proof.
  unfold scanUnsigned.
  destruct (scanInteger s) as [[i s2]|] eqn:Ei; [|discriminate].
  destruct (scanFraction s2) as [[f s3]|] eqn:Ef; [|discriminate].
  destruct (scanExponent s3) as [[e' s4]|] eqn:Ee; [|discriminate].
  intros [= <- <- <-].
  apply length_scanInteger in Ei. apply length_scanFraction in Ef.
  apply length_scanExponent in Ee. lia.
Qed.

Lemma length_parseNumber (s : string) (x : float) (r : string) :
  parseNumber s = Some (x, r) -> (String.length r < String.length s)%nat.
Proof.
  destruct s as [|c t]; [discriminate|]. unfold parseNumber.
  destruct (Ascii.eqb c "-").
  - destruct (scanUnsigned t) as [[[m e] r0]|] eqn:E; [|discriminate].
    intros [= <- <-]. apply length_scanUnsigned in E.
    cbn [String.length]. lia.
  - destruct (scanUnsigned (String c t)) as [[[m e] r0]|] eqn:E;
      [|discriminate].
    intros [= <- <-]. apply length_scanUnsigned in E. assumption.
Qed.

Lemma length_parseChars_upto (n : nat) :
  forall (s : string) (k : jsString) (r : string),
    (String.length s <= n)%nat ->
    parseChars s = Some (k, r) -> (String.length r < String.length s)%nat.
Proof.
  induction n as [|n IH]; intros s k r Hn.
  - destruct s; [discriminate | cbn [String.length] in Hn; lia].
  - destruct s as [|c s]; [discriminate|]. cbn [parseChars]. cbv zeta.
    repeat
      match goal with
      | |- None = Some _ -> _ => discriminate
      | |- Some _ = Some _ -> _ =>
          intros [= _ <-]; cbn [String.length] in *; lia
      | |- (if ?b then _ else _) = Some _ -> _ => destruct b
      | |- match parseChars ?t with _ => _ end = Some _ -> _ =>
          let E := fresh "E" in
          destruct (parseChars t) as [[? ?]|] eqn:E; [|discriminate];
          intros [= _ <-]; apply IH in E; cbn [String.length] in *; lia
      | |- match hexValue ?h with _ => _ end = Some _ -> _ =>
          destruct (hexValue h)
      | |- match ?t with EmptyString => _ | String _ _ => _ end = Some _ -> _ =>
          destruct t
      end.
Qed.

Lemma length_parseChars (s : string) (k : jsString) (r : string) :
  parseChars s = Some (k, r) -> (String.length r < String.length s)%nat.
Proof. apply (length_parseChars_upto (String.length s)). reflexivity. Qed.

(** A value that is read with some fuel is read, and is the same, with
    any fuel that is at least the number of characters read. *)
Lemma parser_fuel (fuel : nat) :
  (forall s v r,
     parseValue fuel s = Some (v, r) ->
     (String.length r < String.length s)%nat /\
     forall g, (String.length s - String.length r <= g)%nat ->
               parseValue g s = Some (v, r)) /\
  (forall s acc v r,
     parseElements fuel s acc = Some (v, r) ->
     (String.length r < String.length s)%nat /\
     forall g, (String.length s - String.length r <= g)%nat ->
               parseElements g s acc = Some (v, r)) /\
  (forall s acc v r,
     parseMembers fuel s acc = Some (v, r) ->
     (String.length r < String.length s)%nat /\
     forall g, (String.length s - String.length r <= g)%nat ->
               parseMembers g s acc = Some (v, r)).
Proof.
  induction fuel as [|fuel (IHv & IHe & IHm)].
  { repeat split; intros; discriminate. }
  split; [|split].
  - intros s v r. cbn [parseValue].
    pose proof (length_skipWhitespace s) as Hws.
    destruct (skipWhitespace s) as [|c rest] eqn:Hs; [discriminate|].
    cbn [String.length] in Hws.
    destruct (Ascii.eqb c "n") eqn:En.
    { destruct (expect "ull" rest) as [r0|] eqn:Ex; [|discriminate].
      intros [= <- <-]. pose proof (length_expect _ _ _ Ex).
      split; [lia|]. intros g Hg. destruct g as [|g]; [lia|].
      cbn [parseValue]. rewrite Hs, En, Ex. reflexivity. }
    destruct (Ascii.eqb c "t") eqn:Et.
    { destruct (expect "rue" rest) as [r0|] eqn:Ex; [|discriminate].
      intros [= <- <-]. pose proof (length_expect _ _ _ Ex).
      split; [lia|]. intros g Hg. destruct g as [|g]; [lia|].
      cbn [parseValue]. rewrite Hs, En, Et, Ex. reflexivity. }
    destruct (Ascii.eqb c "f") eqn:Ef.
    { destruct (expect "alse" rest) as [r0|] eqn:Ex; [|discriminate].
      intros [= <- <-]. pose proof (length_expect _ _ _ Ex).
      split; [lia|]. intros g Hg. destruct g as [|g]; [lia|].
      cbn [parseValue]. rewrite Hs, En, Et, Ef, Ex. reflexivity. }
    destruct (Ascii.eqb c dquote) eqn:Eq.
    { destruct (parseChars rest) as [[str r0]|] eqn:Ec; [|discriminate].
      intros [= <- <-]. pose proof (length_parseChars _ _ _ Ec).
      split; [lia|]. intros g Hg. destruct g as [|g]; [lia|].
      cbn [parseValue]. rewrite Hs, En, Et, Ef, Eq, Ec. reflexivity. }
    destruct (Ascii.eqb c "[") eqn:Ea.
    { pose proof (length_skipWhitespace rest) as Hws2.
      destruct (skipWhitespace rest) as [|c' r'] eqn:Hs2; [discriminate|].
      cbn [String.length] in Hws2.
      destruct (Ascii.eqb c' "]") eqn:Ecl.
      - intros [= <- <-]. split; [lia|]. intros g Hg.
        destruct g as [|g]; [lia|].
        cbn [parseValue]. rewrite Hs, En, Et, Ef, Eq, Ea, Hs2, Ecl.
        reflexivity.
      - intros Hp. destruct (IHe _ _ _ _ Hp) as [Hlt Hany].
        split; [lia|]. intros g Hg. destruct g as [|g]; [lia|].
        cbn [parseValue]. rewrite Hs, En, Et, Ef, Eq, Ea, Hs2, Ecl.
        apply Hany. lia. }
    destruct (Ascii.eqb c "{") eqn:Eo.
    { pose proof (length_skipWhitespace rest) as Hws2.
      destruct (skipWhitespace rest) as [|c' r'] eqn:Hs2; [discriminate|].
      cbn [String.length] in Hws2.
      destruct (Ascii.eqb c' "}") eqn:Ecl.
      - intros [= <- <-]. split; [lia|]. intros g Hg.
        destruct g as [|g]; [lia|].
        cbn [parseValue]. rewrite Hs, En, Et, Ef, Eq, Ea, Eo, Hs2, Ecl.
        reflexivity.
      - intros Hp. destruct (IHm _ _ _ _ Hp) as [Hlt Hany].
        split; [lia|]. intros g Hg. destruct g as [|g]; [lia|].
        cbn [parseValue]. rewrite Hs, En, Et, Ef, Eq, Ea, Eo, Hs2, Ecl.
        apply Hany. lia. }
    destruct (parseNumber (String c rest)) as [[x r0]|] eqn:Enum;
      [|discriminate].
    intros [= <- <-]. pose proof (length_parseNumber _ _ _ Enum) as Hnum.
    cbn [String.length] in Hnum.
    split; [lia|]. intros g Hg. destruct g as [|g]; [lia|].
    cbn [parseValue]. rewrite Hs, En, Et, Ef, Eq, Ea, Eo, Enum. reflexivity.
  - intros s acc v r. cbn [parseElements].
    destruct (parseValue fuel s) as [[v1 r1]|] eqn:Ev; [|discriminate].
    destruct (IHv _ _ _ Ev) as [Hlt1 Hany1].
    pose proof (length_skipWhitespace r1) as Hws.
    destruct (skipWhitespace r1) as [|c r'] eqn:Hs1; [discriminate|].
    cbn [String.length] in Hws.
    destruct (Ascii.eqb c ",") eqn:Ecomma.
    + intros Hp. destruct (IHe _ _ _ _ Hp) as [Hlt2 Hany2].
      split; [lia|]. intros g Hg. destruct g as [|g]; [lia|].
      cbn [parseElements]. rewrite (Hany1 g) by lia.
      rewrite Hs1, Ecomma. apply Hany2. lia.
    + destruct (Ascii.eqb c "]") eqn:Ecl; [|discriminate].
      intros [= <- <-]. split; [lia|]. intros g Hg.
      destruct g as [|g]; [lia|].
      cbn [parseElements]. rewrite (Hany1 g) by lia.
      rewrite Hs1, Ecomma, Ecl. reflexivity.
  - intros s acc v r. cbn [parseMembers].
    pose proof (length_skipWhitespace s) as Hws.
    destruct (skipWhitespace s) as [|q afterQuote] eqn:Hs; [discriminate|].
    cbn [String.length] in Hws.
    destruct (Ascii.eqb q dquote) eqn:Eq; [|discriminate].
    destruct (parseChars afterQuote) as [[k afterKey]|] eqn:Ek;
      [|discriminate].
    pose proof (length_parseChars _ _ _ Ek) as Hk.
    pose proof (length_skipWhitespace afterKey) as Hws2.
    destruct (skipWhitespace afterKey) as [|colon afterColon] eqn:Hs2;
      [discriminate|].
    cbn [String.length] in Hws2.
    destruct (Ascii.eqb colon ":") eqn:Ecolon; [|discriminate].
    destruct (parseValue fuel afterColon) as [[v1 r1]|] eqn:Ev;
      [|discriminate].
    destruct (IHv _ _ _ Ev) as [Hlt1 Hany1].
    pose proof (length_skipWhitespace r1) as Hws3.
    destruct (skipWhitespace r1) as [|c r'] eqn:Hs3; [discriminate|].
    cbn [String.length] in Hws3.
    destruct (Ascii.eqb c ",") eqn:Ecomma.
    + intros Hp. destruct (IHm _ _ _ _ Hp) as [Hlt2 Hany2].
      split; [lia|]. intros g Hg. destruct g as [|g]; [lia|].
      cbn [parseMembers]. rewrite Hs, Eq, Ek, Hs2, Ecolon.
      rewrite (Hany1 g) by lia. rewrite Hs3, Ecomma. apply Hany2. lia.
    + destruct (Ascii.eqb c "}") eqn:Ecl; [|discriminate].
      intros [= <- <-]. split; [lia|]. intros g Hg.
      destruct g as [|g]; [lia|].
      cbn [parseMembers]. rewrite Hs, Eq, Ek, Hs2, Ecolon.
      rewrite (Hany1 g) by lia. rewrite Hs3, Ecomma, Ecl. reflexivity.
Qed.

(** The fuel that [parse] gives is enough: a text that is read as a value
    with some fuel is read as that value by [parse]. *)
Theorem parse_fuel_enough (fuel : nat) (text : string)
    (v : jsvalue jsString) (rest : string) :
  parseValue fuel text = Some (v, rest) ->
  skipWhitespace rest = EmptyString ->
  parse text = Some v.
Proof.
  intros Hp Hrest. destruct (parser_fuel fuel) as (Hv & _ & _).
  destruct (Hv _ _ _ Hp) as [_ Hany]. unfold parse.
  rewrite (Hany (S (String.length text))) by lia.
  rewrite Hrest. reflexivity.
Qed.

End JSONFacts.

(** X27.  When the test [if (args)] passes, the arguments reach the
    program as the JSON text of [ARGS_JSON]; parsing that text gives what
    [JSON.reparse] says, which is the arguments themselves when they are
    plain. *)
Theorem passed_arguments_round_trip `{P : Provider} (clock : nat -> Z)
    (process_env : gmap string (option string)) (code : string)
    (dependencies : option (list string))
    (inputFiles : option (list (string * string))) (v : json) (w : World)
    (envs : gmap string string) :
  truthy v = true ->
  envsOf (trace (snd (invoke clock process_env code dependencies inputFiles
                        (Some v) w))) = Some envs ->
  exists text,
    envs !! "ARGS_JSON" = Some text /\
    text = JSON.stringify v /\
    JSON.parse text = Some (JSON.reparse v) /\
    (JSON.plain v -> JSON.parse text = Some (widenValue v)).
Proof.
  intros Htruthy Henvs.
  destruct (arguments_round_trip_of_builtins (JB := ECMAScript_JSON) clock
              process_env code
              dependencies inputFiles (Some v) w v (JSON.reparse v) envs
              eq_refl Htruthy (JSONFacts.parse_stringify v) Henvs)
    as (text & Htext & -> & Hparse).
  exists (JSON.stringify v). repeat split; try assumption.
  intros Hplain. apply JSONFacts.parse_stringify_plain. assumption.
Qed.


(** ** The claims on the scripted sandbox *)

(** C1, counterexample.  Everything succeeds but [sbx.kill()] throws: the
    adapter raises instead of returning a result. *)
Lemma C1_counterexample_teardown_throws :
  ~ (exists r,
       fst (invoke wall_clock demo_env "code" None None None kill_fails)
       = Ok r).
Proof. intros [r H]. vm_compute in H. discriminate H. Qed.

Lemma C1_witness_staging_fails :
  existsb teardownFailed
    (trace (snd (invoke wall_clock demo_env "code" None
                   (Some [("a.txt", "hi")]) None write_fails))) = false /\
  exists r,
    fst (invoke wall_clock demo_env "code" None (Some [("a.txt", "hi")]) None
           write_fails) = Ok r /\
    (existsb fatal
       (trace (snd (invoke wall_clock demo_env "code" None
                      (Some [("a.txt", "hi")]) None write_fails))) = true ->
     is_Some (error r) /\ stdout r = EmptyString /\
     result r = None /\ files r = None).
Proof.
  assert (existsb teardownFailed
            (trace (snd (invoke wall_clock demo_env "code" None
                           (Some [("a.txt", "hi")]) None write_fails)))
          = false) as Hteardown
    by (vm_compute; reflexivity).
  split; [exact Hteardown|].
  exact (C1_failures_folded_when_teardown_succeeds (P := Scripted) wall_clock
           demo_env "code" None (Some [("a.txt", "hi")]) None write_fails
           Hteardown).
Defined.

(** C2, at the arguments [0].  The arguments are supplied, yet no
    [ARGS_JSON] is forwarded: the test [if (args)] fails for them. *)
Lemma C2_zero_arguments_not_forwarded :
  envsOf (trace (snd (invoke wall_clock demo_env "code" None None
                        (Some (JNum 0)) healthy)))
  = Some (buildEnvVars demo_env (Some (JNum 0))) /\
  buildEnvVars demo_env (Some (JNum 0)) !! "ARGS_JSON" = None.
Proof. split; vm_compute; reflexivity. Qed.

Lemma forwarded_environment_witness :
  envsOf (trace (snd (invoke wall_clock demo_env "code" None None
                        (Some demo_args) healthy)))
  = Some (buildEnvVars demo_env (Some demo_args)) /\
  forall key,
    is_Some (buildEnvVars demo_env (Some demo_args) !! key) <->
    (is_Some (demo_env !! key) /\ forwardedName key) \/
    (key = "ARGS_JSON" /\ js_if (Some demo_args) = true).
Proof.
  assert (envsOf (trace (snd (invoke wall_clock demo_env "code" None None
                                (Some demo_args) healthy)))
          = Some (buildEnvVars demo_env (Some demo_args))) as Henvs
    by (vm_compute; reflexivity).
  split; [exact Henvs|].
  exact (forwarded_environment (P := Scripted) wall_clock demo_env "code"
           None None (Some demo_args) healthy _ Henvs).
Defined.

(** C3, counterexample.  The program prints [{}] and then faults: the
    result carries both [error] and [result]. *)
Lemma C3_counterexample_fault_after_output :
  ~ (forall r,
       fst (invoke wall_clock demo_env "code" None None None faulted) = Ok r ->
       is_Some (error r) -> result r = None).
Proof.
  intros H.
  assert (fst (invoke wall_clock demo_env "code" None None None faulted)
          = Ok faulted_result) as Hr
    by (vm_compute; reflexivity).
  specialize (H faulted_result Hr (ex_intro _ _ eq_refl)).
  discriminate H.
Qed.

Lemma C3_witness_staging_fails :
  fst (invoke wall_clock demo_env "code" None (Some [("a.txt", "hi")]) None
         write_fails) = Ok (caught boom "unknown error") /\
  is_Some (error (caught boom "unknown error")) /\
  faultReported
    (trace (snd (invoke wall_clock demo_env "code" None
                   (Some [("a.txt", "hi")]) None write_fails))) = false /\
  result (caught boom "unknown error") = None.
Proof.
  assert (fst (invoke wall_clock demo_env "code" None
                 (Some [("a.txt", "hi")]) None write_fails)
          = Ok (caught boom "unknown error")) as H1
    by (vm_compute; reflexivity).
  assert (is_Some (error (caught boom "unknown error"))) as H2
    by (exact (ex_intro _ _ eq_refl)).
  assert (faultReported
            (trace (snd (invoke wall_clock demo_env "code" None
                           (Some [("a.txt", "hi")]) None write_fails)))
          = false) as H3
    by (vm_compute; reflexivity).
  split; [exact H1|]. split; [exact H2|]. split; [exact H3|].
  exact (C3_error_without_fault_excludes_result (P := Scripted) wall_clock
           demo_env "code" None (Some [("a.txt", "hi")]) None write_fails _
           H1 H2 H3).
Defined.

(** C4, counterexample.  Provisioning fails: no teardown is attempted. *)
Lemma C4_counterexample_no_sandbox_no_teardown :
  teardowns (trace (snd (invoke wall_clock demo_env "code" None None None
                           (no_sandbox boom)))) <> 1%nat.
Proof. vm_compute. discriminate. Qed.

(** The healthy run: its result, its execution and its listing. *)
Lemma healthy_run :
  fst (invoke wall_clock demo_env "code" (Some ["axios"])
         (Some [("a.txt", "hi")]) (Some demo_args) healthy)
  = Ok healthy_result.
Proof. vm_compute. reflexivity. Qed.

Lemma healthy_run_execution :
  executionOf
    (trace (snd (invoke wall_clock demo_env "code" (Some ["axios"])
                   (Some [("a.txt", "hi")]) (Some demo_args) healthy)))
  = Some healthy_execution.
Proof. vm_compute. reflexivity. Qed.

Lemma healthy_run_listing :
  listingOf
    (trace (snd (invoke wall_clock demo_env "code" (Some ["axios"])
                   (Some [("a.txt", "hi")]) (Some demo_args) healthy)))
  = Some demo_listing.
Proof. vm_compute. reflexivity. Qed.

Lemma healthy_run_collected :
  existsb collectionFailed
    (trace (snd (invoke wall_clock demo_env "code" (Some ["axios"])
                   (Some [("a.txt", "hi")]) (Some demo_args) healthy)))
  = false.
Proof. vm_compute. reflexivity. Qed.

Lemma C5_witness_log_lines_around_json :
  stdout healthy_result = join EmptyString (logs_stdout healthy_execution) /\
  result healthy_result = match jsonMatch (stdout healthy_result) with
                          | Some m => JSON_parse m
                          | None => None
                          end /\
  (forall m, jsonMatch (stdout healthy_result) = Some m <->
             firstBraceSpan (stdout healthy_result) m) /\
  error healthy_result = errorOf healthy_execution.
Proof.
  exact (C5_result_is_parse_of_greedy_span (P := Scripted) wall_clock demo_env
           "code" (Some ["axios"]) (Some [("a.txt", "hi")]) (Some demo_args)
           healthy healthy_result healthy_execution healthy_run
           healthy_run_execution).
Defined.

(** C5, counterexample.  The program prints two objects, one on each
    line: the first of them is JSON, and yet the result is not its parse
    but absent, because the match runs on to the last closing brace. *)
Lemma C5_counterexample_two_objects :
  exists r,
    fst (invoke wall_clock demo_env "code" None None None two_objects)
    = Ok r /\
    stdout r = first_object ++ nl ++ second_object ++ nl /\
    JSON_parse first_object = Some (JObj [(widen "a", JNum 1)]) /\
    result r <> JSON_parse first_object /\
    result r = None.
Proof.
  eexists. split; [vm_compute; reflexivity|].
  split; [vm_compute; reflexivity|].
  split; [vm_compute; reflexivity|].
  split; [vm_compute; discriminate | vm_compute; reflexivity].
Qed.

Lemma C6_witness_report_csv_only :
  (forall name,
     name <> "__proto__" ->
     is_Some (files healthy_result ≫= (fun m => m !! name)) <->
     exists f, f ∈ demo_listing /\ collectableEntry f /\ entry_name f = name) /\
  (forall name content,
     files healthy_result ≫= (fun m => m !! name) = Some content ->
     readOk
       (trace (snd (invoke wall_clock demo_env "code" (Some ["axios"])
                      (Some [("a.txt", "hi")]) (Some demo_args) healthy)))
       ("/home/user/" ++ name) content) /\
  files healthy_result <> Some ∅ /\
  ((forall f, f ∈ demo_listing -> ~ collectableEntry f) ->
   files healthy_result = None).
Proof.
  exact (C6_output_files_exactly_collectable (P := Scripted) wall_clock
           demo_env "code" (Some ["axios"]) (Some [("a.txt", "hi")])
           (Some demo_args) healthy healthy_result demo_listing healthy_run
           healthy_run_listing healthy_run_collected).
Defined.

(** C6, counterexample.  The listing holds [report.csv], a regular file
    outside the exclusion set, but reading it fails: [files] is absent. *)
Lemma C6_counterexample_read_fails :
  listingOf (trace (snd (invoke wall_clock demo_env "code" None None None
                           read_fails))) = Some demo_listing /\
  (exists f, f ∈ demo_listing /\ collectableEntry f /\
             entry_name f = "report.csv") /\
  exists r,
    fst (invoke wall_clock demo_env "code" None None None read_fails)
    = Ok r /\
    files r = None.
Proof.
  split; [vm_compute; reflexivity|]. split.
  - exists {| entry_name := "report.csv"; entry_type := TFile |}.
    split; [|split; [apply collectable_spec|]; reflexivity].
    unfold demo_listing. do 4 (apply elem_of_cons; right).
    apply elem_of_cons. left. reflexivity.
  - eexists. split; vm_compute; reflexivity.
Qed.

(** C7, at the arguments [false].  The arguments are supplied, yet the
    program finds no [ARGS_JSON] to parse: the test [if (args)] fails for
    them. *)
Lemma C7_false_arguments_not_exposed :
  envsOf (trace (snd (invoke wall_clock demo_env "code" None None
                        (Some (JBool false)) healthy)))
  = Some (buildEnvVars demo_env (Some (JBool false))) /\
  ~ (exists text,
       buildEnvVars demo_env (Some (JBool false)) !! "ARGS_JSON" = Some text /\
       JSON_parse text = Some (JBool false)).
Proof.
  split; [vm_compute; reflexivity|].
  intros [text [H _]]. vm_compute in H. discriminate H.
Qed.

(** The demonstration arguments are plain. *)
Lemma demo_args_plain : JSON.plain demo_args.
Proof.
  split; [vm_compute; reflexivity|].
  split; [|split; exact I].
  split; [vm_compute; discriminate | vm_compute; reflexivity].
Qed.

Lemma passed_arguments_round_trip_witness :
  exists text,
    buildEnvVars demo_env (Some demo_args) !! "ARGS_JSON" = Some text /\
    text = JSON.stringify demo_args /\
    JSON.parse text = Some (JSON.reparse demo_args) /\
    (JSON.plain demo_args -> JSON.parse text = Some (widenValue demo_args)).
Proof.
  assert (truthy demo_args = true) as Htruthy by reflexivity.
  assert (envsOf (trace (snd (invoke wall_clock demo_env "code" None None
                                (Some demo_args) healthy)))
          = Some (buildEnvVars demo_env (Some demo_args))) as Henvs
    by (vm_compute; reflexivity).
  exact (passed_arguments_round_trip (P := Scripted) wall_clock demo_env
           "code" None None demo_args healthy _ Htruthy Henvs).
Defined.

(** A file named [__proto__] is read like the others and left out of
    [files]. *)
Lemma proto_file_run :
  fst (invoke wall_clock demo_env "code" None None None proto_file)
  = Ok {| stdout := demo_stdout; stderr := EmptyString;
          files := Some {["report.csv" := "contents of /home/user/report.csv"]};
          result := Some (widenValue
                            (JObj [("ok", JBool true); ("data", JNum 5)]));
          error := None |}.
Proof. vm_compute. reflexivity. Qed.

Lemma proto_file_never_returned_witness :
  files {| stdout := demo_stdout; stderr := EmptyString;
           files := Some {["report.csv" := "contents of /home/user/report.csv"]};
           result := Some (widenValue
                             (JObj [("ok", JBool true); ("data", JNum 5)]));
           error := None |} ≫= (fun m => m !! "__proto__") = None.
Proof.
  exact (proto_file_never_returned (P := Scripted) wall_clock demo_env "code"
           None None None proto_file _ proto_file_run).
Defined.

Lemma C8_witness_read_fails :
  existsb collectionFailed
    (trace (snd (invoke wall_clock demo_env "code" None None None
                   read_fails))) = true /\
  exists execution,
    executionOf
      (trace (snd (invoke wall_clock demo_env "code" None None None
                     read_fails))) = Some execution /\
    (existsb teardownFailed
       (trace (snd (invoke wall_clock demo_env "code" None None None
                      read_fails))) = false ->
     exists r,
       fst (invoke wall_clock demo_env "code" None None None read_fails)
       = Ok r) /\
    (forall r,
       fst (invoke wall_clock demo_env "code" None None None read_fails)
       = Ok r ->
       error r = errorOf execution /\
       stdout r = join EmptyString (logs_stdout execution) /\
       stderr r = join EmptyString (logs_stderr execution) /\
       result r = extractResult (stdout r) /\
       (forall name content,
          files r ≫= (fun m => m !! name) = Some content ->
          readOk (trace (snd (invoke wall_clock demo_env "code" None None
                                None read_fails)))
            ("/home/user/" ++ name) content)).
Proof.
  assert (existsb collectionFailed
            (trace (snd (invoke wall_clock demo_env "code" None None None
                           read_fails))) = true) as Hfailed
    by (vm_compute; reflexivity).
  split; [exact Hfailed|].
  exact (C8_collection_failure_swallowed (P := Scripted) wall_clock demo_env
           "code" None None None read_fails Hfailed).
Defined.

(** C9, counterexample.  Provisioning fails with an error whose message is
    empty: the two copies return different texts. *)
Lemma C9_counterexample_error_without_message :
  fst (invoke wall_clock demo_env "code" None None None
         (no_sandbox silent_error))
  <> fst (invoke_plain demo_env "code" None None None
            (no_sandbox silent_error)).
Proof. vm_compute. discriminate. Qed.

Lemma C10_witness_empty_api_key :
  buildEnvVars demo_env None !! "EMPTY_API_KEY" = Some EmptyString.
Proof.
  assert (envsOf (trace (snd (invoke wall_clock demo_env "code" None None
                                None healthy)))
          = Some (buildEnvVars demo_env None)) as Henvs
    by (vm_compute; reflexivity).
  assert (demo_env !! "EMPTY_API_KEY" = Some None) as Hkey
    by (vm_compute; reflexivity).
  assert (forwardedName "EMPTY_API_KEY") as Hname
    by (left; exists "EMPTY"; reflexivity).
  exact (C10_undefined_value_forwarded_as_empty (P := Scripted) wall_clock
           demo_env "code" None None None healthy _ "EMPTY_API_KEY" Henvs
           Hkey Hname).
Defined.

(** ** Two readings of the result pattern *)

(** Output without braces: no result, and no error on that account. *)
Lemma no_json_here : extractResult "no json here" = None.
Proof. reflexivity. Qed.

(** Two objects on one line form one span, from the first opening brace
    to the last closing brace, and that span is not JSON. *)
Lemma two_objects_one_span :
  jsonMatch ("{" ++ quoted "a" ++ ":1} {" ++ quoted "b" ++ ":2}")
  = Some ("{" ++ quoted "a" ++ ":1} {" ++ quoted "b" ++ ":2}") /\
  extractResult ("{" ++ quoted "a" ++ ":1} {" ++ quoted "b" ++ ":2}") = None.
Proof. split; vm_compute; reflexivity. Qed.

(** A listing that fails leaves [files] absent and sets no error. *)
Lemma list_fails_run :
  fst (invoke wall_clock demo_env "code" None None None list_fails)
  = Ok {| stdout := demo_stdout; stderr := EmptyString; files := None;
          result := Some (widenValue
                            (JObj [("ok", JBool true); ("data", JNum 5)]));
          error := None |}.
Proof. vm_compute. reflexivity. Qed.


(** * The order of the provider calls *)

Section TimelineRun.
Context `{JB : JSONBuiltins} `{P : Provider}.

Ltac quiet_step :=
  cbv beta iota; unfold bind at 1;
  cbn [Date_now console_log set_sbx set_outputFiles get_outputFiles get_sbx
       ret world ticks trace console sbx outputFiles].

Lemma writeFiles_staged (h : Sandbox) (files : option (list (string * string)))
    (s s' : St) (r : Outcome unit) :
  writeFiles h files s = (r, s') ->
  exists evs,
    trace s' = (trace s ++ evs)%list /\
    sbx s' = sbx s /\
    console s' = console s /\
    Staged (entriesOf files) evs (failed r).
Proof.
  destruct files as [entries|]; simpl.
  2:{ intros [= <- <-]. exists []. rewrite app_nil_r. repeat split. constructor. }
  revert s. induction entries as [|[path content] rest IH]; intros s; simpl.
  - intros [= <- <-]. exists []. rewrite app_nil_r. repeat split. constructor.
  - unfold bind at 1, call at 1.
    destruct (files_write h ("/home/user/" ++ path) content (world s))
      as [[[]|e] w'] eqn:E.
    + intros Hrest. apply IH in Hrest.
      destruct Hrest as (evs & Ht & Hs & Hc & Ho). simpl in Ht, Hs, Hc.
      exists (EvWrite ("/home/user/" ++ path) content (Ok tt) :: evs).
      rewrite Ht, Hs, Hc, <- app_assoc. repeat split.
      constructor. assumption.
    + intros [= <- <-]. simpl.
      exists [EvWrite ("/home/user/" ++ path) content (Throw e)].
      repeat split. constructor.
Qed.

Lemma readLoop_console (h : Sandbox) (fileList : list EntryInfo) (s : St) :
  console (snd (for_of fileList (readOne h) s)) = console s.
Proof.
  revert s. induction fileList as [|f rest IH]; intros s; [reflexivity|].
  cbn [for_of]. unfold bind at 1, readOne at 1.
  destruct (collectable f).
  - unfold bind at 1, call at 1.
    destruct (files_read h ("/home/user/" ++ entry_name f) (world s))
      as [[content|e] w']; [|reflexivity].
    cbn. rewrite IH. reflexivity.
  - cbn. apply IH.
Qed.

Lemma readBack_console (h : Sandbox) (s : St) :
  console (snd (readBack h s)) = console s.
Proof.
  unfold readBack, try_catch. unfold bind at 1, call at 1.
  destruct (files_list h "/home/user" (world s)) as [[fileList|e] w'];
    [|reflexivity].
  match goal with |- context [for_of fileList ?b ?s0] =>
    pose proof (readLoop_console h fileList s0) as Hloop;
    destruct (for_of fileList b s0) as [[[]|e] s''] end; exact Hloop.
Qed.

Lemma install_exact (clock : nat -> Z) (h : Sandbox)
    (dependencies : option (list string)) (s s' : St) (r : Outcome unit) :
  Instrumented.installDependencies clock h dependencies s = (r, s') ->
  exists evs more,
    trace s' = (trace s ++ evs)%list /\
    sbx s' = sbx s /\
    console s' = (console s ++ more)%list /\
    if hasDependencies dependencies
    then evs = [EvCommand (installCommand dependencies) r]
    else evs = [] /\ r = Ok tt.
Proof.
  unfold Instrumented.installDependencies, installCommand.
  destruct (hasDependencies dependencies).
  - quiet_step. unfold bind at 1, call at 1.
    cbn [world ticks trace console sbx outputFiles].
    destruct (commands_run h _ (world s)) as [[[]|e] w'].
    + quiet_step. intros [= <- <-]. cbn.
      eexists [_], [_]. repeat split.
    + intros [= <- <-]. cbn.
      eexists [_], []. rewrite app_nil_r. repeat split.
  - intros [= <- <-]. exists [], []. rewrite !app_nil_r. repeat split.
Qed.

Lemma setup_of_install (dependencies : option (list string))
    (files : option (list (string * string))) (evs writes : list Event)
    (r : Outcome unit) (stopped : option JsError) :
  (if hasDependencies dependencies
   then evs = [EvCommand (installCommand dependencies) r]
   else evs = [] /\ r = Ok tt) ->
  match r with
  | Ok _ =>
      Staged (entriesOf files) writes stopped ->
      Setup dependencies files (evs ++ writes) stopped
  | Throw e => Setup dependencies files evs (Some e)
  end.
Proof.
  destruct (hasDependencies dependencies) eqn:Hdeps.
  - intros ->. destruct r as [[]|e].
    + intros Hst. apply Setup_installed; assumption.
    + apply Setup_install_thrown. assumption.
  - intros [-> ->] Hst. apply Setup_without_install; assumption.
Qed.

Lemma body_timeline (clock : nat -> Z)
    (process_env : gmap string (option string)) (startTime : Z)
    (code : string) (dependencies : option (list string))
    (files : option (list (string * string))) (args : option json)
    (s s' : St) (r : Outcome ExecResult) :
  sbx s = None ->
  try_catch
    (Instrumented.try_block clock process_env startTime code dependencies
       files args)
    (Instrumented.catch_block clock startTime) s = (r, s') ->
  exists evs thrown x n timings,
    r = Ok x /\
    trace s' = (trace s ++ evs)%list /\
    Body "unknown error" dependencies files code
      (buildEnvVars process_env args) evs (sbx s') thrown x /\
    ticks s' = S n /\
    console s' =
    (console s ++ timings ++ [totalLine thrown (clock n - startTime)])%list.
Proof.
  intros Hsbx. unfold try_catch, Instrumented.try_block, Instrumented.catch_block.
  quiet_step. unfold bind at 1, call at 1.
  cbn [world ticks trace console sbx outputFiles].
  destruct (Sandbox_create 30000 (world s)) as [[h|e] w1] eqn:Ecreate.
  2:{ do 2 quiet_step. intros [= <- <-]. cbn [trace sbx ticks console].
      exists [EvCreate 30000 (Throw e)], (Some e), (caught e "unknown error"),
        (S (ticks s)), [].
      rewrite Hsbx. repeat split. constructor. }
  do 3 quiet_step. unfold bind at 1.
  match goal with |- context [Instrumented.installDependencies clock h dependencies ?s0] =>
    destruct (Instrumented.installDependencies clock h dependencies s0)
      as [r1 s1] eqn:Einstall;
    apply install_exact in Einstall;
    destruct Einstall as (ev1 & more1 & Ht1 & Hs1 & Hc1 & Hev1);
    cbn [world ticks trace console sbx outputFiles] in Ht1, Hs1, Hc1
  end.
  pose proof (setup_of_install dependencies files ev1) as Hsetup.
  destruct r1 as [[]|e].
  2:{ do 2 quiet_step. intros [= <- <-]. cbn [trace sbx ticks console].
      exists (EvCreate 30000 (Ok h) :: ev1), (Some e),
        (caught e "unknown error"), (ticks s1),
        ([LText ("sandbox created in " ++
                 pretty (clock (S (ticks s)) - clock (ticks s)) ++ "ms")] ::
         more1).
      split; [reflexivity|]. split.
      { rewrite Ht1, <- !app_assoc. reflexivity. }
      split.
      { rewrite Hs1. apply Body_setup_thrown.
        exact (Hsetup [] (Throw e) None Hev1). }
      split; [reflexivity|].
      rewrite Hc1, <- !app_assoc. reflexivity. }
  unfold bind at 1.
  destruct (writeFiles h files s1) as [r2 s2] eqn:Ewrite;
    apply writeFiles_staged in Ewrite;
    destruct Ewrite as (ev2 & Ht2 & Hs2 & Hc2 & Ho2).
  destruct r2 as [[]|e]; cbn [failed] in Ho2.
  2:{ do 2 quiet_step. intros [= <- <-]. cbn [trace sbx ticks console].
      exists (EvCreate 30000 (Ok h) :: ev1 ++ ev2), (Some e),
        (caught e "unknown error"), (ticks s2),
        ([LText ("sandbox created in " ++
                 pretty (clock (S (ticks s)) - clock (ticks s)) ++ "ms")] ::
         more1).
      split; [reflexivity|]. split.
      { rewrite Ht2, Ht1, <- !app_assoc. reflexivity. }
      split.
      { rewrite Hs2, Hs1. apply Body_setup_thrown.
        exact (Hsetup ev2 (Ok tt) (Some e) Hev1 Ho2). }
      split; [reflexivity|].
      rewrite Hc2, Hc1, <- !app_assoc. reflexivity. }
  quiet_step. unfold bind at 1, call at 1.
  cbn [world ticks trace console sbx outputFiles].
  destruct (runCode h code "ts" (buildEnvVars process_env args) (world s2))
    as [[execution|e] w3] eqn:Erun.
  2:{ do 2 quiet_step. intros [= <- <-]. cbn [trace sbx ticks console].
      exists (EvCreate 30000 (Ok h) :: (ev1 ++ ev2) ++
              [EvRunCode code "ts" (buildEnvVars process_env args) (Throw e)]),
        (Some e), (caught e "unknown error"), (S (ticks s2)),
        ([LText ("sandbox created in " ++
                 pretty (clock (S (ticks s)) - clock (ticks s)) ++ "ms")] ::
         more1).
      split; [reflexivity|]. split.
      { rewrite Ht2, Ht1, <- !app_assoc. reflexivity. }
      split.
      { rewrite Hs2, Hs1. apply Body_run_thrown.
        exact (Hsetup ev2 (Ok tt) None Hev1 Ho2). }
      split; [reflexivity|].
      rewrite Hc2, Hc1, <- !app_assoc. reflexivity. }
  do 3 quiet_step. unfold bind at 1.
  match goal with |- context [readBack h ?s0] =>
    pose proof (readBack_console h s0) as Hc4;
    destruct (readBack h s0) as [rb s4] eqn:Eback;
    apply readBack_run in Eback; [|reflexivity];
    destruct Eback as (-> & listing & reads & Ht4 & Hs4 & Hcoll);
    cbn [world ticks trace console sbx outputFiles snd] in Ht4, Hs4, Hc4
  end.
  do 3 quiet_step. intros [= <- <-]. cbn [trace sbx outputFiles ticks console].
  exists (EvCreate 30000 (Ok h) :: (ev1 ++ ev2) ++
          EvRunCode code "ts" (buildEnvVars process_env args) (Ok execution) ::
          EvList "/home/user" listing :: reads),
    None, (resultOf "unknown error" (inr (execution, outputFiles s4))),
    (ticks s4),
    ([LText ("sandbox created in " ++
             pretty (clock (S (ticks s)) - clock (ticks s)) ++ "ms")] ::
     more1 ++
     [[LText ("code executed in " ++
              pretty (clock (S (ticks s2)) - clock (ticks s2)) ++ "ms")]]).
  split; [reflexivity|]. split.
  { rewrite Ht4, Ht2, Ht1, <- !app_assoc. reflexivity. }
  split.
  { rewrite Hs4, Hs2, Hs1. apply Body_completed; [|assumption].
    exact (Hsetup ev2 (Ok tt) None Hev1 Ho2). }
  split; [reflexivity|].
  rewrite Hc4, Hc2, Hc1. cbn [app totalLine].
  rewrite <- !app_assoc. reflexivity.
Qed.

(** Every invocation of the instrumented adapter follows a [Timeline],
    between the call summary and the line with the total time. *)
Lemma invoke_timeline (clock : nat -> Z)
    (process_env : gmap string (option string)) (code : string)
    (dependencies : option (list string))
    (files : option (list (string * string))) (args : option json)
    (w : World) :
  exists thrown n timings,
    Timeline "unknown error" dependencies files code
      (buildEnvVars process_env args) thrown
      (trace (snd (invoke clock process_env code dependencies files args w)))
      (fst (invoke clock process_env code dependencies files args w)) /\
    ticks (snd (invoke clock process_env code dependencies files args w))
    = S n /\
    console (snd (invoke clock process_env code dependencies files args w))
    = (summaryLines dependencies files args ++ timings ++
       [totalLine thrown (clock n - clock 0%nat)])%list.
Proof.
  destruct (invoke clock process_env code dependencies files args w)
    as [r st] eqn:E. cbn [fst snd]. revert E.
  unfold invoke, Instrumented.executeTypeScript.
  do 6 quiet_step. unfold try_finally.
  match goal with |- context [try_catch ?m ?c ?s0] =>
    destruct (try_catch m c s0) as [r1 s1] eqn:Etry;
    apply body_timeline in Etry; [|reflexivity];
    destruct Etry as (evs & thrown & x & n & timings & -> & Ht & Hbody &
                      Hticks & Hconsole);
    cbn [world ticks trace console sbx outputFiles initial app] in Ht, Hconsole
  end.
  unfold killSandbox. quiet_step.
  destruct (sbx s1) as [h|] eqn:Hsbx.
  - unfold call. destruct (kill h (world s1)) as [[[]|e] w'];
      intros [= <- <-]; cbn [trace ticks console]; rewrite Ht;
      exists thrown, n, timings; (split; [|split; assumption]).
    + exact (Timeline_killed _ _ _ _ _ _ h _ _ (Ok tt) Hbody).
    + exact (Timeline_killed _ _ _ _ _ _ h _ _ (Throw e) Hbody).
  - intros [= <- <-]. rewrite Ht. exists thrown, n, timings.
    split; [|split; assumption].
    apply Timeline_no_sandbox. assumption.
Qed.

End TimelineRun.

(** ** Reading a timeline *)

Section TimelineReaders.
Context `{JB : JSONBuiltins} `{P : Provider}.

Lemma omap_cons {A B : Type} (f : A -> option B) (x : A) (l : list A) :
  omap f (x :: l) =
  match f x with
  | Some y => y :: omap f l
  | None => omap f l
  end.
Proof. reflexivity. Qed.

Lemma eventThrown_list (path : string) (r : Outcome (list EntryInfo)) :
  eventThrown (EvList path r) = None.
Proof. destruct r; reflexivity. Qed.

Lemma eventThrown_kill (r : Outcome unit) : eventThrown (EvKill r) = None.
Proof. destruct r; reflexivity. Qed.

Lemma staged_readers (entries : list (string * string)) (evs : list Event)
    (stopped : option JsError) :
  Staged entries evs stopped ->
  createsOf evs = [] /\ commandsOf evs = [] /\ runsOf evs = [] /\
  listsOf evs = [] /\ readsOf evs = [] /\
  omap eventExecution evs = [] /\ omap eventListing evs = [] /\
  omap eventThrown evs = option_list stopped /\
  Forall (fun ev => phase ev = 2%nat) evs /\
  existsb setupFailed evs = bool_decide (is_Some stopped) /\
  writesOf evs `prefix_of`
    List.map (fun entry => ("/home/user/" ++ fst entry, snd entry)) entries /\
  (stopped = None ->
   writesOf evs =
   List.map (fun entry => ("/home/user/" ++ fst entry, snd entry)) entries).
Proof.
  induction 1 as [|path content rest evs stopped _ IH|path content rest e].
  - repeat split; try reflexivity; try constructor.
  - destruct IH as (H1 & H2 & H3 & H4 & H5 & H6 & H7 & H8 & H9 & H10 & H11 &
                    H12).
    unfold createsOf, commandsOf, runsOf, listsOf, readsOf, writesOf in *.
    rewrite !omap_cons. cbn [eventTimeout eventCommand eventRun eventListPath
      eventRead eventExecution eventListing eventThrown eventWrite fatal
      failureOf failed existsb setupFailed orb List.map fst snd].
    repeat split; try assumption.
    + constructor; [reflexivity | assumption].
    + apply prefix_cons. assumption.
    + intros Hs. rewrite (H12 Hs). reflexivity.
  - repeat split; try reflexivity.
    + repeat constructor.
    + unfold writesOf. rewrite omap_cons. cbn.
      apply prefix_cons, prefix_nil.
    + discriminate.
Qed.

Lemma setup_timeline_readers (dependencies : option (list string))
    (files : option (list (string * string))) (evs : list Event)
    (stopped : option JsError) :
  Setup dependencies files evs stopped ->
  createsOf evs = [] /\ runsOf evs = [] /\
  listsOf evs = [] /\ readsOf evs = [] /\
  omap eventExecution evs = [] /\ omap eventListing evs = [] /\
  omap eventThrown evs = option_list stopped /\
  Forall (fun ev => (1 <= phase ev <= 2)%nat) evs /\
  StronglySorted inOrder evs /\
  existsb setupFailed evs = bool_decide (is_Some stopped) /\
  writesOf evs `prefix_of` stagedFiles files /\
  (stopped = None -> writesOf evs = stagedFiles files) /\
  commandsOf evs =
  (if hasDependencies dependencies then [installCommand dependencies]
   else []).
Proof.
  assert (forall evs, Forall (fun ev => phase ev = 2%nat) evs ->
            Forall (fun ev => (1 <= phase ev <= 2)%nat) evs /\
            StronglySorted inOrder evs) as Hsorted.
  { induction 1 as [|ev l Hev Hl [IH1 IH2]]; split; constructor;
      try assumption.
    - rewrite Hev. lia.
    - unfold inOrder. rewrite Hev. clear -Hl.
      induction Hl as [|ev' l' Hev' _ IH]; constructor;
        [rewrite Hev'; lia | assumption]. }
  unfold stagedFiles.
  intros [writes stopped' Hdeps Hst|writes stopped' Hdeps Hst|e Hdeps].
  - destruct (staged_readers _ _ _ Hst)
      as (H1 & H2 & H3 & H4 & H5 & H6 & H7 & H8 & H9 & H10 & H11 & H12).
    destruct (Hsorted _ H9) as [Hb Hs]. rewrite Hdeps.
    repeat split; auto.
  - destruct (staged_readers _ _ _ Hst)
      as (H1 & H2 & H3 & H4 & H5 & H6 & H7 & H8 & H9 & H10 & H11 & H12).
    destruct (Hsorted _ H9) as [Hb Hs]. rewrite Hdeps.
    unfold createsOf, commandsOf, runsOf, listsOf, readsOf, writesOf in *.
    rewrite !omap_cons. cbn [eventTimeout eventCommand eventRun eventListPath
      eventRead eventExecution eventListing eventThrown eventWrite fatal
      failureOf failed existsb setupFailed orb].
    rewrite H2.
    repeat split; auto.
    constructor; [assumption|].
    clear -Hb. induction Hb as [|ev l Hev _ IH]; constructor;
      [unfold inOrder; cbn; lia | assumption].
  - rewrite Hdeps. repeat split; try reflexivity; try discriminate.
    + constructor; [cbn; lia | constructor].
    + repeat constructor.
    +    apply prefix_nil.
Qed.

Lemma readLoop_timeline_readers (fileList : list EntryInfo)
    (o o' : gmap string string) (reads : list Event) :
  ReadLoop fileList o reads o' ->
  createsOf reads = [] /\ commandsOf reads = [] /\ writesOf reads = [] /\
  runsOf reads = [] /\ listsOf reads = [] /\
  omap eventThrown reads = [] /\
  Forall (fun ev => phase ev = 5%nat) reads /\
  existsb setupFailed reads = false /\
  readsOf reads `prefix_of` collectablePaths fileList /\
  (existsb collectionFailed reads = false ->
   readsOf reads = collectablePaths fileList).
Proof.
  unfold collectablePaths.
  induction 1 as [o|f rest o evs o' Hc _ IH|f rest o content evs o' Hc _ IH
                 |f rest o e Hc]; cbn [List.filter List.map]; rewrite ?Hc;
    cbn [List.map].
  - repeat split; try reflexivity; constructor.
  - assumption.
  - destruct IH as (H1 & H2 & H3 & H4 & H5 & H6 & H7 & H8 & H9 & H10).
    unfold createsOf, commandsOf, runsOf, listsOf, readsOf, writesOf in *.
    rewrite !omap_cons. cbn [eventTimeout eventCommand eventRun eventListPath
      eventRead eventExecution eventListing eventThrown eventWrite fatal
      failureOf failed existsb setupFailed collectionFailed orb].
    repeat split; try assumption.
    + constructor; [reflexivity | assumption].
    + apply prefix_cons. assumption.
    + intros Hs. rewrite (H10 Hs). reflexivity.
  - repeat split; try reflexivity.
    + repeat constructor.
    + unfold readsOf. rewrite omap_cons. cbn.
      apply prefix_cons, prefix_nil.
    + discriminate.
Qed.

End TimelineReaders.

Section TimelineShape.
Context `{JB : JSONBuiltins} `{P : Provider}.

Lemma setup_readers_envs (dependencies : option (list string))
    (files : option (list (string * string))) (evs : list Event)
    (stopped : option JsError) :
  Setup dependencies files evs stopped -> omap eventEnvs evs = [].
Proof.
  assert (forall entries writes stopped',
            Staged entries writes stopped' -> omap eventEnvs writes = [])
    as Hstaged.
  { induction 1; try reflexivity. rewrite omap_cons. assumption. }
  intros [writes stopped' _ Hst|writes stopped' _ Hst|e _].
  - eapply Hstaged; eassumption.
  - rewrite omap_cons. eapply Hstaged; eassumption.
  - reflexivity.
Qed.

Lemma collected_timeline_readers (listing : Outcome (list EntryInfo))
    (reads : list Event) (o : gmap string string) :
  Collected listing reads o ->
  createsOf reads = [] /\ commandsOf reads = [] /\ writesOf reads = [] /\
  runsOf reads = [] /\ listsOf reads = [] /\
  omap eventThrown reads = [] /\
  Forall (fun ev => phase ev = 5%nat) reads /\
  existsb setupFailed reads = false /\
  omap eventListing reads = [] /\
  omap eventExecution reads = [] /\
  match listing with
  | Ok fileList =>
      readsOf reads `prefix_of` collectablePaths fileList /\
      (existsb collectionFailed reads = false ->
       readsOf reads = collectablePaths fileList)
  | Throw _ => reads = []
  end.
Proof.
  intros [e|fileList reads' o' Hloop].
  - repeat split; constructor.
  - destruct (readLoop_timeline_readers _ _ _ _ Hloop)
      as (H1 & H2 & H3 & H4 & H5 & H6 & H7 & H8 & H9 & H10).
    destruct (reads_readers _ _ _ _ Hloop) as (_ & H11 & H12 & _).
    repeat split; assumption.
Qed.

Lemma sorted_same_phase (n : nat) (l : list Event) :
  Forall (fun ev => phase ev = n) l -> StronglySorted inOrder l.
Proof.
  induction 1 as [|ev l Hev Hl IH]; constructor; [assumption|].
  clear IH. induction Hl as [|ev' l' Hev' _ IH]; constructor;
    [unfold inOrder; rewrite Hev, Hev'; lia | assumption].
Qed.

Lemma sorted_app (n : nat) (l1 l2 : list Event) :
  StronglySorted inOrder l1 ->
  StronglySorted inOrder l2 ->
  Forall (fun ev => (phase ev <= n)%nat) l1 ->
  Forall (fun ev => (n <= phase ev)%nat) l2 ->
  StronglySorted inOrder (l1 ++ l2)%list.
Proof.
  intros H1 H2 Hlow Hhigh. induction H1 as [|ev l1 _ IH Hev]; [assumption|].
  inversion Hlow as [|? ? Hn Hlow']; subst.
  cbn [app]. constructor; [apply IH; assumption|].
  apply Forall_app. split; [assumption|].
  clear -Hn Hhigh. induction Hhigh as [|ev' l' Hev' _ IH]; constructor;
    [unfold inOrder; lia | assumption].
Qed.

Lemma no_thrown_no_fatal (l : list Event) (ev : Event) :
  omap eventThrown l = [] -> ev ∈ l -> fatal ev = false.
Proof.
  induction l as [|x l IH]; intros Hl Hin; [inversion Hin|].
  rewrite omap_cons in Hl. unfold eventThrown at 1 in Hl.
  apply elem_of_cons in Hin. destruct Hin as [->|Hin].
  - destruct (fatal x) eqn:Hx; [|reflexivity].
    unfold fatal in Hx. destruct (failureOf x); discriminate.
  - apply IH; [|assumption].
    destruct (fatal x); [destruct (failureOf x); [discriminate|]|]; assumption.
Qed.

Lemma staged_stopped (entries : list (string * string)) (evs : list Event)
    (e : JsError) :
  Staged entries evs (Some e) ->
  exists pre last,
    evs = (pre ++ [last])%list /\ omap eventThrown pre = [] /\
    fatal last = true.
Proof.
  remember (Some e) as stopped eqn:Hst.
  induction 1 as [|path content rest evs stopped _ IH|path content rest e'].
  - discriminate.
  - destruct (IH Hst) as (pre & last & -> & Hpre & Hlast).
    exists (EvWrite ("/home/user/" ++ path) content (Ok tt) :: pre), last.
    repeat split; assumption.
  - exists [], (EvWrite ("/home/user/" ++ path) content (Throw e')).
    repeat split.
Qed.

Lemma setup_stopped (dependencies : option (list string))
    (files : option (list (string * string))) (evs : list Event)
    (e : JsError) :
  Setup dependencies files evs (Some e) ->
  exists pre last,
    evs = (pre ++ [last])%list /\ omap eventThrown pre = [] /\
    fatal last = true.
Proof.
  inversion 1 as [writes stopped' Hdeps Hst|writes stopped' Hdeps Hst
                 |e' Hdeps]; subst.
  - eapply staged_stopped; eassumption.
  - destruct (staged_stopped _ _ _ Hst) as (pre & last & -> & Hpre & Hlast).
    exists (EvCommand (installCommand dependencies) (Ok tt) :: pre), last.
    repeat split; assumption.
  - exists [], (EvCommand (installCommand dependencies) (Throw e)).
    repeat split.
Qed.

(** A run has no fatal failure before its last call but one, and what
    follows that call is teardown. *)
Lemma timeline_halts (fallback : string) (dependencies : option (list string))
    (files : option (list (string * string))) (code : string)
    (envs : gmap string string) (thrown : option JsError) (t : list Event)
    (o : Outcome ExecResult) :
  Timeline fallback dependencies files code envs thrown t o ->
  exists good rest,
    t = (good ++ rest)%list /\ omap eventThrown good = [] /\
    (tail rest = [] \/ exists killed, tail rest = [EvKill killed]).
Proof.
  assert (forall body sb caughtError r,
            Body fallback dependencies files code envs body sb caughtError r ->
            omap eventThrown body = [] \/
            exists good last,
              body = (good ++ [last])%list /\ omap eventThrown good = [])
    as Hbody.
  { intros body sb caughtError r
      [e|h setup e Hsetup|h setup e Hsetup
      |h setup execution listing reads outs Hsetup Hcoll].
    - right. exists [], (EvCreate 30000 (Throw e)). split; reflexivity.
    - right. destruct (setup_stopped _ _ _ _ Hsetup)
        as (pre & last & -> & Hpre & _).
      exists (EvCreate 30000 (Ok h) :: pre), last. split; [reflexivity|].
      rewrite omap_cons. exact Hpre.
    - right. exists (EvCreate 30000 (Ok h) :: setup),
        (EvRunCode code "ts" envs (Throw e)). split; [reflexivity|].
      rewrite omap_cons.
      destruct (setup_timeline_readers _ _ _ _ Hsetup)
        as (_ & _ & _ & _ & _ & _ & Hthrown & _). exact Hthrown.
    - left.
      destruct (setup_timeline_readers _ _ _ _ Hsetup)
        as (_ & _ & _ & _ & _ & _ & Hthrown & _).
      destruct (collected_timeline_readers _ _ _ Hcoll)
        as (_ & _ & _ & _ & _ & Hreads & _).
      rewrite omap_cons, omap_app, !omap_cons, eventThrown_list.
      cbn [eventThrown fatal failureOf failed isCollecting isTeardown negb
           andb].
      rewrite Hthrown, Hreads. reflexivity. }
  intros [body thrown' r Hb|body h thrown' r killed Hb];
    destruct (Hbody _ _ _ _ Hb)
    as [Hnone|(good & last & -> & Hgood)].
  - exists body, []. rewrite app_nil_r. auto.
  - exists good, [last]. auto.
  - exists body, [EvKill killed]. auto.
  - exists good, [last; EvKill killed]. rewrite <- app_assoc.
    repeat split; [assumption|]. right. exists killed. reflexivity.
Qed.

End TimelineShape.

(** * More about one invocation *)

Section Invocation.
Context `{JB : JSONBuiltins} `{P : Provider}.
Variable clock : nat -> Z.
Variable process_env : gmap string (option string).
Variable code : string.
Variable dependencies : option (list string).
Variable inputFiles : option (list (string * string)).
Variable args : option json.
Variable w : World.

Local Notation "'run'" :=
  (invoke clock process_env code dependencies inputFiles args w).

Ltac unfold_readers :=
  unfold createsOf, commandsOf, writesOf, runsOf, listsOf, readsOf, thrownOf,
    executionOf, listingOf, envsOf in *.

Ltac read_trace :=
  rewrite ?omap_app, ?omap_cons, ?eventThrown_list, ?eventThrown_kill;
  cbn [eventTimeout eventCommand eventWrite eventRun eventListPath eventRead
       eventExecution eventListing eventEnvs eventThrown fatal failureOf
       failed isCollecting isTeardown negb andb];
  rewrite ?omap_app, ?omap_cons, ?eventThrown_list, ?eventThrown_kill;
  cbn [eventTimeout eventCommand eventWrite eventRun eventListPath eventRead
       eventExecution eventListing eventEnvs eventThrown fatal failureOf
       failed isCollecting isTeardown negb andb].

Ltac timeline :=
  destruct (invoke_timeline clock process_env code dependencies inputFiles
              args w) as (thrown & lastTick & timings & HT & Hticks &
                          Hconsole);
  pose proof (invoke_run clock process_env code dependencies inputFiles
                args w) as Hhead;
  destruct (invoke clock process_env code dependencies inputFiles args w)
    as [o st];
  specialize (Hhead o st eq_refl); destruct Hhead as [_ Hhead];
  cbn [fst snd] in *;
  destruct HT as [body thrown r0 Hbody|body h thrown r0 killed Hbody];
  inversion Hbody as [e|h' setup e Hsetup|h' setup e Hsetup
                     |h' setup execution listing reads outs Hsetup Hcoll];
  subst;
  try (destruct (setup_timeline_readers _ _ _ _ Hsetup)
         as (Hs_creates & Hs_runs & Hs_lists & Hs_reads & Hs_exec &
             Hs_listing & Hs_thrown & Hs_phase & Hs_sorted & Hs_failed &
             Hs_prefix & Hs_all & Hs_commands));
  try (destruct (collected_timeline_readers _ _ _ Hcoll)
         as (Hc_creates & Hc_commands & Hc_writes & Hc_runs & Hc_lists &
             Hc_thrown & Hc_phase & Hc_failed & Hc_listing & Hc_exec &
             Hc_reads));
  unfold_readers.

(** X1.  Every invocation starts by asking for one sandbox with a timeout
    of 30000 ms, and asks for no other. *)
Theorem provisioning_first_and_once :
  exists rest,
    trace (snd run) = EvCreate 30000 (fst (Sandbox_create 30000 w)) :: rest /\
    createsOf rest = [].
Proof.
  timeline; cbn [head app] in *; injection Hhead as <-;
    eexists; (split; [reflexivity|]); unfold_readers; read_trace;
    rewrite ?Hs_creates, ?Hc_creates; reflexivity.
Qed.

(** X2.  After a sandbox was provisioned, dependencies are installed by
    one [npm install] command that names them all, separated by spaces,
    and only if the list is there and not empty; no other command is run. *)
Theorem install_is_one_batched_command :
  commandsOf (trace (snd run)) =
  match fst (Sandbox_create 30000 w) with
  | Ok _ =>
      if hasDependencies dependencies
      then ["npm install " ++ join " " (default [] dependencies)]
      else []
  | Throw _ => []
  end.
Proof.
  assert (hasDependencies dependencies = true ->
          installCommand dependencies =
          "npm install " ++ join " " (default [] dependencies)) as Hcmd.
  { destruct dependencies; [reflexivity | discriminate]. }
  timeline; cbn [head app] in *; injection Hhead as <-; cbn [fst];
    read_trace; rewrite ?Hs_commands, ?Hc_commands;
    try reflexivity;
    destruct (hasDependencies dependencies); try reflexivity;
    rewrite Hcmd by reflexivity; reflexivity.
Qed.

(** X3.  The staged files are written in the order of the input entries,
    each under [/home/user/] with its content unchanged; staging stops at
    the first write that throws, and nothing else is ever written. *)
Theorem staging_writes_inputs_in_order :
  writesOf (trace (snd run)) `prefix_of` stagedFiles inputFiles.
Proof.
  timeline; cbn [head app] in *; read_trace;
    rewrite ?Hc_writes, ?app_nil_r; try assumption; apply prefix_nil.
Qed.

(** X4.  The program is started once, with the given code and the
    language [ts], if provisioning, installation and staging all
    returned, and not at all otherwise. *)
Theorem program_started_iff_setup_completed :
  runsOf (trace (snd run)) =
  if existsb setupFailed (trace (snd run)) then [] else [(code, "ts")].
Proof.
  timeline; cbn [head app] in *; read_trace;
    rewrite ?existsb_app; cbn [existsb setupFailed orb];
    rewrite ?existsb_app; cbn [existsb setupFailed orb];
    rewrite ?Hs_runs, ?Hc_runs, ?Hs_failed, ?Hc_failed; reflexivity.
Qed.

(** X5.  When the program is started, every input file has been staged. *)
Theorem program_started_after_all_files_staged
    (envs : gmap string string) :
  envsOf (trace (snd run)) = Some envs ->
  writesOf (trace (snd run)) = stagedFiles inputFiles.
Proof.
  timeline; cbn [head app] in *; read_trace;
    rewrite ?Hc_writes, ?app_nil_r; intros Henvs.
  - discriminate Henvs.
  - pose proof (setup_readers_envs _ _ _ _ Hsetup) as Hs_envs.
    rewrite Hs_envs in Henvs. discriminate Henvs.
  - apply Hs_all. reflexivity.
  - apply Hs_all. reflexivity.
Qed.

(** X6.  The provider calls of an invocation come in the order of the
    phases: provisioning, installation, staging, execution, listing,
    reads, teardown. *)
Theorem provider_calls_in_phase_order :
  StronglySorted inOrder (trace (snd run)).
Proof.
  assert (forall setup : list Event,
            Forall (fun ev => (1 <= phase ev <= 2)%nat) setup ->
            Forall (fun ev => (1 <= phase ev)%nat) setup /\
            Forall (fun ev => (phase ev <= 2)%nat) setup) as Hbounds.
  { intros setup Hb. split; (eapply Forall_impl; [exact Hb|]);
      cbv beta; intros; lia. }
  assert (forall (n m : nat) (l : list Event),
            Forall (fun ev => phase ev = n) l -> (m <= n)%nat ->
            Forall (fun ev => (m <= phase ev)%nat) l) as Hlow.
  { intros n m l Hl Hle. eapply Forall_impl; [exact Hl|].
    cbv beta; intros; lia. }
  assert (forall (n m : nat) (l : list Event),
            Forall (fun ev => phase ev = n) l -> (n <= m)%nat ->
            Forall (fun ev => (phase ev <= m)%nat) l) as Hhigh.
  { intros n m l Hl Hle. eapply Forall_impl; [exact Hl|].
    cbv beta; intros; lia. }
  timeline; cbn [head app] in *;
    try (destruct (Hbounds _ Hs_phase) as [Hs_low Hs_high]).
  - repeat constructor.
  - change (StronglySorted inOrder
              (([EvCreate 30000 (Ok h)] ++ setup) ++ [EvKill killed])%list).
    apply (sorted_app 2); [apply (sorted_app 0)| | |];
      try assumption; repeat constructor;
      try (apply Forall_app; split); repeat constructor; try assumption;
      try (eapply Forall_impl; [exact Hs_low|]; cbv beta; intros; lia).
  - change (StronglySorted inOrder
              ((([EvCreate 30000 (Ok h)] ++ setup) ++
                [EvRunCode code "ts" (buildEnvVars process_env args)
                   (Throw e)]) ++ [EvKill killed])%list).
    apply (sorted_app 3); [apply (sorted_app 2); [apply (sorted_app 0)| | |]
                          | | |];
      try assumption; repeat constructor;
      repeat (apply Forall_app; split); repeat constructor; try assumption;
      try (eapply Forall_impl; [exact Hs_low|]; cbv beta; intros; lia);
      try (eapply Forall_impl; [exact Hs_high|]; cbv beta; intros; lia).
  - replace (EvCreate 30000 (Ok h) ::
             (setup ++
              EvRunCode code "ts" (buildEnvVars process_env args)
                (Ok execution) :: EvList "/home/user" listing :: reads) ++
             [EvKill killed])%list
      with (((([EvCreate 30000 (Ok h)] ++ setup) ++
              [EvRunCode code "ts" (buildEnvVars process_env args)
                 (Ok execution); EvList "/home/user" listing]) ++
             reads) ++ [EvKill killed])%list
      by (cbn [app]; rewrite <- !app_assoc; reflexivity).
    apply (sorted_app 5);
      [apply (sorted_app 4);
         [apply (sorted_app 2); [apply (sorted_app 0)| | |]| | |]| | |];
      try assumption; try (eapply sorted_same_phase; eassumption);
      try (eapply Hlow; [eassumption|lia]);
      try (eapply Hhigh; [eassumption|lia]);
      repeat (apply Forall_app; split);
      try (eapply Hhigh; [eassumption|lia]);
      repeat constructor; try assumption;
      try (eapply Forall_impl; [exact Hs_low|]; cbv beta; intros; lia);
      try (eapply Forall_impl; [exact Hs_high|]; cbv beta; intros; lia);
      try (unfold inOrder; cbn; lia).
Qed.

(** X7.  After a provisioning, installation, staging or execution call
    that threw, the adapter makes no further call except the teardown. *)
Theorem no_call_after_failure_but_teardown
    (pre post : list Event) (ev : Event) :
  trace (snd run) = (pre ++ ev :: post)%list ->
  fatal ev = true ->
  post = [] \/ exists killed, post = [EvKill killed].
Proof.
  intros Hsplit Hfatal.
  destruct (invoke_timeline clock process_env code dependencies inputFiles
              args w) as (thrown & _ & _ & HT & _).
  destruct (timeline_halts _ _ _ _ _ _ _ _ HT)
    as (good & rest & Ht & Hgood & Hrest).
  rewrite Hsplit in Ht. apply app_eq_app in Ht.
  destruct Ht as [l [[-> Hl]|[-> Hl]]].
  - destruct l as [|x l].
    + cbn [app] in Hl. subst rest. exact Hrest.
    + subst rest. cbn [app tail] in Hrest.
      destruct Hrest as [Hnil|[killed Hkill]].
      * destruct l; discriminate Hnil.
      * destruct l as [|y l]; [|destruct l; discriminate Hkill].
        cbn [app] in Hkill. injection Hkill as -> ->.
        destruct killed; discriminate Hfatal.
  - destruct l as [|x l].
    + cbn [app] in Hl. subst rest. exact Hrest.
    + cbn [app] in Hl. injection Hl as <- _.
      rewrite (no_thrown_no_fatal _ ev Hgood) in Hfatal; [discriminate|].
      apply elem_of_app. right. left.
Qed.

(** X8.  The working directory [/home/user] is listed once if the
    execution call returned, and is not listed otherwise. *)
Theorem listing_once_after_execution :
  listsOf (trace (snd run)) =
  match executionOf (trace (snd run)) with
  | Some _ => ["/home/user"]
  | None => []
  end.
Proof.
  timeline; cbn [head app] in *; read_trace;
    rewrite ?Hs_lists, ?Hc_lists, ?Hs_exec, ?Hc_exec; reflexivity.
Qed.


(** X10.  Without a listing, nothing is read back. *)
Theorem no_listing_no_reads :
  listingOf (trace (snd run)) = None ->
  readsOf (trace (snd run)) = [].
Proof.
  timeline; cbn [head app] in *; read_trace;
    rewrite ?Hs_listing, ?Hc_listing, ?Hs_reads; cbn [head app];
    try reflexivity.
  destruct listing as [fileList'|e]; [discriminate|].
  intros _. rewrite Hc_reads. reflexivity.
Qed.

(** X11.  If provisioning throws, that call is the only provider call,
    and the adapter returns the error text of that exception, or
    [unknown error] if it has none, as both [stderr] and [error]. *)
Theorem failed_provisioning_is_the_only_call (err : JsError) :
  fst (Sandbox_create 30000 w) = Throw err ->
  trace (snd run) = [EvCreate 30000 (Throw err)] /\
  fst run =
  Ok {| stdout := EmptyString;
        stderr := js_or (message err) "unknown error";
        files := None;
        result := None;
        error := Some (js_or (message err) "unknown error") |}.
Proof.
  timeline; cbn [head app] in *; injection Hhead as <-; cbn [fst];
    try discriminate.
  intros [= ->]. split; reflexivity.
Qed.

(** X12.  The adapter raises an exception exactly when the teardown call
    throws, and then raises that exception. *)
Theorem raises_iff_teardown_throws (err : JsError) :
  fst run = Throw err <->
  last (trace (snd run)) = Some (EvKill (Throw err)).
Proof.
  timeline; cbn [head app] in *;
    rewrite ?app_comm_cons, ?last_snoc; cbn [last];
    try (split; discriminate);
    destruct killed as [[]|e']; cbn [settle];
    split; intros [= ?]; subst; reflexivity.
Qed.

(** X13.  When a sandbox was provisioned, the teardown is the last call
    the adapter makes to it. *)
Theorem teardown_is_the_last_call (handle : Sandbox) :
  fst (Sandbox_create 30000 w) = Ok handle ->
  exists killed,
    last (trace (snd (invoke clock process_env code dependencies inputFiles
                        args w)))
    = Some (EvKill killed).
Proof.
  timeline; cbn [head app] in *; injection Hhead as <-; cbn [fst];
    try discriminate; intros _; exists killed;
    rewrite ?app_comm_cons, ?last_snoc; reflexivity.
Qed.

(** X14.  The text reported for a failure is the message of the first
    exception thrown by provisioning, installation, staging or execution,
    and [unknown error] when that message is missing or empty; [stderr]
    carries the same text. *)
Theorem failure_text_is_message_or_fallback (err : JsError) (r : ExecResult) :
  thrownOf (trace (snd run)) = Some err ->
  fst run = Ok r ->
  error r = Some (js_or (message err) "unknown error") /\
  stderr r = js_or (message err) "unknown error".
Proof.
  timeline; cbn [head app] in *; read_trace;
    rewrite ?Hs_thrown, ?Hc_thrown; cbn [option_list head app];
    try discriminate;
    intros [= ->]; try (destruct killed; cbn [settle]; [|discriminate]);
    intros [= <-]; split; reflexivity.
Qed.

(** X15.  The console shows the five lines of the call summary first and
    the total time last: the time between the first and the last reading
    of the clock, announced as an error when provisioning, installation,
    staging or execution threw. *)
Theorem console_frames_the_run :
  exists timings,
    console (snd run) =
    (summaryLines dependencies inputFiles args ++ timings ++
     [totalLine (thrownOf (trace (snd run)))
        (clock (pred (ticks (snd run))) - clock 0%nat)])%list.
Proof.
  timeline; cbn [head app] in *; read_trace;
    rewrite ?Hs_thrown, ?Hc_thrown; cbn [option_list head app];
    exists timings; rewrite Hticks; exact Hconsole.
Qed.

End Invocation.

(** * The result and the error text, with the JSON of ECMAScript *)

Module ResultFacts.
Import JSON JSONFacts.

Lemma parseMembers_object (fuel : nat) :
  forall (s : string) (acc : list (jsString * jsvalue jsString))
         (v : jsvalue jsString) (r : string),
    parseMembers fuel s acc = Some (v, r) -> exists members, v = JObj members.
Proof.
  induction fuel as [|fuel IH]; intros s acc v r; [discriminate|].
  cbn [parseMembers].
  destruct (skipWhitespace s) as [|q afterQuote]; [discriminate|].
  destruct (Ascii.eqb q dquote); [|discriminate].
  destruct (parseChars afterQuote) as [[k afterKey]|]; [|discriminate].
  destruct (skipWhitespace afterKey) as [|colon afterColon]; [discriminate|].
  destruct (Ascii.eqb colon ":"); [|discriminate].
  destruct (parseValue fuel afterColon) as [[v' r']|]; [|discriminate].
  destruct (skipWhitespace r') as [|c r'']; [discriminate|].
  destruct (Ascii.eqb c ","); [apply IH|].
  destruct (Ascii.eqb c "}"); [|discriminate].
  intros [= <- _]. eauto.
Qed.

Lemma parse_object (mid : string) (v : jsvalue jsString) :
  parse (String "{" (mid ++ "}")) = Some v -> exists members, v = JObj members.
Proof.
  unfold parse. cbn [parseValue skipWhitespace].
  change (isWhitespace "{") with false. cbv iota.
  change (Ascii.eqb "{" "n") with false.
  change (Ascii.eqb "{" "t") with false.
  change (Ascii.eqb "{" "f") with false.
  change (Ascii.eqb "{" dquote) with false.
  change (Ascii.eqb "{" "[") with false.
  change (Ascii.eqb "{" "{") with true. cbv iota.
  destruct (skipWhitespace (mid ++ "}")) as [|c' r']; [discriminate|].
  destruct (Ascii.eqb c' "}").
  - destruct (skipWhitespace r'); [|discriminate]. intros [= <-]. eauto.
  - destruct (parseMembers _ _ _) as [[v' r]|] eqn:E; [|discriminate].
    destruct (skipWhitespace r); [|discriminate]. intros [= <-].
    eapply parseMembers_object. eassumption.
Qed.



Lemma stringify_object_braces (members : list (string * json)) :
  exists body, stringify (JObj members) = String "{" (body ++ "}").
Proof.
  rewrite stringify_JObj.
  destruct (ownProperties String.eqb arrayIndex members) as [|m ms].
  - exists EmptyString. reflexivity.
  - eexists. reflexivity.
Qed.

End ResultFacts.

(** X16.  A result is always a JSON object: whatever the program printed,
    [result] is absent or holds an object, never an array, a string, a
    number, a boolean or [null]. *)
Theorem result_is_an_object (out : string) (v : jsvalue jsString) :
  extractResult out = Some v -> exists members, v = JObj members.
Proof.
  unfold extractResult. destruct (jsonMatch out) as [m|] eqn:Hm; [|discriminate].
  apply jsonMatch_spec in Hm. destruct Hm as (pre & mid & post & _ & -> & _).
  cbn [JSON_parse ECMAScript_JSON].
  destruct (JSON.parse _) as [v'|] eqn:Hparse; [|discriminate].
  intros [= <-]. eapply ResultFacts.parse_object. eassumption.
Qed.

(** X17.  A program that prints one JSON object, between text that has no
    opening brace before it and no closing brace after it, gets as its
    result what that text is read as: the object itself when it is
    plain. *)
Theorem printed_object_is_the_result (pre post : string)
    (members : list (string * json)) :
  occurs "{" pre = false ->
  occurs "}" post = false ->
  extractResult (pre ++ JSON.stringify (JObj members) ++ post)
  = Some (JSON.reparse (JObj members)) /\
  (JSON.plain (JObj members) ->
   extractResult (pre ++ JSON.stringify (JObj members) ++ post)
   = Some (widenValue (JObj members))).
Proof.
  intros Hpre Hpost.
  assert (extractResult (pre ++ JSON.stringify (JObj members) ++ post)
          = Some (JSON.reparse (JObj members))) as Hresult.
  { unfold extractResult.
    assert (jsonMatch (pre ++ JSON.stringify (JObj members) ++ post)
            = Some (JSON.stringify (JObj members))) as ->.
    { apply jsonMatch_spec.
      destruct (ResultFacts.stringify_object_braces members) as [body ->].
      exists pre, body, post. repeat split; assumption. }
    cbn [JSON_parse ECMAScript_JSON].
    rewrite JSONFacts.parse_stringify. reflexivity. }
  split; [exact Hresult|].
  intros Hplain. rewrite Hresult, (JSONFacts.reparse_plain _ Hplain).
  reflexivity.
Qed.


Module ErrorTextFacts.
Import JSON JSONFacts.

Lemma parseValue_quoted (fuel : nat) (s rest : string) :
  parseValue (S fuel) (String " " (quote s ++ rest))
  = Some (JStr (widen s), rest).
Proof.
  rewrite quote_app. cbn [parseValue skipWhitespace].
  change (isWhitespace " ") with true. cbv iota.
  change (isWhitespace dquote) with false. cbv iota.
  change (Ascii.eqb dquote "n") with false.
  change (Ascii.eqb dquote "t") with false.
  change (Ascii.eqb dquote "f") with false.
  change (Ascii.eqb dquote dquote) with true. cbv iota.
  rewrite parseChars_quoteBody. reflexivity.
Qed.

(** One line of the indented form, up to the value it ends with. *)
Lemma parseMembers_line (fuel : nat) (k s rest : string)
    (acc : list (jsString * jsvalue jsString)) :
  parseMembers (S (S fuel))
    (String "010" (String " " (String " "
       (quote k ++ String ":" (String " " (quote s ++ rest)))))) acc =
  match skipWhitespace rest with
  | String c r' =>
      if Ascii.eqb c "," then
        parseMembers (S fuel) r'
          (defineMember (widen k) (JStr (widen s)) acc)
      else if Ascii.eqb c "}" then
        Some (JObj (defineMember (widen k) (JStr (widen s)) acc), r')
      else None
  | EmptyString => None
  end.
Proof.
  rewrite quote_app. cbn [parseMembers skipWhitespace].
  change (isWhitespace "010") with true. cbv iota.
  change (isWhitespace " ") with true. cbv iota.
  change (isWhitespace dquote) with false. cbv iota.
  change (Ascii.eqb dquote dquote) with true. cbv iota.
  rewrite parseChars_quoteBody. cbn [skipWhitespace].
  change (isWhitespace ":") with false. cbv iota.
  change (Ascii.eqb ":" ":") with true. cbv iota.
  rewrite parseValue_quoted. reflexivity.
Qed.

(** The three members of a fault are in the order of their enumeration. *)
Lemma ownProperties_fault {V : Type} (a b c : V) :
  ownProperties String.eqb arrayIndex
    [("name", a); ("value", b); ("traceback", c)]
  = [("name", a); ("value", b); ("traceback", c)].
Proof. reflexivity. Qed.

Lemma stringify_pretty_fault (e : ExecutionError) :
  stringify_pretty (json_of_ExecutionError e) =
  String "{"
    (String "010" (String " " (String " "
       (quote "name" ++ String ":" (String " " (quote (ee_name e) ++
    String "," (String "010" (String " " (String " "
       (quote "value" ++ String ":" (String " " (quote (ee_value e) ++
    String "," (String "010" (String " " (String " "
       (quote "traceback" ++ String ":" (String " "
          (quote (ee_traceback e) ++
    String "010" (String "}" EmptyString))))))))))))))))))).
Proof.
  unfold stringify_pretty, json_of_ExecutionError.
  cbn [serialize List.map fst snd].
  rewrite ownProperties_fault.
  cbn [List.map fst snd join js_string_truthy nl].
  repeat (progress (rewrite ?append_assoc, ?append_cons, ?append_nil)).
  reflexivity.
Qed.

Lemma parse_stringify_pretty_fault (e : ExecutionError) :
  parse (stringify_pretty (json_of_ExecutionError e))
  = Some (widenValue (json_of_ExecutionError e)).
Proof.
  rewrite stringify_pretty_fault. unfold parse.
  cbn [String.length]. cbn [parseValue skipWhitespace].
  change (isWhitespace "{") with false. cbv iota.
  change (Ascii.eqb "{" "n") with false.
  change (Ascii.eqb "{" "t") with false.
  change (Ascii.eqb "{" "f") with false.
  change (Ascii.eqb "{" dquote) with false.
  change (Ascii.eqb "{" "[") with false.
  change (Ascii.eqb "{" "{") with true. cbv iota.
  change (isWhitespace "010") with true. cbv iota.
  change (isWhitespace " ") with true. cbv iota.
  unfold quote at 1. cbn [skipWhitespace append].
  change (isWhitespace dquote) with false. cbv iota.
  change (Ascii.eqb dquote "}") with false. cbv iota.
  change (String dquote (quoteBody "name" ++ String dquote EmptyString))
    with (quote "name").
  rewrite parseMembers_line. cbn [skipWhitespace].
  change (isWhitespace ",") with false. cbv iota.
  change (Ascii.eqb "," ",") with true. cbv iota.
  rewrite parseMembers_line. cbn [skipWhitespace].
  change (isWhitespace ",") with false. cbv iota.
  change (Ascii.eqb "," ",") with true. cbv iota.
  rewrite parseMembers_line. cbn [skipWhitespace].
  change (isWhitespace "010") with true. cbv iota.
  change (isWhitespace "}") with false. cbv iota.
  change (Ascii.eqb "}" ",") with false.
  change (Ascii.eqb "}" "}") with true. cbv iota.
  reflexivity.
Qed.

End ErrorTextFacts.

(** X19.  The [error] text of a reported fault is the indented JSON of the
    fault: parsed back, it gives the fault's name, value and traceback. *)
Theorem error_text_parses_back_to_fault (execution : Execution)
    (text : string) :
  errorOf execution = Some text ->
  exists fault,
    execution_error execution = Some fault /\
    JSON.parse text =
    Some (widenValue (JObj [("name", JStr (ee_name fault));
                            ("value", JStr (ee_value fault));
                            ("traceback", JStr (ee_traceback fault))])).
Proof.
  unfold errorOf. destruct (execution_error execution) as [fault|];
    [|discriminate].
  intros [= <-]. exists fault. split; [reflexivity|].
  exact (ErrorTextFacts.parse_stringify_pretty_fault fault).
Qed.

(** * The agent's memory backend *)

(** X20.  The agent keeps its memory in Postgres exactly when [NODE_ENV]
    is [production] and [DATABASE_URL] is set and not empty, and then the
    store and the vector index get that same connection string; in every
    other case both use the local file [agent0-memory.db].  Either way the
    last ten messages are kept and semantic recall is off. *)
Theorem memory_backend_selection
    (process_env : gmap string (option string)) :
  Agent0.lastMessages (Agent0.memory process_env) = 10 /\
  Agent0.semanticRecall (Agent0.memory process_env) = false /\
  ((exists connection,
      connection <> EmptyString /\
      Agent0.env process_env "DATABASE_URL" = Some connection /\
      Agent0.env process_env "NODE_ENV" = Some "production" /\
      Agent0.storage (Agent0.memory process_env)
      = Agent0.PostgresStore (Some connection) /\
      Agent0.vector (Agent0.memory process_env)
      = Agent0.PgVector (Some connection)) \/
   ((Agent0.env process_env "DATABASE_URL" = None \/
     Agent0.env process_env "DATABASE_URL" = Some EmptyString \/
     Agent0.env process_env "NODE_ENV" <> Some "production") /\
    Agent0.storage (Agent0.memory process_env)
    = Agent0.LibSQLStore "file:./agent0-memory.db" /\
    Agent0.vector (Agent0.memory process_env)
    = Agent0.LibSQLVector "file:./agent0-memory.db")).
Proof.
  unfold Agent0.memory, Agent0.usePostgres, Agent0.isProduction.
  destruct (Agent0.env process_env "DATABASE_URL") as [[|c connection]|];
    cbn [js_string_truthy andb Agent0.lastMessages Agent0.semanticRecall
         Agent0.storage Agent0.vector].
  - repeat split. right. auto.
  - destruct (Agent0.env process_env "NODE_ENV") as [mode|].
    + destruct (String.eqb mode "production") eqn:Hmode;
        cbn [Agent0.lastMessages Agent0.semanticRecall Agent0.storage
             Agent0.vector]; repeat split.
      * apply String.eqb_eq in Hmode. subst mode. left.
        exists (String c connection). repeat split. discriminate.
      * right. repeat split. right. right. intros [= ->].
        rewrite String.eqb_refl in Hmode. discriminate Hmode.
    + repeat split. right. repeat split. right. right. discriminate.
  - repeat split. right. auto.
Qed.

(** * The skills module *)

Section SkillsFacts.
Variable Value : Type.
Variable undefined : Value.

Local Notation "'State'" := (Skills.State Value).

(** X21.  A file written in the session is read back with the content of
    its last write; writing it changes no other file and nothing in the
    key-value store. *)
Theorem fs_write_then_read (path content other : string) (s : State) :
  fst ((Skills.fs_writeFile Value path content ;;
        Skills.fs_readFile Value path) s) = Ok content /\
  (other <> path ->
   fst ((Skills.fs_writeFile Value path content ;;
         Skills.fs_readFile Value other) s)
   = fst (Skills.fs_readFile Value other s)) /\
  Skills.kvStore Value (snd (Skills.fs_writeFile Value path content s))
  = Skills.kvStore Value s.
Proof.
  unfold bind, Skills.fs_writeFile, Skills.fs_readFile.
  cbn [Skills.sessionFiles Skills.kvStore fst snd].
  rewrite lookup_insert_eq. repeat split.
  intros Hother. rewrite lookup_insert_ne by congruence.
  destruct (Skills.sessionFiles Value s !! other); reflexivity.
Qed.

Lemma setFiles_loop (entries : list (string * string)) (s : State) :
  for_of entries (Skills.sessionFiles_set Value) s =
  (Ok tt,
   {| Skills.kvStore := Skills.kvStore Value s;
      Skills.sessionFiles :=
        foldl (fun m entry => <[fst entry := snd entry]> m)
          (Skills.sessionFiles Value s) entries |}).
Proof.
  revert s. induction entries as [|entry rest IH]; intros s.
  - destruct s. reflexivity.
  - cbn [for_of foldl]. unfold bind at 1, Skills.sessionFiles_set at 1.
    rewrite IH. reflexivity.
Qed.

Lemma foldl_insert_entries (m : gmap string string)
    (entries : list (string * string)) :
  NoDup (entries.*1) ->
  forall acc : gmap string string,
    (forall k v, (k, v) ∈ entries <-> m !! k = Some v) ->
    forall k,
      foldl (fun m entry => <[fst entry := snd entry]> m) acc entries !! k =
      match m !! k with
      | Some v => Some v
      | None => acc !! k
      end.
Proof.
  revert m. induction entries as [|[k0 v0] rest IH]; intros m Hnd acc Hm k.
  - cbn [foldl]. destruct (m !! k) as [v|] eqn:E; [|reflexivity].
    apply Hm in E. inversion E.
  - cbn [foldl fst snd]. rewrite fmap_cons in Hnd. cbn [fst] in Hnd.
    apply NoDup_cons in Hnd. destruct Hnd as [Hfresh Hnd].
    rewrite (IH (delete k0 m) Hnd).
    + destruct (decide (k = k0)) as [->|Hne].
      * rewrite lookup_delete_eq, lookup_insert_eq.
        rewrite (proj1 (Hm k0 v0)) by left. reflexivity.
      * rewrite lookup_delete_ne, lookup_insert_ne by congruence.
        reflexivity.
    + intros k' v'. rewrite lookup_delete_Some, <- Hm, elem_of_cons.
      split.
      * intros Hin. split; [|right; exact Hin].
        intros <-. apply Hfresh. apply list_elem_of_fmap.
        exists (k0, v'). split; [reflexivity | exact Hin].
      * intros [Hne [[= -> ->]|Hin]]; [contradiction | exact Hin].
Qed.

(** X22.  Restoring the session's files and reading them out gives back
    exactly the files restored, whatever the session held before; the
    key-value store is left alone. *)
Theorem fs_setFiles_then_getFiles (files : gmap string string) (s : State) :
  (Skills.fs_setFiles Value files ;; Skills.fs_getFiles Value) s =
  (Ok files,
   {| Skills.kvStore := Skills.kvStore Value s;
      Skills.sessionFiles := files |}).
Proof.
  unfold Skills.fs_setFiles, Skills.fs_getFiles.
  unfold bind at 1 2. unfold Skills.sessionFiles_clear at 1.
  rewrite setFiles_loop. cbn [Skills.kvStore Skills.sessionFiles].
  assert (foldl (fun m entry => <[fst entry := snd entry]> m) ∅
            (map_to_list files) = files) as ->; [|reflexivity].
  apply map_eq. intros k.
  rewrite (foldl_insert_entries files).
  - rewrite lookup_empty. destruct (files !! k); reflexivity.
  - apply NoDup_fst_map_to_list.
  - intros k' v'. apply elem_of_map_to_list.
Qed.

(** X23.  After the session's files were restored, reading a path gives
    the restored content, and a path that was not restored throws
    [File not found:] followed by the path. *)
Theorem fs_setFiles_then_readFile (files : gmap string string)
    (path : string) (s : State) :
  fst ((Skills.fs_setFiles Value files ;; Skills.fs_readFile Value path) s) =
  match files !! path with
  | Some content => Ok content
  | None => Throw {| message := Some ("File not found: " ++ path) |}
  end.
Proof.
  pose proof (fs_setFiles_then_getFiles files s) as Hget.
  unfold bind in *. unfold Skills.fs_getFiles in Hget.
  destruct (Skills.fs_setFiles Value files s) as [[[]|e] s'];
    [|discriminate Hget].
  injection Hget as Hfiles Hs. unfold Skills.fs_readFile.
  rewrite Hfiles. destruct (files !! path); reflexivity.
Qed.

(** X24.  The key-value store returns the value last put under a key,
    [undefined] for a key never put, and no put touches another key or
    the session's files. *)
Theorem kv_put_then_get (key other : string) (value : Value) (s : State) :
  fst ((Skills.kv_put Value key value ;;
        Skills.kv_get Value undefined key) s) = Ok value /\
  (other <> key ->
   fst ((Skills.kv_put Value key value ;;
         Skills.kv_get Value undefined other) s)
   = fst (Skills.kv_get Value undefined other s)) /\
  (Skills.kvStore Value s !! other = None ->
   fst (Skills.kv_get Value undefined other s) = Ok undefined) /\
  Skills.sessionFiles Value (snd (Skills.kv_put Value key value s))
  = Skills.sessionFiles Value s.
Proof.
  unfold bind, Skills.kv_put, Skills.kv_get.
  cbn [Skills.sessionFiles Skills.kvStore fst snd].
  rewrite lookup_insert_eq. repeat split.
  - intros Hother. rewrite lookup_insert_ne by congruence. reflexivity.
  - intros ->. reflexivity.
Qed.

End SkillsFacts.

Section SearchFacts.
Variable fetchText : string -> Outcome string.
Variable encodeURIComponent : string -> string.
Variable resultMatches : string -> list (string * string).

Lemma collectResults_take (matches : list (string * string)) :
  forall (count : nat) (results : list Skills.SearchResult),
    Skills.collectResults matches (Z.of_nat count) results =
    (results ++
     List.map (fun m => {| Skills.title := snd m; Skills.url := fst m;
                           Skills.snippet := EmptyString |})
       (take (10 - count) matches))%list.
Proof.
  induction matches as [|[group1 group2] rest IH]; intros count results.
  - rewrite take_nil. cbn. rewrite app_nil_r. reflexivity.
  - cbn [Skills.collectResults]. destruct (Z.of_nat count <? 10) eqn:Hc.
    + apply Z.ltb_lt in Hc.
      replace (Z.of_nat count + 1) with (Z.of_nat (S count)) by lia.
      rewrite IH.
      replace (10 - count)%nat with (S (10 - S count)) by lia.
      cbn [take List.map fst snd]. rewrite <- app_assoc. reflexivity.
    + apply Z.ltb_ge in Hc.
      replace (10 - count)%nat with 0%nat by lia.
      cbn. rewrite app_nil_r. reflexivity.
Qed.

(** X25.  A search returns the first ten matches of the result pattern in
    the fetched page, in page order, each with the link as [url], the
    anchor text as [title] and an empty [snippet]; it fails exactly when
    fetching the page fails. *)
Theorem search_returns_first_ten_matches (q : string) :
  Skills.search_query fetchText encodeURIComponent resultMatches q =
  match fetchText ("https://html.duckduckgo.com/html/?q=" ++
                   encodeURIComponent q) with
  | Ok html =>
      Ok (List.map (fun m => {| Skills.title := snd m; Skills.url := fst m;
                                Skills.snippet := EmptyString |})
            (take 10 (resultMatches html)))
  | Throw e => Throw e
  end.
Proof.
  unfold Skills.search_query.
  destruct (fetchText _) as [html|e]; [|reflexivity].
  rewrite (collectResults_take _ 0 []). reflexivity.
Qed.

End SearchFacts.


(** * The further properties on the scripted sandbox *)

Lemma program_started_after_all_files_staged_witness :
  envsOf (trace (snd (invoke wall_clock demo_env "code"
                        (Some demo_dependencies) (Some demo_files) None
                        healthy)))
  = Some (buildEnvVars demo_env None) /\
  writesOf (trace (snd (invoke wall_clock demo_env "code"
                          (Some demo_dependencies) (Some demo_files) None
                          healthy)))
  = stagedFiles (Some demo_files).
Proof.
  assert (envsOf (trace (snd (invoke wall_clock demo_env "code"
                                (Some demo_dependencies) (Some demo_files)
                                None healthy)))
          = Some (buildEnvVars demo_env None)) as Henvs
    by (vm_compute; reflexivity).
  split; [exact Henvs|].
  exact (program_started_after_all_files_staged (P := Scripted) wall_clock
           demo_env "code" (Some demo_dependencies) (Some demo_files) None
           healthy _ Henvs).
Defined.

Lemma no_call_after_failure_but_teardown_witness :
  trace (snd (invoke wall_clock demo_env "code" None
                (Some [("a.txt", "hi")]) None write_fails))
  = ([EvCreate 30000 (Ok tt)] ++
     EvWrite "/home/user/a.txt" "hi" (Throw boom) :: [EvKill (Ok tt)])%list /\
  ([EvKill (Ok tt)] = [] \/
   exists killed, [EvKill (Ok tt)] = [EvKill killed]).
Proof.
  assert (trace (snd (invoke wall_clock demo_env "code" None
                        (Some [("a.txt", "hi")]) None write_fails))
          = ([EvCreate 30000 (Ok tt)] ++
             EvWrite "/home/user/a.txt" "hi" (Throw boom) ::
             [EvKill (Ok tt)])%list) as Htrace
    by (vm_compute; reflexivity).
  split; [exact Htrace|].
  exact (no_call_after_failure_but_teardown (P := Scripted) wall_clock
           demo_env "code" None (Some [("a.txt", "hi")]) None write_fails
           _ _ _ Htrace eq_refl).
Defined.


Lemma no_listing_no_reads_witness :
  listingOf (trace (snd (invoke wall_clock demo_env "code" None None None
                           list_fails))) = None /\
  readsOf (trace (snd (invoke wall_clock demo_env "code" None None None
                         list_fails))) = [].
Proof.
  assert (listingOf (trace (snd (invoke wall_clock demo_env "code" None None
                                   None list_fails))) = None)
    as Hlisting by (vm_compute; reflexivity).
  split; [exact Hlisting|].
  exact (no_listing_no_reads (P := Scripted) wall_clock demo_env "code" None
           None None list_fails Hlisting).
Defined.

Lemma failed_provisioning_is_the_only_call_witness :
  trace (snd (invoke wall_clock demo_env "code" (Some demo_dependencies)
                (Some demo_files) None (no_sandbox boom)))
  = [EvCreate 30000 (Throw boom)] /\
  fst (invoke wall_clock demo_env "code" (Some demo_dependencies)
         (Some demo_files) None (no_sandbox boom)) =
  Ok {| stdout := EmptyString;
        stderr := js_or (message boom) "unknown error";
        files := None;
        result := None;
        error := Some (js_or (message boom) "unknown error") |}.
Proof.
  exact (failed_provisioning_is_the_only_call (P := Scripted) wall_clock
           demo_env "code" (Some demo_dependencies) (Some demo_files) None
           (no_sandbox boom) boom eq_refl).
Defined.

Lemma failure_text_is_message_or_fallback_witness :
  thrownOf (trace (snd (invoke wall_clock demo_env "code" None
                          (Some [("a.txt", "hi")]) None write_fails)))
  = Some boom /\
  error (caught boom "unknown error")
  = Some (js_or (message boom) "unknown error") /\
  stderr (caught boom "unknown error") = js_or (message boom) "unknown error".
Proof.
  assert (thrownOf (trace (snd (invoke wall_clock demo_env "code" None
                                  (Some [("a.txt", "hi")]) None write_fails)))
          = Some boom) as Hthrown
    by (vm_compute; reflexivity).
  assert (fst (invoke wall_clock demo_env "code" None
                 (Some [("a.txt", "hi")]) None write_fails)
          = Ok (caught boom "unknown error")) as Hr
    by (vm_compute; reflexivity).
  split; [exact Hthrown|].
  exact (failure_text_is_message_or_fallback (P := Scripted) wall_clock
           demo_env "code" None (Some [("a.txt", "hi")]) None write_fails
           boom _ Hthrown Hr).
Defined.

Lemma result_is_an_object_witness :
  extractResult demo_stdout = Some (widenValue (JObj demo_members)) /\
  exists members, widenValue (JObj demo_members) = JObj members.
Proof.
  assert (extractResult demo_stdout = Some (widenValue (JObj demo_members)))
    as Hresult
    by (vm_compute; reflexivity).
  split; [exact Hresult|].
  exact (result_is_an_object demo_stdout (widenValue (JObj demo_members))
           Hresult).
Defined.

Lemma demo_members_plain : JSON.plain (JObj demo_members).
Proof.
  split; [vm_compute; reflexivity|].
  split; [exact I|]. split; [|exact I].
  split; [vm_compute; discriminate | vm_compute; reflexivity].
Qed.

Lemma printed_object_is_the_result_witness :
  extractResult
    (("log line" ++ nl) ++ JSON.stringify (JObj demo_members) ++
     (nl ++ "trailing"))
  = Some (JSON.reparse (JObj demo_members)) /\
  (JSON.plain (JObj demo_members) ->
   extractResult
     (("log line" ++ nl) ++ JSON.stringify (JObj demo_members) ++
      (nl ++ "trailing"))
   = Some (widenValue (JObj demo_members))).
Proof.
  exact (printed_object_is_the_result ("log line" ++ nl) (nl ++ "trailing")
           demo_members eq_refl eq_refl).
Defined.


Lemma error_text_parses_back_to_fault_witness :
  errorOf faulted_execution
  = Some (JSON.stringify_pretty (json_of_ExecutionError late_fault)) /\
  exists fault,
    execution_error faulted_execution = Some fault /\
    JSON.parse (JSON.stringify_pretty (json_of_ExecutionError late_fault)) =
    Some (widenValue (JObj [("name", JStr (ee_name fault));
                            ("value", JStr (ee_value fault));
                            ("traceback", JStr (ee_traceback fault))])).
Proof.
  split; [reflexivity|].
  exact (error_text_parses_back_to_fault faulted_execution _ eq_refl).
Defined.

(** ** Readings of the JSON built-ins *)

(** Numbers are doubles: an integer beyond 2^53 is read as the nearest
    double, a fraction and an exponent are read, and a number from 1e21 on
    is printed with an exponent. *)
Lemma numbers_are_doubles :
  JSON.parse ("{" ++ quoted "n" ++ ":9007199254740993}")
  = Some (JObj [(widen "n", JNum 9007199254740992)]) /\
  JSON.parse ("{" ++ quoted "x" ++ ":0.25e1}")
  = Some (JObj [(widen "x", JNum 2.5)]) /\
  JSON.stringify (JNum 1e21) = "1e+21" /\
  JSON.stringify (JNum (Number.ofDecimal false 1 (-1))) = "0.1" /\
  JSON.stringify (JNum (-1.5)) = "-1.5" /\
  JSON.stringify (JNum nan) = "null".
Proof. repeat split; vm_compute; reflexivity. Qed.

(** Keys that are array indices come first, in ascending order; a key
    that occurs twice keeps its first place and takes its last value. *)
Lemma members_in_enumeration_order :
  JSON.parse ("{" ++ quoted "b" ++ ":1," ++ quoted "10" ++ ":2," ++
              quoted "9" ++ ":3," ++ quoted "b" ++ ":4}")
  = Some (JObj [(widen "9", JNum 3); (widen "10", JNum 2);
                (widen "b", JNum 4)]) /\
  JSON.stringify (JObj [("b", JNum 1); ("10", JNum 2); ("9", JNum 3)])
  = "{" ++ quoted "9" ++ ":3," ++ quoted "10" ++ ":2," ++ quoted "b" ++ ":1}".
Proof. split; vm_compute; reflexivity. Qed.

(** An escape of the text can denote any 16-bit code unit. *)
Lemma escapes_denote_code_units :
  JSON.parse ("{" ++ quoted (String JSON.backslash "u0141") ++ ":null}")
  = Some (JObj [([("001"%char, "A"%char)], JNull)]).
Proof. vm_compute. reflexivity. Qed.

Lemma teardown_is_the_last_call_witness :
  exists killed,
    last (trace (snd (invoke wall_clock demo_env "code" None None None
                        read_fails))) = Some (EvKill killed).
Proof.
  exact (teardown_is_the_last_call (P := Scripted) wall_clock demo_env "code"
           None None None read_fails tt eq_refl).
Defined.

Lemma fs_write_then_read_witness :
  fst ((Skills.fs_writeFile json "out.txt" "42" ;;
        Skills.fs_readFile json "out.txt")
         {| Skills.kvStore := ∅; Skills.sessionFiles := ∅ |}) = Ok "42" /\
  ("in.txt" <> "out.txt" ->
   fst ((Skills.fs_writeFile json "out.txt" "42" ;;
         Skills.fs_readFile json "in.txt")
          {| Skills.kvStore := ∅; Skills.sessionFiles := ∅ |})
   = fst (Skills.fs_readFile json "in.txt"
            {| Skills.kvStore := ∅; Skills.sessionFiles := ∅ |})) /\
  Skills.kvStore json
    (snd (Skills.fs_writeFile json "out.txt" "42"
            {| Skills.kvStore := ∅; Skills.sessionFiles := ∅ |}))
  = Skills.kvStore json {| Skills.kvStore := ∅; Skills.sessionFiles := ∅ |}.
Proof.
  exact (fs_write_then_read json "out.txt" "42" "in.txt"
           {| Skills.kvStore := ∅; Skills.sessionFiles := ∅ |}).
Defined.

Lemma kv_put_then_get_witness :
  fst ((Skills.kv_put json "n" (JNum 1) ;; Skills.kv_get json JNull "n")
         {| Skills.kvStore := ∅; Skills.sessionFiles := ∅ |})
  = Ok (JNum 1) /\
  ("m" <> "n" ->
   fst ((Skills.kv_put json "n" (JNum 1) ;; Skills.kv_get json JNull "m")
          {| Skills.kvStore := ∅; Skills.sessionFiles := ∅ |})
   = fst (Skills.kv_get json JNull "m"
            {| Skills.kvStore := ∅; Skills.sessionFiles := ∅ |})) /\
  (Skills.kvStore json {| Skills.kvStore := ∅; Skills.sessionFiles := ∅ |}
     !! "m" = None ->
   fst (Skills.kv_get json JNull "m"
          {| Skills.kvStore := ∅; Skills.sessionFiles := ∅ |}) = Ok JNull) /\
  Skills.sessionFiles json
    (snd (Skills.kv_put json "n" (JNum 1)
            {| Skills.kvStore := ∅; Skills.sessionFiles := ∅ |}))
  = Skills.sessionFiles json
      {| Skills.kvStore := ∅; Skills.sessionFiles := ∅ |}.
Proof.
  exact (kv_put_then_get json JNull "n" "m" (JNum 1)
           {| Skills.kvStore := ∅; Skills.sessionFiles := ∅ |}).
Defined.
